(** * Obs / Od: observables with level-ordered re-evaluation, and the
      component layer of the observables-based vDOM.

    A shallow embedding of [Obs.ts] and of the component and keyed-children
    parts of [Od.ts], with the properties of the specification proved (or
    refuted) against it. *)

From Stdlib Require Import ZArith Lia.
From stdpp Require Import gmap strings list pretty.

Set Default Proof Using "Type".
Open Scope Z_scope.
Open Scope nat_scope.

(** ** The update queue

    [updateQ] is a JavaScript array of observables used as a binary heap.
    An observable is referred to by its [obsid]; [level] gives the current
    [obs.level] of each one ([None] is JavaScript's [undefined]). *)

Section UpdateQueue.

Variable level : nat -> option Z.

(** [a <= b] on possibly-undefined numbers: a comparison with
    [undefined] is false. *)
Definition js_le (a b : option Z) : bool :=
  match a, b with
  | Some x, Some y => (x <=? y)%Z
  | _, _ => false
  end.

(** The [while (i)] loop of [enqueueUpdate]: the hole at [i] moves towards
    the root while the entry at [j = i >> 1] has a greater level. *)
Fixpoint enqueue_loop (fuel : nat) (levelI : option Z) (q : list nat) (i : nat)
  : list nat * nat :=
  match fuel with
  | O => (q, i)
  | S fuel' =>
      if Nat.eqb i 0 then (q, i)
      else
        let j := Nat.shiftr i 1 in
        match q !! j with
        | Some obsJ =>
            if js_le (level obsJ) levelI then (q, i)
            else enqueue_loop fuel' levelI (<[i:=obsJ]> q) j
        | None => (q, i)
        end
  end.

Definition heap_enqueue (q : list nat) (obs : nat) : list nat :=
  let i := length q in
  let q1 := q ++ [obs] in
  let '(q2, i') := enqueue_loop i (level obs) q1 i in
  <[i':=obs]> q2.

(** The [while (j < n)] loop of [dequeueUpdate]. *)
Fixpoint dequeue_loop (fuel : nat) (levelI : option Z) (n : nat)
    (q : list nat) (i j : nat) : list nat * nat :=
  match fuel with
  | O => (q, i)
  | S fuel' =>
      if Nat.ltb j n then
        let k := Nat.min (j + 1) (n - 1) in
        match q !! j, q !! k with
        | Some objJ, Some objK =>
            if js_le (level objJ) (level objK) then
              if js_le levelI (level objJ) then (q, i)
              else dequeue_loop fuel' levelI n (<[i:=objJ]> q) j (Nat.shiftl j 1)
            else
              if js_le levelI (level objK) then (q, i)
              else dequeue_loop fuel' levelI n (<[i:=objK]> q) k (Nat.shiftl k 1)
        | _, _ => (q, i)
        end
      else (q, i)
  end.

(** [dequeueUpdate] on the array alone: the observable returned and the
    array left behind ([None] when the array is empty). *)
Definition heap_dequeue (q : list nat) : option (nat * list nat) :=
  match q with
  | [] => None
  | obs :: _ =>
      match last q with
      | None => None
      | Some obsI =>
          let q1 := take (length q - 1) q in
          let n := length q1 in
          if Nat.eqb n 0 then Some (obs, q1)
          else
            let '(q2, i) := dequeue_loop n (level obsI) n q1 0 1 in
            Some (obs, <[i:=obsI]> q2)
      end
  end.



End UpdateQueue.

(** ** JavaScript values and objects used as maps *)

(** The property bag of an element, reduced to the two properties the
    patching algorithm itself inspects: [key] and [keyed].  Keys and
    component names are array-index numbers, so an object indexed by them is
    enumerated in ascending order and has no inherited property in the way. *)
Record props := mkProps { p_key : option nat; p_keyed : bool }.

#[warnings="-register-all"]
Inductive jsval : Type :=
| VUndefined
| VNull
| VBool (b : bool)
| VNum (n : Z)
| VStr (s : string)
| VElement (ref : nat) (tag : string) (ps : option props) (vchildren : option (list jsval))
    (* the closure returned by [Od.element]; [ref] is its identity *)
| VComponent (cid : nat)   (* the closure returned by [Od.component] *)
| VNode (nid : nat).       (* a DOM node *)

Definition truthy (v : jsval) : bool :=
  match v with
  | VUndefined | VNull => false
  | VBool b => b
  | VNum n => negb (n =? 0)%Z
  | VStr s => negb (String.eqb s "")
  | _ => true
  end.

(** [x === y] *)
Definition strict_eq (x y : jsval) : bool :=
  match x, y with
  | VUndefined, VUndefined | VNull, VNull => true
  | VBool a, VBool b => Bool.eqb a b
  | VNum a, VNum b => (a =? b)%Z
  | VStr a, VStr b => String.eqb a b
  | VElement a _ _ _, VElement b _ _ _ => Nat.eqb a b
  | VComponent a, VComponent b => Nat.eqb a b
  | VNode a, VNode b => Nat.eqb a b
  | _, _ => false
  end.

Definition defaultEq (x y : jsval) : bool := strict_eq x y.

(** [valueOf] is the identity on every value of the model. *)
Definition valueOfEq (x y : jsval) : bool :=
  (truthy x && truthy y && strict_eq x y) || (negb (truthy x) && negb (truthy y)).

Definition alwaysUpdate (x y : jsval) : bool := false.

(** An object indexed by numbers: the entries in ascending key order, which
    is the order [for (id in o)] visits them. *)
Definition jsobj (A : Type) := list (nat * A).

Fixpoint obj_get {A} (o : jsobj A) (k : nat) : option A :=
  match o with
  | [] => None
  | (k', v) :: o' => if Nat.eqb k k' then Some v else obj_get o' k
  end.

(** [o[k] = v] *)
Fixpoint obj_set {A} (o : jsobj A) (k : nat) (v : A) : jsobj A :=
  match o with
  | [] => [(k, v)]
  | (k', v') :: o' =>
      if Nat.eqb k k' then (k, v) :: o'
      else if Nat.ltb k k' then (k, v) :: (k', v') :: o'
      else (k', v') :: obj_set o' k v
  end.

Definition obj_keys {A} (o : jsobj A) : list nat := map fst o.

(** [x | 0] *)
Definition to_int32 (z : Z) : Z := ((z + 2 ^ 31) mod 2 ^ 32 - 2 ^ 31)%Z.

(** ** Bodies of computed observables and of components

    A body is a tree of the calls it makes into the library, each with the
    continuation that receives the result. *)
Inductive prog : Type :=
| Ret (v : jsval)                                   (* return v *)
| Throw (e : jsval)                                 (* throw e *)
| Read (x : nat) (k : jsval -> prog)                (* x() *)
| Peek (x : nat) (k : jsval -> prog)                (* Obs.peek(x) *)
| Write (x : nat) (v : jsval) (k : jsval -> prog)   (* x(v) *)
| Element (tag : string) (ps : option props) (children : option (list jsval))
    (k : jsval -> prog)                             (* Od.element(tag, props, children) *)
| Component (name : option nat) (f : prog) (k : jsval -> prog).
                                                    (* Od.component(name, f) *)

(** What [f] is in [Obs.fn(f)]: a body, or the closure [Od.component] wraps
    around the component's body. *)
Inductive body : Type :=
| BProg (f : prog)
| BComponent (cid : nat) (f : prog).

(** The action of a subscription: a body whose result is dropped, or the
    update subscription of a component. *)
Inductive action : Type :=
| AProg (a : prog)
| AComponentUpdate (cid : nat).

Inductive obsfn : Type :=
| FnComputed (f : body)       (* () => updateComputedObs(obs, f, eq) *)
| FnSubscription (a : action). (* subsAction *)

(** ** The state *)

Record obs := mkObs {
  o_value : jsval;
  o_eq : jsval -> jsval -> bool;
  o_fn : option obsfn;
  o_dependencies : option (jsobj (option nat));
  o_dependents : option (jsobj (option nat));
  o_level : option Z;
  o_isInUpdateQueue : bool;
  o_subscriptions : option (list nat)
}.

Record node := mkNode {
  n_nodeName : string;            (* the tag, or "#text" *)
  n_nodeValue : string;
  n_key : option nat;
  n_keyed : bool;
  n_odProps : option (option props);   (* __Od__props; [None] is undefined *)
  n_componentID : nat;            (* __Od__componentID; 0 for none *)
  n_parentNode : option nat;
  n_childNodes : list nat
}.

Record cmptInfo := mkCmptInfo {
  c_dom : option nat;
  c_obs : option nat;
  c_subs : option nat;
  c_anonymousSubcomponents : list nat;
  c_namedSubcomponents : jsobj (option nat);
  c_updateIsPending : bool;
  c_key : option nat;             (* cmpt.key *)
  c_dispose : bool                (* cmpt.dispose has been set *)
}.

(** What [trace] is called with, where the properties need it. *)
Inductive event : Type :=
| TEnqueueing (id : nat) (lvl : option Z)   (* with the level [enqueueUpdate] reads *)
| TDequeueing (id : nat)
| TReevaluating (id : nat).

Record state := mkState {
  (* Obs *)
  observables : gmap nat obs;
  nextID : nat;
  updateQ : list nat;
  updateDepth : nat;
  currentDependencies : option nat;  (* the observable whose [dependencies] it is *)
  reported : list jsval;             (* what [Obs.exceptionReporter] was given *)
  traced : list event;
  (* Od *)
  components : gmap nat cmptInfo;
  nextComponentID : nat;
  parentComponentInfo : option nat;
  deferComponentUpdates : bool;
  componentInfosPendingUpdate : list nat;
  deferredComponentUpdatesID : nat;
  nextElement : nat;                 (* identities of [Od.element] closures *)
  (* the document *)
  nodes : gmap nat node;
  nextNode : nat;
  nodesPendingStripping : list nat;
  stripNodesID : nat
}.

Definition initial : state :=
  {| observables := ∅; nextID := 1; updateQ := []; updateDepth := 0;
     currentDependencies := None; reported := []; traced := [];
     components := ∅; nextComponentID := 1; parentComponentInfo := None;
     deferComponentUpdates := true; componentInfosPendingUpdate := [];
     deferredComponentUpdatesID := 0; nextElement := 1;
     nodes := ∅; nextNode := 1; nodesPendingStripping := []; stripNodesID := 0 |}.

(** Field updates. *)
Definition set_o_value (x : _) (r : obs) : obs :=
  mkObs x (o_eq r) (o_fn r) (o_dependencies r) (o_dependents r) (o_level r) (o_isInUpdateQueue r) (o_subscriptions r).
Definition set_o_eq (x : _) (r : obs) : obs :=
  mkObs (o_value r) x (o_fn r) (o_dependencies r) (o_dependents r) (o_level r) (o_isInUpdateQueue r) (o_subscriptions r).
Definition set_o_fn (x : _) (r : obs) : obs :=
  mkObs (o_value r) (o_eq r) x (o_dependencies r) (o_dependents r) (o_level r) (o_isInUpdateQueue r) (o_subscriptions r).
Definition set_o_dependencies (x : _) (r : obs) : obs :=
  mkObs (o_value r) (o_eq r) (o_fn r) x (o_dependents r) (o_level r) (o_isInUpdateQueue r) (o_subscriptions r).
Definition set_o_dependents (x : _) (r : obs) : obs :=
  mkObs (o_value r) (o_eq r) (o_fn r) (o_dependencies r) x (o_level r) (o_isInUpdateQueue r) (o_subscriptions r).
Definition set_o_level (x : _) (r : obs) : obs :=
  mkObs (o_value r) (o_eq r) (o_fn r) (o_dependencies r) (o_dependents r) x (o_isInUpdateQueue r) (o_subscriptions r).
Definition set_o_isInUpdateQueue (x : _) (r : obs) : obs :=
  mkObs (o_value r) (o_eq r) (o_fn r) (o_dependencies r) (o_dependents r) (o_level r) x (o_subscriptions r).
Definition set_o_subscriptions (x : _) (r : obs) : obs :=
  mkObs (o_value r) (o_eq r) (o_fn r) (o_dependencies r) (o_dependents r) (o_level r) (o_isInUpdateQueue r) x.

Definition set_n_nodeName (x : _) (r : node) : node :=
  mkNode x (n_nodeValue r) (n_key r) (n_keyed r) (n_odProps r) (n_componentID r) (n_parentNode r) (n_childNodes r).
Definition set_n_nodeValue (x : _) (r : node) : node :=
  mkNode (n_nodeName r) x (n_key r) (n_keyed r) (n_odProps r) (n_componentID r) (n_parentNode r) (n_childNodes r).
Definition set_n_key (x : _) (r : node) : node :=
  mkNode (n_nodeName r) (n_nodeValue r) x (n_keyed r) (n_odProps r) (n_componentID r) (n_parentNode r) (n_childNodes r).
Definition set_n_keyed (x : _) (r : node) : node :=
  mkNode (n_nodeName r) (n_nodeValue r) (n_key r) x (n_odProps r) (n_componentID r) (n_parentNode r) (n_childNodes r).
Definition set_n_odProps (x : _) (r : node) : node :=
  mkNode (n_nodeName r) (n_nodeValue r) (n_key r) (n_keyed r) x (n_componentID r) (n_parentNode r) (n_childNodes r).
Definition set_n_componentID (x : _) (r : node) : node :=
  mkNode (n_nodeName r) (n_nodeValue r) (n_key r) (n_keyed r) (n_odProps r) x (n_parentNode r) (n_childNodes r).
Definition set_n_parentNode (x : _) (r : node) : node :=
  mkNode (n_nodeName r) (n_nodeValue r) (n_key r) (n_keyed r) (n_odProps r) (n_componentID r) x (n_childNodes r).
Definition set_n_childNodes (x : _) (r : node) : node :=
  mkNode (n_nodeName r) (n_nodeValue r) (n_key r) (n_keyed r) (n_odProps r) (n_componentID r) (n_parentNode r) x.

Definition set_c_dom (x : _) (r : cmptInfo) : cmptInfo :=
  mkCmptInfo x (c_obs r) (c_subs r) (c_anonymousSubcomponents r) (c_namedSubcomponents r) (c_updateIsPending r) (c_key r) (c_dispose r).
Definition set_c_obs (x : _) (r : cmptInfo) : cmptInfo :=
  mkCmptInfo (c_dom r) x (c_subs r) (c_anonymousSubcomponents r) (c_namedSubcomponents r) (c_updateIsPending r) (c_key r) (c_dispose r).
Definition set_c_subs (x : _) (r : cmptInfo) : cmptInfo :=
  mkCmptInfo (c_dom r) (c_obs r) x (c_anonymousSubcomponents r) (c_namedSubcomponents r) (c_updateIsPending r) (c_key r) (c_dispose r).
Definition set_c_anonymousSubcomponents (x : _) (r : cmptInfo) : cmptInfo :=
  mkCmptInfo (c_dom r) (c_obs r) (c_subs r) x (c_namedSubcomponents r) (c_updateIsPending r) (c_key r) (c_dispose r).
Definition set_c_namedSubcomponents (x : _) (r : cmptInfo) : cmptInfo :=
  mkCmptInfo (c_dom r) (c_obs r) (c_subs r) (c_anonymousSubcomponents r) x (c_updateIsPending r) (c_key r) (c_dispose r).
Definition set_c_updateIsPending (x : _) (r : cmptInfo) : cmptInfo :=
  mkCmptInfo (c_dom r) (c_obs r) (c_subs r) (c_anonymousSubcomponents r) (c_namedSubcomponents r) x (c_key r) (c_dispose r).
Definition set_c_key (x : _) (r : cmptInfo) : cmptInfo :=
  mkCmptInfo (c_dom r) (c_obs r) (c_subs r) (c_anonymousSubcomponents r) (c_namedSubcomponents r) (c_updateIsPending r) x (c_dispose r).
Definition set_c_dispose (x : _) (r : cmptInfo) : cmptInfo :=
  mkCmptInfo (c_dom r) (c_obs r) (c_subs r) (c_anonymousSubcomponents r) (c_namedSubcomponents r) (c_updateIsPending r) (c_key r) x.

Definition set_observables (x : _) (r : state) : state :=
  mkState x (nextID r) (updateQ r) (updateDepth r) (currentDependencies r) (reported r) (traced r) (components r) (nextComponentID r) (parentComponentInfo r) (deferComponentUpdates r) (componentInfosPendingUpdate r) (deferredComponentUpdatesID r) (nextElement r) (nodes r) (nextNode r) (nodesPendingStripping r) (stripNodesID r).
Definition set_nextID (x : _) (r : state) : state :=
  mkState (observables r) x (updateQ r) (updateDepth r) (currentDependencies r) (reported r) (traced r) (components r) (nextComponentID r) (parentComponentInfo r) (deferComponentUpdates r) (componentInfosPendingUpdate r) (deferredComponentUpdatesID r) (nextElement r) (nodes r) (nextNode r) (nodesPendingStripping r) (stripNodesID r).
Definition set_updateQ (x : _) (r : state) : state :=
  mkState (observables r) (nextID r) x (updateDepth r) (currentDependencies r) (reported r) (traced r) (components r) (nextComponentID r) (parentComponentInfo r) (deferComponentUpdates r) (componentInfosPendingUpdate r) (deferredComponentUpdatesID r) (nextElement r) (nodes r) (nextNode r) (nodesPendingStripping r) (stripNodesID r).
Definition set_updateDepth (x : _) (r : state) : state :=
  mkState (observables r) (nextID r) (updateQ r) x (currentDependencies r) (reported r) (traced r) (components r) (nextComponentID r) (parentComponentInfo r) (deferComponentUpdates r) (componentInfosPendingUpdate r) (deferredComponentUpdatesID r) (nextElement r) (nodes r) (nextNode r) (nodesPendingStripping r) (stripNodesID r).
Definition set_currentDependencies (x : _) (r : state) : state :=
  mkState (observables r) (nextID r) (updateQ r) (updateDepth r) x (reported r) (traced r) (components r) (nextComponentID r) (parentComponentInfo r) (deferComponentUpdates r) (componentInfosPendingUpdate r) (deferredComponentUpdatesID r) (nextElement r) (nodes r) (nextNode r) (nodesPendingStripping r) (stripNodesID r).
Definition set_reported (x : _) (r : state) : state :=
  mkState (observables r) (nextID r) (updateQ r) (updateDepth r) (currentDependencies r) x (traced r) (components r) (nextComponentID r) (parentComponentInfo r) (deferComponentUpdates r) (componentInfosPendingUpdate r) (deferredComponentUpdatesID r) (nextElement r) (nodes r) (nextNode r) (nodesPendingStripping r) (stripNodesID r).
Definition set_traced (x : _) (r : state) : state :=
  mkState (observables r) (nextID r) (updateQ r) (updateDepth r) (currentDependencies r) (reported r) x (components r) (nextComponentID r) (parentComponentInfo r) (deferComponentUpdates r) (componentInfosPendingUpdate r) (deferredComponentUpdatesID r) (nextElement r) (nodes r) (nextNode r) (nodesPendingStripping r) (stripNodesID r).
Definition set_components (x : _) (r : state) : state :=
  mkState (observables r) (nextID r) (updateQ r) (updateDepth r) (currentDependencies r) (reported r) (traced r) x (nextComponentID r) (parentComponentInfo r) (deferComponentUpdates r) (componentInfosPendingUpdate r) (deferredComponentUpdatesID r) (nextElement r) (nodes r) (nextNode r) (nodesPendingStripping r) (stripNodesID r).
Definition set_nextComponentID (x : _) (r : state) : state :=
  mkState (observables r) (nextID r) (updateQ r) (updateDepth r) (currentDependencies r) (reported r) (traced r) (components r) x (parentComponentInfo r) (deferComponentUpdates r) (componentInfosPendingUpdate r) (deferredComponentUpdatesID r) (nextElement r) (nodes r) (nextNode r) (nodesPendingStripping r) (stripNodesID r).
Definition set_parentComponentInfo (x : _) (r : state) : state :=
  mkState (observables r) (nextID r) (updateQ r) (updateDepth r) (currentDependencies r) (reported r) (traced r) (components r) (nextComponentID r) x (deferComponentUpdates r) (componentInfosPendingUpdate r) (deferredComponentUpdatesID r) (nextElement r) (nodes r) (nextNode r) (nodesPendingStripping r) (stripNodesID r).
Definition set_deferComponentUpdates (x : _) (r : state) : state :=
  mkState (observables r) (nextID r) (updateQ r) (updateDepth r) (currentDependencies r) (reported r) (traced r) (components r) (nextComponentID r) (parentComponentInfo r) x (componentInfosPendingUpdate r) (deferredComponentUpdatesID r) (nextElement r) (nodes r) (nextNode r) (nodesPendingStripping r) (stripNodesID r).
Definition set_componentInfosPendingUpdate (x : _) (r : state) : state :=
  mkState (observables r) (nextID r) (updateQ r) (updateDepth r) (currentDependencies r) (reported r) (traced r) (components r) (nextComponentID r) (parentComponentInfo r) (deferComponentUpdates r) x (deferredComponentUpdatesID r) (nextElement r) (nodes r) (nextNode r) (nodesPendingStripping r) (stripNodesID r).
Definition set_deferredComponentUpdatesID (x : _) (r : state) : state :=
  mkState (observables r) (nextID r) (updateQ r) (updateDepth r) (currentDependencies r) (reported r) (traced r) (components r) (nextComponentID r) (parentComponentInfo r) (deferComponentUpdates r) (componentInfosPendingUpdate r) x (nextElement r) (nodes r) (nextNode r) (nodesPendingStripping r) (stripNodesID r).
Definition set_nextElement (x : _) (r : state) : state :=
  mkState (observables r) (nextID r) (updateQ r) (updateDepth r) (currentDependencies r) (reported r) (traced r) (components r) (nextComponentID r) (parentComponentInfo r) (deferComponentUpdates r) (componentInfosPendingUpdate r) (deferredComponentUpdatesID r) x (nodes r) (nextNode r) (nodesPendingStripping r) (stripNodesID r).
Definition set_nodes (x : _) (r : state) : state :=
  mkState (observables r) (nextID r) (updateQ r) (updateDepth r) (currentDependencies r) (reported r) (traced r) (components r) (nextComponentID r) (parentComponentInfo r) (deferComponentUpdates r) (componentInfosPendingUpdate r) (deferredComponentUpdatesID r) (nextElement r) x (nextNode r) (nodesPendingStripping r) (stripNodesID r).
Definition set_nextNode (x : _) (r : state) : state :=
  mkState (observables r) (nextID r) (updateQ r) (updateDepth r) (currentDependencies r) (reported r) (traced r) (components r) (nextComponentID r) (parentComponentInfo r) (deferComponentUpdates r) (componentInfosPendingUpdate r) (deferredComponentUpdatesID r) (nextElement r) (nodes r) x (nodesPendingStripping r) (stripNodesID r).
Definition set_nodesPendingStripping (x : _) (r : state) : state :=
  mkState (observables r) (nextID r) (updateQ r) (updateDepth r) (currentDependencies r) (reported r) (traced r) (components r) (nextComponentID r) (parentComponentInfo r) (deferComponentUpdates r) (componentInfosPendingUpdate r) (deferredComponentUpdatesID r) (nextElement r) (nodes r) (nextNode r) x (stripNodesID r).
Definition set_stripNodesID (x : _) (r : state) : state :=
  mkState (observables r) (nextID r) (updateQ r) (updateDepth r) (currentDependencies r) (reported r) (traced r) (components r) (nextComponentID r) (parentComponentInfo r) (deferComponentUpdates r) (componentInfosPendingUpdate r) (deferredComponentUpdatesID r) (nextElement r) (nodes r) (nextNode r) (nodesPendingStripping r) x.

(** ** Computations: a state transformer that may throw *)

Inductive outcome (A : Type) : Type :=
| Ok (a : A) (s : state)        (* normal completion *)
| Exn (e : jsval) (s : state)   (* an exception propagates, the heap as it was left *)
| OutOfFuel.
Arguments Ok {A} a s.
Arguments Exn {A} e s.
Arguments OutOfFuel {A}.

Definition M (A : Type) : Type := state -> outcome A.

Global Instance M_ret : MRet M := fun A a s => Ok a s.
Global Instance M_bind : MBind M := fun A B k m s =>
  match m s with
  | Ok a s' => k a s'
  | Exn e s' => Exn e s'
  | OutOfFuel => OutOfFuel
  end.

Definition get : M state := fun s => Ok s s.
Definition gets {A} (f : state -> A) : M A := fun s => Ok (f s) s.
Definition modify (f : state -> state) : M unit := fun s => Ok tt (f s).
Definition throw {A} (e : jsval) : M A := fun s => Exn e s.

(** [try { m } catch (e) { h(e) }] *)
Definition try_catch {A} (m : M A) (h : jsval -> M A) : M A := fun s =>
  match m s with
  | Exn e s' => h e s'
  | r => r
  end.

Fixpoint forM_ {A} (l : list A) (f : A -> M unit) : M unit :=
  match l with
  | [] => mret tt
  | x :: l' => f x ≫= fun _ => forM_ l' f
  end.

Fixpoint foldM {A B} (f : B -> A -> M B) (b : B) (l : list A) : M B :=
  match l with
  | [] => mret b
  | x :: l' => f b x ≫= fun b' => foldM f b' l'
  end.

(** What the engine throws on [undefined.p] or on calling a non-function. *)
Definition typeError : jsval := VStr "TypeError".

Definition getObs (id : nat) : M obs := fun s =>
  match observables s !! id with
  | Some o => Ok o s
  | None => Exn typeError s
  end.

Definition setObs (id : nat) (o : obs) : M unit :=
  modify (fun s => set_observables (<[id:=o]> (observables s)) s).

Definition updObs (id : nat) (f : obs -> obs) : M unit :=
  o ← getObs id; setObs id (f o).

(** [obs.level] of the observable [id] in [s]. *)
Definition level_of (s : state) (id : nat) : option Z :=
  observables s !! id ≫= o_level.

Definition trace (e : event) : M unit :=
  modify (fun s => set_traced (traced s ++ [e]) s).

(** The points where the library calls back into itself through a loop or
    through user code. *)
Inductive call : Type :=
| CRun (p : prog)                        (* run (the rest of) a body *)
| CProcessUpdateQueue                    (* the next turn of [processUpdateQueue] *)
| CPatchFromVdom (vdom dom parent : jsval)
| CDisposeComponent (cid : nat).

(** ** The document

    The host's nodes, with the standard behaviour of the few DOM operations
    the library uses.  A node is referred to by its number in [nodes]. *)

Definition getNode (nid : nat) : M node := fun s =>
  match nodes s !! nid with
  | Some n => Ok n s
  | None => Exn typeError s
  end.

Definition setNode (nid : nat) (n : node) : M unit :=
  modify (fun s => set_nodes (<[nid:=n]> (nodes s)) s).

Definition updNode (nid : nat) (f : node -> node) : M unit :=
  n ← getNode nid; setNode nid (f n).

Definition newNode (name value : string) : M nat :=
  nid ← gets nextNode;
  modify (fun s => set_nextNode (S nid) s);;
  setNode nid (mkNode name value None false None 0 None []);;
  mret nid.

Definition createElement (tag : string) : M nat := newNode tag "".
Definition createTextNode (txt : string) : M nat := newNode "#text" txt.

Definition remove_node (x : nat) (l : list nat) : list nat :=
  filter (fun y => y ≠ x) l.

(** [l] with [x] put in front of the first occurrence of [ref]; at the end
    when [ref] is [None]. *)
Fixpoint insert_before (x : nat) (ref : option nat) (l : list nat) : list nat :=
  match l with
  | [] => [x]
  | y :: l' =>
      if bool_decide (ref = Some y) then x :: y :: l'
      else y :: insert_before x ref l'
  end.

Fixpoint next_in (x : nat) (l : list nat) : option nat :=
  match l with
  | [] => None
  | y :: l' => if Nat.eqb x y then head l' else next_in x l'
  end.

Definition firstChild (nid : nat) : M (option nat) :=
  n ← getNode nid; mret (head (n_childNodes n)).

Definition nextSibling (nid : nat) : M (option nat) :=
  n ← getNode nid;
  match n_parentNode n with
  | None => mret None
  | Some p => pn ← getNode p; mret (next_in nid (n_childNodes pn))
  end.

(** Take a node out of the child list of its parent, if it has one. *)
Definition detach (nid : nat) : M unit :=
  n ← getNode nid;
  match n_parentNode n with
  | None => mret tt
  | Some p =>
      updNode p (fun pn => set_n_childNodes (remove_node nid (n_childNodes pn)) pn);;
      updNode nid (set_n_parentNode None)
  end.

Definition notFoundError : jsval := VStr "NotFoundError".

Definition insertBefore (parent new ref : nat) : M unit :=
  pn ← getNode parent;
  if bool_decide (ref ∈ n_childNodes pn) then
    let ref' := if Nat.eqb new ref then next_in ref (n_childNodes pn) else Some ref in
    detach new;;
    updNode parent (fun pn =>
      set_n_childNodes (insert_before new ref' (n_childNodes pn)) pn);;
    updNode new (set_n_parentNode (Some parent))
  else throw notFoundError.

Definition appendChild (parent new : nat) : M unit :=
  getNode parent;;
  detach new;;
  updNode parent (fun pn => set_n_childNodes (n_childNodes pn ++ [new]) pn);;
  updNode new (set_n_parentNode (Some parent)).

Definition removeChild (parent old : nat) : M unit :=
  pn ← getNode parent;
  if bool_decide (old ∈ n_childNodes pn) then
    updNode parent (fun pn => set_n_childNodes (remove_node old (n_childNodes pn)) pn);;
    updNode old (set_n_parentNode None)
  else throw notFoundError.

Definition replaceChild (parent new old : nat) : M unit :=
  pn ← getNode parent;
  if bool_decide (old ∈ n_childNodes pn) then
    if Nat.eqb new old then mret tt
    else
      detach new;;
      updNode parent (fun pn =>
        set_n_childNodes
          (remove_node old (insert_before new (Some old) (n_childNodes pn))) pn);;
      updNode old (set_n_parentNode None);;
      updNode new (set_n_parentNode (Some parent))
  else throw notFoundError.

(** ** Od.ts: patching *)

Definition ascii_upper (c : Ascii.ascii) : Ascii.ascii :=
  let n := Ascii.nat_of_ascii c in
  if (97 <=? n) && (n <=? 122) then Ascii.ascii_of_nat (n - 32) else c.

Fixpoint toUpperCase (s : string) : string :=
  match s with
  | EmptyString => EmptyString
  | String c s' => String (ascii_upper c) (toUpperCase s')
  end.

(** [content.toString()] *)
Definition toString (content : jsval) : M string :=
  match content with
  | VUndefined | VNull => throw typeError
  | VBool b => mret (if b then "true" else "false")
  | VNum n => mret (pretty n)
  | VStr s => mret s
  | VElement _ _ _ _ | VComponent _ => mret "function"
  | VNode _ => mret "[object Node]"
  end.

Definition isComponentDom (dom : nat) : M bool :=
  n ← getNode dom; mret (negb (Nat.eqb (n_componentID n) 0)).

Definition setDomComponentID (dom : option nat) (componentID : nat) : M unit :=
  match dom with
  | None => throw typeError
  | Some dom => updNode dom (set_n_componentID componentID)
  end.

Definition clearDomComponentID (dom : option nat) : M unit :=
  setDomComponentID dom 0.

Definition enqueueNodeForStripping (dom : option nat) : M unit :=
  match dom with
  | None => mret tt
  | Some dom =>
      isCmpt ← isComponentDom dom;
      if isCmpt : bool then mret tt
      else
        modify (fun s => set_nodesPendingStripping (nodesPendingStripping s ++ [dom]) s);;
        modify (fun s => if Nat.eqb (stripNodesID s) 0 then set_stripNodesID 1 s else s)
  end.

Definition patchNode (newDom oldDom parent : option nat) : M unit :=
  if bool_decide (newDom = oldDom) then mret tt
  else
    enqueueNodeForStripping oldDom;;
    match parent with
    | None => mret tt
    | Some parent =>
        match newDom, oldDom with
        | None, Some oldDom => removeChild parent oldDom
        | None, None => mret tt
        | Some newDom, None => appendChild parent newDom
        | Some newDom, Some oldDom => replaceChild parent newDom oldDom
        end
    end.

Definition patchText (content : jsval) (dom parent : option nat) : M (option nat) :=
  txt ← toString content;
  reuse ← match dom with
          | None => mret false
          | Some dom =>
              n ← getNode dom;
              if negb (String.eqb (n_nodeName n) "#text") then mret false
              else isCmpt ← isComponentDom dom; mret (negb isCmpt)
          end;
  match reuse, dom with
  | true, Some dom =>
      updNode dom (fun n =>
        if negb (String.eqb (n_nodeValue n) txt) then set_n_nodeValue txt n else n);;
      mret (Some dom)
  | _, _ =>
      newDom ← createTextNode txt;
      patchNode (Some newDom) dom parent;;
      mret (Some newDom)
  end.

Definition has_key (ps : option props) : bool :=
  match ps with Some p => bool_decide (is_Some (p_key p)) | None => false end.
Definition has_keyed (ps : option props) : bool :=
  match ps with Some p => p_keyed p | None => false end.

(** [patchProps], for the properties [key] and [keyed]: the new ones are
    set, the old ones absent from the new ones become [null]. *)
Definition patchProps (elt : nat) (newProps : option props) : M unit :=
  n ← getNode elt;
  let oldProps := default None (n_odProps n) in
  let key := match newProps ≫= p_key with
             | Some k => Some k
             | None => if has_key oldProps then None else n_key n
             end in
  let keyed := if has_keyed newProps then true
               else if has_keyed oldProps then false else n_keyed n in
  setNode elt (set_n_odProps (Some newProps) (set_n_keyed keyed (set_n_key key n))).

Definition getCmpt (cid : nat) : M cmptInfo := fun s =>
  match components s !! cid with
  | Some c => Ok c s
  | None => Exn typeError s
  end.

Definition setCmpt (cid : nat) (c : cmptInfo) : M unit :=
  modify (fun s => set_components (<[cid:=c]> (components s)) s).

Definition updCmpt (cid : nat) (f : cmptInfo -> cmptInfo) : M unit :=
  c ← getCmpt cid; setCmpt cid (f c).

(** [vchild.key] *)
Definition vdom_key (vchild : jsval) : M (option nat) :=
  match vchild with
  | VUndefined | VNull => throw typeError
  | VElement _ _ ps _ => mret (ps ≫= p_key)
  | VComponent cid => c ← getCmpt cid; mret (c_key c)
  | VNode nid => n ← getNode nid; mret (n_key n)
  | _ => mret None
  end.

(** The first loop of [reorderKeyedChildren]: [None] when a child has no
    key. *)
Fixpoint keyToChild_loop (children : list nat) (keyToChild : jsobj nat)
  : M (option (jsobj nat)) :=
  match children with
  | [] => mret (Some keyToChild)
  | child :: children' =>
      n ← getNode child;
      match n_key n with
      | None => mret None
      | Some key => keyToChild_loop children' (obj_set keyToChild key child)
      end
  end.

(** The second loop, from the entry [vchildren[i]] on, [child] being the
    live child it has reached. *)
Fixpoint reorder_loop (parent : nat) (keyToChild : jsobj nat)
    (vchildren : list jsval) (child : option nat) : M unit :=
  match vchildren with
  | [] => mret tt
  | vchild :: vchildren' =>
      vkey ← vdom_key vchild;
      match vkey with
      | None => mret tt
      | Some vkey =>
          let requiredChild := obj_get keyToChild vkey in
          match child with
          | Some c =>
              n ← getNode c;
              if bool_decide (n_key n = Some vkey) then
                child' ← nextSibling c;
                reorder_loop parent keyToChild vchildren' child'
              else
                match requiredChild with
                | Some requiredChild => insertBefore parent requiredChild c
                | None => d ← createElement "DIV"; insertBefore parent d c
                end;;
                reorder_loop parent keyToChild vchildren' child
          | None =>
              match requiredChild with
              | Some requiredChild => appendChild parent requiredChild
              | None => d ← createElement "DIV"; appendChild parent d
              end;;
              reorder_loop parent keyToChild vchildren' child
          end
      end
  end.

Definition reorderKeyedChildren (vchildren : list jsval) (parent : nat) : M unit :=
  pn ← getNode parent;
  match vchildren, n_childNodes pn with
  | [], _ | _, [] => mret tt
  | _, firstChild :: _ =>
      keyToChild ← keyToChild_loop (n_childNodes pn) [];
      match keyToChild with
      | None => mret tt
      | Some keyToChild => reorder_loop parent keyToChild vchildren (Some firstChild)
      end
  end.

(** ** Obs.ts *)

Section Library.

(** The library with its recursion left open: [self] performs the calls
    of [call]. *)
Variable self : call -> M jsval.

Definition Obs_of (x : jsval) (eq : option (jsval -> jsval -> bool)) : M nat :=
  let eq := default defaultEq eq in
  id ← gets nextID;
  modify (fun s => set_nextID (S id) s);;
  setObs id (mkObs x eq None None None None false None);;
  mret id.

Definition Obs_peek (obs : nat) : M jsval :=
  o ← getObs obs; mret (o_value o).

Definition Obs_isComputed (obs : nat) : M bool :=
  o ← getObs obs; mret (bool_decide (is_Some (o_fn o))).

Definition Obs_subscribe (obss : list nat) (a : action) : M nat :=
  id ← gets nextID;
  modify (fun s => set_nextID (S id) s);;
  forM_ obss (fun obsAnyI =>
    updObs obsAnyI (fun o =>
      set_o_dependents (Some (obj_set (default [] (o_dependents o)) id (Some id))) o));;
  setObs id (mkObs (VStr "{subscription}") defaultEq (Some (FnSubscription a))
               None None (Some 999999999%Z) false (Some obss));;
  mret id.

Definition breakDependencies (obs : nat) : M unit :=
  o ← getObs obs;
  match o_dependencies o with
  | None => mret tt
  | Some dependencies =>
      forM_ dependencies (fun '(id, obsDepcy) =>
        match obsDepcy with
        | None => mret tt
        | Some obsDepcy =>
            updObs obs (fun o =>
              set_o_dependencies
                (Some (obj_set (default [] (o_dependencies o)) id None)) o);;
            d ← getObs obsDepcy;
            match o_dependents d with
            | None => throw typeError
            | Some dependents =>
                setObs obsDepcy (set_o_dependents (Some (obj_set dependents obs None)) d)
            end
        end)
  end.

Definition Obs_dispose (obs : nat) : M unit :=
  updObs obs (set_o_value VNull);;
  breakDependencies obs;;
  updObs obs (set_o_dependents (Some []));;
  o ← getObs obs;
  match o_subscriptions o with
  | None => mret tt
  | Some subscriptions =>
      forM_ subscriptions (fun subscription =>
        d ← getObs subscription;
        match o_dependents d with
        | None => mret tt
        | Some subscriptionDependents =>
            setObs subscription
              (set_o_dependents (Some (obj_set subscriptionDependents obs None)) d)
        end);;
      updObs obs (set_o_subscriptions None)
  end.

Definition enqueueUpdate (obs : nat) : M unit :=
  o ← getObs obs;
  if o_isInUpdateQueue o then mret tt
  else
    trace (TEnqueueing obs (o_level o));;
    modify (fun s => set_updateQ (heap_enqueue (level_of s) (updateQ s) obs) s);;
    updObs obs (set_o_isInUpdateQueue true).

Definition dequeueUpdate : M (option nat) :=
  s ← get;
  match heap_dequeue (level_of s) (updateQ s) with
  | None => mret None
  | Some (obs, q) =>
      updObs obs (set_o_isInUpdateQueue false);;
      trace (TDequeueing obs);;
      modify (set_updateQ q);;
      mret (Some obs)
  end.

Definition Obs_startUpdate : M unit :=
  modify (fun s => set_updateDepth (S (updateDepth s)) s).

Definition Obs_endUpdate : M unit :=
  modify (fun s => set_updateDepth (pred (updateDepth s)) s);;
  updateDepth ← gets updateDepth;
  if Nat.eqb updateDepth 0 then self CProcessUpdateQueue ≫= fun _ => mret tt
  else mret tt.

Definition establishDependencies (obs : nat) : M unit :=
  o ← getObs obs;
  obsLevel ← foldM (fun (obsLevel : Z) '(id, obsDepcy) =>
      match obsDepcy with
      | None => mret obsLevel
      | Some obsDepcy =>
          updObs obsDepcy (fun d =>
            set_o_dependents
              (Some (obj_set (default [] (o_dependents d)) obs (Some obs))) d);;
          d ← getObs obsDepcy;
          let obsDepcyLevel := to_int32 (default 0%Z (o_level d)) in
          mret (if (obsLevel <=? obsDepcyLevel)%Z then (1 + obsDepcyLevel)%Z
                else obsLevel)
      end) 0%Z (default [] (o_dependencies o));
  updObs obs (set_o_level (Some obsLevel)).

Definition Obs_updateDependents (obs : nat) : M unit :=
  o ← getObs obs;
  match o_dependents o with
  | None => mret tt
  | Some dependents =>
      Obs_startUpdate;;
      forM_ dependents (fun '(id, depdtObs) =>
        match depdtObs with
        | None => mret tt
        | Some depdtObs => enqueueUpdate depdtObs
        end);;
      Obs_endUpdate
  end.

(** [readOrWriteObs(obs, eq, newX, argc)]: [newX] is [Some] when
    [argc] is 1. *)
Definition readOrWriteObs (obs : nat) (newX : option jsval) : M jsval :=
  o ← getObs obs;
  match newX with
  | Some newX =>
      match o_fn o with
      | Some _ => throw (VStr "Computed observables cannot be assigned to.")
      | None =>
          let oldX := o_value o in
          updObs obs (set_o_value newX);;
          if negb (o_eq o oldX newX) then Obs_updateDependents obs else mret tt
      end
  | None =>
      cd ← gets currentDependencies;
      match cd with
      | Some cd =>
          updObs cd (fun c =>
            set_o_dependencies
              (Some (obj_set (default [] (o_dependencies c)) obs (Some obs))) c)
      | None => mret tt
      end
  end;;
  o ← getObs obs; mret (o_value o).

Definition Obs_exceptionReporter (e : jsval) : M unit :=
  modify (fun s => set_reported (reported s ++ [e]) s).

(** *** Od.ts: vDOM nodes as patching functions *)

Definition as_node (v : jsval) : option nat :=
  match v with VNode nid => Some nid | _ => None end.

Definition of_node (dom : option nat) : jsval :=
  match dom with Some nid => VNode nid | None => VNull end.

(** [patchFromVdom(vchild, echild, parent)] from inside [patchChildren]. *)
Definition patchFromVdom_rec (vdom : jsval) (dom parent : option nat) : M (option nat) :=
  r ← self (CPatchFromVdom vdom (of_node dom) (of_node parent)); mret (as_node r).

Definition Od_element (tag : string) (ps : option props)
    (children : option (list jsval)) : M jsval :=
  ref ← gets nextElement;
  modify (fun s => set_nextElement (S ref) s);;
  mret (VElement ref (toUpperCase tag) ps children).

(** The loop of [patchChildren] that patches or adds the required
    children; it returns the live child it has reached. *)
Fixpoint patchChildren_loop (parent : nat) (vchildren : list jsval)
    (echild : option nat) : M (option nat) :=
  match vchildren with
  | [] => mret echild
  | vchild :: vchildren' =>
      patchedEChild ← patchFromVdom_rec vchild echild (Some parent);
      match patchedEChild with
      | None => throw typeError
      | Some patchedEChild =>
          echild' ← nextSibling patchedEChild;
          patchChildren_loop parent vchildren' echild'
      end
  end.

(** The live children from [echild] on. *)
Fixpoint siblings_from (echild : nat) (l : list nat) : list nat :=
  match l with
  | [] => []
  | y :: l' => if Nat.eqb echild y then l else siblings_from echild l'
  end.

(** [patchChildren] from [var echild = parent.firstChild] on: the children
    are patched position by position and the extraneous ones removed. *)
Definition patchChildren_positional (parent : nat) (vchildren : list jsval) : M unit :=
  echild ← firstChild parent;
  echild ← patchChildren_loop parent vchildren echild;
  match echild with
  | None => mret tt
  | Some echild =>
      pn ← getNode parent;
      forM_ (siblings_from echild (n_childNodes pn)) (fun echild =>
        patchNode None (Some echild) (Some parent))
  end.

Definition patchChildren (parent : nat) (vchildren : option (list jsval)) : M unit :=
  let vchildren := default [] vchildren in
  pn ← getNode parent;
  (if n_keyed pn then reorderKeyedChildren vchildren parent else mret tt);;
  patchChildren_positional parent vchildren.

(** The patching function [Od.element] returns. *)
Definition element_vdom (tag : string) (ps : option props)
    (vchildren : option (list jsval)) (dom parent : option nat) : M (option nat) :=
  reuse ← match dom with
          | None => mret false
          | Some dom =>
              n ← getNode dom;
              if negb (String.eqb (n_nodeName n) tag) then mret false
              else isCmpt ← isComponentDom dom; mret (negb isCmpt)
          end;
  newDom ← (if reuse : bool then
              match dom with Some dom => mret dom | None => createElement tag end
            else createElement tag);
  patchNode (Some newDom) dom parent;;
  patchProps newDom ps;;
  patchChildren newDom vchildren;;
  mret (Some newDom).

(** The patching function [Od.component] returns. *)
Definition component_vdom (cid : nat) (dom parent : option nat) : M (option nat) :=
  cmptInfo ← getCmpt cid;
  let cmptDom := c_dom cmptInfo in
  patchNode cmptDom dom parent;;
  mret cmptDom.

Definition patchFromVdom (vdom : jsval) (dom parent : option nat) : M (option nat) :=
  match vdom with
  | VElement _ tag ps vchildren => element_vdom tag ps vchildren dom parent
  | VComponent cid => component_vdom cid dom parent
  | _ => patchText vdom dom parent
  end.

(** *** Od.ts: components *)

Definition existingNamedComponent (name : option nat) : M (option nat) :=
  parent ← gets parentComponentInfo;
  match name, parent with
  | Some name, Some parent =>
      info ← getCmpt parent;
      mret (default None (obj_get (c_namedSubcomponents info) name))
  | _, _ => mret None
  end.

Definition Od_dispose (vdom : jsval) : M unit :=
  match vdom with
  | VComponent cid =>
      info ← getCmpt cid;
      if c_dispose info then self (CDisposeComponent cid) ≫= fun _ => mret tt
      else mret tt
  | _ => mret tt
  end.

(** [for (cmpt = cmpts.pop(); cmpt != null; cmpt = cmpts.pop())] *)
Definition disposeAnonymousSubcomponents (cid : nat) : M unit :=
  info ← getCmpt cid;
  forM_ (rev (c_anonymousSubcomponents info)) (fun cmpt =>
    updCmpt cid (fun info =>
      set_c_anonymousSubcomponents
        (take (length (c_anonymousSubcomponents info) - 1)
           (c_anonymousSubcomponents info)) info);;
    Od_dispose (VComponent cmpt)).

Definition disposeNamedSubcomponents (cid : nat) : M unit :=
  info ← getCmpt cid;
  forM_ (c_namedSubcomponents info) (fun '(name, cmpt) =>
    match cmpt with
    | Some cmpt => Od_dispose (VComponent cmpt)
    | None => mret tt
    end;;
    updCmpt cid (fun info =>
      set_c_namedSubcomponents (obj_set (c_namedSubcomponents info) name None) info)).

(** [Obs.dispose(x)] where [x] may be [null]. *)
Definition Obs_dispose_ref (obs : option nat) : M unit :=
  match obs with
  | None => throw typeError
  | Some obs => Obs_dispose obs
  end.

Definition disposeComponent (cid : nat) : M unit :=
  disposeAnonymousSubcomponents cid;;
  disposeNamedSubcomponents cid;;
  info ← getCmpt cid;
  Obs_dispose_ref (c_subs info);;
  Obs_dispose_ref (c_obs info);;
  info ← getCmpt cid;
  clearDomComponentID (c_dom info).

Definition updateComponent (cid : nat) : M unit :=
  oldParentComponentInfo ← gets parentComponentInfo;
  modify (set_parentComponentInfo (Some cid));;
  cmptInfo ← getCmpt cid;
  let dom := c_dom cmptInfo in
  parent ← match dom with
           | None => mret None
           | Some dom => n ← getNode dom; mret (n_parentNode n)
           end;
  clearDomComponentID dom;;
  v ← match c_obs cmptInfo with
      | None => throw typeError
      | Some obs => readOrWriteObs obs None
      end;
  newDom ← patchFromVdom v dom parent;
  setDomComponentID newDom cid;;
  updCmpt cid (fun info => set_c_updateIsPending false (set_c_dom newDom info));;
  modify (set_parentComponentInfo oldParentComponentInfo).

Definition deferComponentUpdate (cid : nat) : M unit :=
  cmptInfo ← getCmpt cid;
  if c_updateIsPending cmptInfo then mret tt
  else
    updCmpt cid (set_c_updateIsPending true);;
    modify (fun s =>
      set_componentInfosPendingUpdate (componentInfosPendingUpdate s ++ [cid]) s);;
    modify (fun s =>
      if Nat.eqb (deferredComponentUpdatesID s) 0
      then set_deferredComponentUpdatesID 1 s else s).

(** What the browser runs on the next animation frame. *)
Definition updateDeferredComponents : M unit :=
  cmptInfos ← gets componentInfosPendingUpdate;
  forM_ (rev cmptInfos) (fun cmptInfo =>
    modify (fun s =>
      set_componentInfosPendingUpdate
        (take (length (componentInfosPendingUpdate s) - 1)
           (componentInfosPendingUpdate s)) s);;
    updateComponent cmptInfo);;
  modify (set_deferredComponentUpdatesID 0).

(** *** Obs.ts: re-evaluation *)

(** [f()] for the [f] given to [Obs.fn]. *)
Definition call_body (f : body) : M jsval :=
  match f with
  | BProg f => self (CRun f)
  | BComponent cid f =>
      oldParentComponentInfo ← gets parentComponentInfo;
      modify (set_parentComponentInfo (Some cid));;
      disposeAnonymousSubcomponents cid;;
      vdom ← self (CRun f);
      modify (set_parentComponentInfo oldParentComponentInfo);;
      mret vdom
  end.

Definition updateComputedObs (obs : nat) (f : body) : M bool :=
  o ← getObs obs;
  let oldX := o_value o in
  newX ← call_body f;
  updObs obs (set_o_value newX);;
  mret (negb (o_eq o oldX newX)).

Definition call_action (a : action) : M unit :=
  match a with
  | AProg a => self (CRun a) ≫= fun _ => mret tt
  | AComponentUpdate cid =>
      defer ← gets deferComponentUpdates;
      if defer : bool then deferComponentUpdate cid else updateComponent cid
  end.

Definition subsAction (a : action) : M bool :=
  tmp ← gets currentDependencies;
  modify (set_currentDependencies None);;
  call_action a;;
  modify (set_currentDependencies tmp);;
  mret false.

(** [obs.fn()] *)
Definition call_fn (obs : nat) : M bool :=
  o ← getObs obs;
  match o_fn o with
  | None => throw typeError
  | Some (FnComputed f) => updateComputedObs obs f
  | Some (FnSubscription a) => subsAction a
  end.

Definition tryReevaluateObsFn (obs : nat) : M bool :=
  try_catch (call_fn obs) (fun e => Obs_exceptionReporter e;; mret false).

Definition reevaluateComputedObs (obs : nat) : M unit :=
  trace (TReevaluating obs);;
  oldCurrentDependencies ← gets currentDependencies;
  o ← getObs obs;
  modify (set_currentDependencies
            (match o_dependencies o with Some _ => Some obs | None => None end));;
  breakDependencies obs;;
  hasChanged ← tryReevaluateObsFn obs;
  establishDependencies obs;;
  modify (set_currentDependencies oldCurrentDependencies);;
  if hasChanged : bool then Obs_updateDependents obs else mret tt.

Definition processUpdateQueue : M unit :=
  obs ← dequeueUpdate;
  match obs with
  | None => mret tt
  | Some obs =>
      reevaluateComputedObs obs;;
      self CProcessUpdateQueue ≫= fun _ => mret tt
  end.

Definition Obs_fn (f : body) (eq : jsval -> jsval -> bool) : M nat :=
  id ← gets nextID;
  modify (fun s => set_nextID (S id) s);;
  setObs id (mkObs VUndefined eq (Some (FnComputed f)) (Some []) None None false None);;
  reevaluateComputedObs id;;
  mret id.

Definition Od_component (name : option nat) (fn : prog) : M jsval :=
  existingCmpt ← existingNamedComponent name;
  match existingCmpt with
  | Some existingCmpt => mret (VComponent existingCmpt)
  | None =>
      cmptID ← gets nextComponentID;
      modify (fun s => set_nextComponentID (S cmptID) s);;
      setCmpt cmptID (mkCmptInfo None None None [] [] false None false);;
      parent ← gets parentComponentInfo;
      match parent with
      | None => mret tt
      | Some parent =>
          updCmpt parent (fun info =>
            match name with
            | None =>
                set_c_anonymousSubcomponents
                  (c_anonymousSubcomponents info ++ [cmptID]) info
            | Some name =>
                set_c_namedSubcomponents
                  (obj_set (c_namedSubcomponents info) name (Some cmptID)) info
            end)
      end;;
      obs ← Obs_fn (BComponent cmptID fn) defaultEq;
      v ← Obs_peek obs;
      dom ← patchFromVdom v None None;
      setDomComponentID dom cmptID;;
      subs ← Obs_subscribe [obs] (AComponentUpdate cmptID);
      key ← match dom with
            | None => throw typeError
            | Some dom => n ← getNode dom; mret (n_key n)
            end;
      updCmpt cmptID (fun info =>
        set_c_key key (set_c_subs (Some subs) (set_c_obs (Some obs)
          (set_c_dom dom (set_c_dispose true info)))));;
      mret (VComponent cmptID)
  end.

(** One step of a body. *)
Definition run (p : prog) : M jsval :=
  match p with
  | Ret v => mret v
  | Throw e => throw e
  | Read x k => v ← readOrWriteObs x None; self (CRun (k v))
  | Peek x k => v ← Obs_peek x; self (CRun (k v))
  | Write x newX k => v ← readOrWriteObs x (Some newX); self (CRun (k v))
  | Element tag ps children k => v ← Od_element tag ps children; self (CRun (k v))
  | Component name f k => v ← Od_component name f; self (CRun (k v))
  end.

Definition step (c : call) : M jsval :=
  match c with
  | CRun p => run p
  | CProcessUpdateQueue => processUpdateQueue ≫= fun _ => mret VUndefined
  | CPatchFromVdom vdom dom parent =>
      r ← patchFromVdom vdom (as_node dom) (as_node parent); mret (of_node r)
  | CDisposeComponent cid => disposeComponent cid ≫= fun _ => mret VUndefined
  end.

End Library.

(** The recursion closed: [fuel] bounds the depth of the calls of [call]. *)
Fixpoint exec (fuel : nat) (c : call) : M jsval :=
  match fuel with
  | O => fun _ => OutOfFuel
  | S fuel' => step (exec fuel') c
  end.

(** The library's entry points. *)
Module Obs.
Definition of_ := Obs_of.   (* [Obs.of]; [of] is reserved *)
Definition fn (fuel : nat) (f : prog) (eq : jsval -> jsval -> bool) : M nat :=
  Obs_fn (exec fuel) (BProg f) eq.
Definition subscribe (obss : list nat) (a : prog) : M nat :=
  Obs_subscribe obss (AProg a).
Definition dispose := Obs_dispose.
Definition startUpdate := Obs_startUpdate.
Definition endUpdate (fuel : nat) : M unit := Obs_endUpdate (exec fuel).
Definition updateDependents (fuel : nat) (obs : nat) : M unit :=
  Obs_updateDependents (exec fuel) obs.
Definition write (fuel : nat) (obs : nat) (newX : jsval) : M jsval :=
  readOrWriteObs (exec fuel) obs (Some newX).
End Obs.

Module Od.
Definition element := Od_element.
Definition component (fuel : nat) (name : option nat) (fn : prog) : M jsval :=
  Od_component (exec fuel) name fn.
Definition dispose (fuel : nat) (vdom : jsval) : M unit := Od_dispose (exec fuel) vdom.
Definition bind (fuel : nat) (vdom : jsval) (dom : option nat) : M (option nat) :=
  domParent ← match dom with
              | None => mret None
              | Some dom => n ← getNode dom; mret (n_parentNode n)
              end;
  patchFromVdom (exec fuel) vdom dom domParent.
Definition appendChild (fuel : nat) (vdom : jsval) (parent : nat) : M (option nat) :=
  patchFromVdom (exec fuel) vdom None (Some parent).
End Od.

(** ** Vocabulary of the properties *)

Global Instance event_eq_dec : EqDecision event.
Proof. solve_decision. Defined.

(** [m], started in [s], completes normally, with a result and a final state
    that satisfy [P]. *)
Definition returns {A} (m : M A) (s : state) (P : A -> state -> Prop) : Prop :=
  match m s with
  | Ok a s' => P a s'
  | _ => False
  end.

(** How many times the body (or action) of [id] has been run. *)
Definition evals_of (id : nat) (s : state) : nat :=
  length (filter (fun e => e = TReevaluating id) (traced s)).

(** [obs.value], as [Obs.peek] returns it. *)
Definition value_of (id : nat) (s : state) : option jsval :=
  o_value <$> observables s !! id.

(** [obs.dependents[id]] and [obs.dependencies[id]] hold an observable. *)
Definition obj_live (o : option (jsobj (option nat))) (id : nat) : bool :=
  match o with
  | Some d => match obj_get d id with Some (Some _) => true | _ => false end
  | None => false
  end.
Definition dependent_live (obs id : nat) (s : state) : bool :=
  match observables s !! obs with
  | Some o => obj_live (o_dependents o) id
  | None => false
  end.
Definition dependency_live (obs id : nat) (s : state) : bool :=
  match observables s !! obs with
  | Some o => obj_live (o_dependencies o) id
  | None => false
  end.



(** Ascending levels. *)
Definition ascending (s : state) (l : list nat) : Prop :=
  forall i j x y, i <= j -> l !! i = Some x -> l !! j = Some y ->
    js_le (level_of s x) (level_of s y) = true.

(** A mutable observable, as [Obs.of] makes them. *)
Definition is_mutable (o : obs) : Prop :=
  o_fn o = None /\ o_dependencies o = None /\ o_subscriptions o = None.

(** ** The graphs of the properties *)

Section Graphs.

Variables (f g h : jsval -> jsval) (g2 : jsval -> jsval -> jsval).
Variables (eqX eqY eqU eqV eqW : jsval -> jsval -> bool).
Variables (x0 y0 : jsval).

(** [() => f(x())] *)
Definition body1 (f : jsval -> jsval) (x : nat) : prog :=
  Read x (fun vx => Ret (f vx)).

(** [() => g2(x(), u())] *)
Definition body2 (x u : nat) : prog :=
  Read x (fun vx => Read u (fun vu => Ret (g2 vx vu))).

(** [X = Obs.of(x0); U = Obs.fn(() => f(X())); V = Obs.fn(() => g2(X(), U()))] *)
Definition diamond (fuel : nat) : M (nat * nat * nat) :=
  x ← Obs.of_ x0 (Some eqX);
  u ← Obs.fn fuel (body1 f x) eqU;
  v ← Obs.fn fuel (body2 x u) eqV;
  mret (x, u, v).

(** [X = Obs.of(x0); Y = Obs.of(y0); U = Obs.fn(() => g2(X(), Y()))] *)
Definition two_sources (fuel : nat) : M (nat * nat * nat) :=
  x ← Obs.of_ x0 (Some eqX);
  y ← Obs.of_ y0 (Some eqY);
  u ← Obs.fn fuel (body2 x y) eqU;
  mret (x, y, u).

(** [X = Obs.of(x0); U = Obs.fn(() => f(X())); V = Obs.fn(() => g(U()));
    W = Obs.fn(() => h(V()))] *)
Definition chain (fuel : nat) : M (nat * nat * nat * nat) :=
  x ← Obs.of_ x0 (Some eqX);
  u ← Obs.fn fuel (body1 f x) eqU;
  v ← Obs.fn fuel (body1 g u) eqV;
  w ← Obs.fn fuel (body1 h v) eqW;
  mret (x, u, v, w).

End Graphs.

Section FailingGraph.

Variables (f g h : jsval -> jsval) (fails : jsval -> bool) (e : jsval).
Variables (eqX eqU eqV eqW : jsval -> jsval -> bool).
Variables (x0 : jsval).

(** [() => { var x = X(); if (fails(x)) throw e; return f(x); }] *)
Definition failing_body (x : nat) : prog :=
  Read x (fun vx => if fails vx then Throw e else Ret (f vx)).

(** [X = Obs.of(x0); U = Obs.fn(failing_body); W = Obs.fn(() => h(U()));
    V = Obs.fn(() => g(X()))] *)
Definition failing_graph (fuel : nat) : M (nat * nat * nat * nat) :=
  x ← Obs.of_ x0 (Some eqX);
  u ← Obs.fn fuel (failing_body x) eqU;
  w ← Obs.fn fuel (body1 h u) eqW;
  v ← Obs.fn fuel (body1 g x) eqV;
  mret (x, u, w, v).

End FailingGraph.

(** [m] done [k] times. *)
Fixpoint repeatM (k : nat) (m : M unit) : M unit :=
  match k with
  | O => mret tt
  | S k' => m ;; repeatM k' m
  end.

(** ** Concrete states *)

Definition num1 (k : Z -> Z) (v : jsval) : jsval :=
  match v with VNum n => VNum (k n) | _ => VUndefined end.
Definition num2 (k : Z -> Z -> Z) (v w : jsval) : jsval :=
  match v, w with VNum n, VNum m => VNum (k n m) | _, _ => VUndefined end.

Definition final_state {A} (r : outcome A) : state :=
  match r with
  | Ok _ s | Exn _ s => s
  | OutOfFuel => initial
  end.

(** [X = Obs.of(1); U = Obs.fn(() => X() + 1); V = Obs.fn(() => X() * U())] *)
Definition diamond_state : state :=
  final_state (diamond (num1 Z.succ) (num2 Z.mul) defaultEq defaultEq defaultEq
                 (VNum 1) 10 initial).





(** ** Vocabulary of keyed reconciliation *)





(** [p.childNodes], empty when [p] is no node. *)
Definition children_of (s : state) (p : nat) : list nat :=
  match nodes s !! p with Some pn => n_childNodes pn | None => [] end.





(** ** Vocabulary of re-evaluation *)

(** What [reevaluateComputedObs] does before it calls the body. *)
Definition before_body (obs : nat) : M unit :=
  trace (TReevaluating obs);;
  o ← getObs obs;
  modify (set_currentDependencies
            (match o_dependencies o with Some _ => Some obs | None => None end));;
  breakDependencies obs.

(** Every dependency recorded for [obs] is an observable. *)
Definition dependencies_exist (obs : nat) (s : state) : Prop :=
  exists o, observables s !! obs = Some o /\
    forall id d, (id, Some d) ∈ default [] (o_dependencies o) ->
      is_Some (observables s !! d).

(** [s'] has the values, the update queue, the reports and the trace of [s]. *)
Definition same_values (s s' : state) : Prop :=
  updateQ s' = updateQ s /\ reported s' = reported s /\ traced s' = traced s
  /\ forall id, value_of id s' = value_of id s.

(** [v === 5] *)
Definition throws_on_5 (v : jsval) : bool :=
  match v with VNum 5 => true | _ => false end.

(** The failing graph with [X = 1], a body of [U] that throws on 5, and the
    write [X(5)] made inside [Obs.startUpdate()]: [U] and [V] are queued. *)
Definition failing_state : state :=
  final_state
    ((g ← failing_graph (num1 Z.succ) (num1 Z.succ) (num1 Z.succ) throws_on_5
           (VStr "boom") defaultEq defaultEq defaultEq defaultEq (VNum 1) 10;
      Obs.startUpdate;;
      Obs.write 10 (g.1.1.1) (VNum 5)) initial).

(** ** A parent component with a named and an anonymous child *)

Section ComponentGraph.

Variables (name : nat) (eqX : jsval -> jsval -> bool) (x0 : jsval).

Definition named_child : prog := Ret (VStr "named").
Definition anonymous_child : prog := Ret (VStr "anonymous").

(** [() => { X(); var foo = Od.component(name, named_child);
             var anon = Od.component(null, anonymous_child);
             return Od.element("DIV", null, [foo, anon]); }] *)
Definition parent_body (x : nat) : prog :=
  Read x (fun _ =>
  Component (Some name) named_child (fun foo =>
  Component None anonymous_child (fun anon =>
  Element "DIV" None (Some [foo; anon]) Ret))).

(** [X = Obs.of(x0, eqX); P = Od.component(null, parent_body)] *)
Definition component_graph (fuel : nat) : M (nat * jsval) :=
  x ← Obs.of_ x0 (Some eqX);
  p ← Od.component fuel None (parent_body x);
  mret (x, p).

End ComponentGraph.

(** [cmptInfo.obs] of a component. *)
Definition cmpt_obs (v : jsval) (s : state) : option nat :=
  match v with
  | VComponent cid => match components s !! cid with Some c => c_obs c | None => None end
  | _ => None
  end.

(** The vdom that the last evaluation of the component's body returned. *)
Definition cmpt_vdom (v : jsval) (s : state) : option jsval :=
  match cmpt_obs v s with Some o => value_of o s | None => None end.

(** The children of that vdom. *)
Definition subcomponents (v : jsval) (s : state) : list jsval :=
  match cmpt_vdom v s with
  | Some (VElement _ _ _ (Some l)) => l
  | _ => []
  end.

(** [v] is a component of [s]. *)
Definition is_component (v : jsval) (s : state) : bool :=
  match v with
  | VComponent cid => match components s !! cid with Some _ => true | None => false end
  | _ => false
  end.

(** How many times the component's body has been run. *)
Definition cmpt_evals (v : jsval) (s : state) : nat :=
  match cmpt_obs v s with Some o => evals_of o s | None => 0 end.

(** [Obs.dispose] has been applied to the component's observable. *)
Definition cmpt_disposed (v : jsval) (s : state) : Prop :=
  cmpt_vdom v s = Some VNull.

(** ** Writes, and the order of a flush *)

(** What a write to a computed observable throws. *)
Definition cannotAssign : jsval := VStr "Computed observables cannot be assigned to.".

(** The claim C4 as the specification states it: a write of a value the
    equality predicate holds equal to the current one schedules nothing and
    leaves the stored value what it was. *)
Definition equal_write_is_noop : Prop :=
  forall (fuel : nat) (s : state) x o newX,
    observables s !! x = Some o -> is_mutable o ->
    o_eq o (o_value o) newX = true ->
    exists r s', Obs.write fuel x newX s = Ok r s'
      /\ updateQ s' = updateQ s
      /\ value_of x s' = value_of x s.

(** The state [Obs.of(0, Obs.valueOfEq)] leaves. *)
Definition zero_cell : state :=
  match Obs.of_ (VNum 0) (Some valueOfEq) initial with
  | Ok _ s => s
  | _ => initial
  end.





(* ================================================================== *)
(** * More of the code: subscriptions, patching, the router *)
(* ================================================================== *)

(** ** Graphs with peeks, subscriptions and branches *)

(** [X = Obs.of(x0, eqX); U = Obs.fn(() => f(Obs.peek(X)), eqU)] *)
Definition peeking (f : jsval -> jsval) (eqX eqU : jsval -> jsval -> bool)
    (x0 : jsval) (fuel : nat) : M (nat * nat) :=
  x ← Obs.of_ x0 (Some eqX);
  u ← Obs.fn fuel (Peek x (fun vx => Ret (f vx))) eqU;
  mret (x, u).

(** [X = Obs.of(x0, eqX); Y = Obs.of(y0, eqY); L = Obs.of(l0, eqL);
    W = Obs.subscribe([X], () => { L(Y()); })] *)
Definition subscribed (eqX eqY eqL : jsval -> jsval -> bool) (x0 y0 l0 : jsval)
  : M (nat * nat * nat * nat) :=
  x ← Obs.of_ x0 (Some eqX);
  y ← Obs.of_ y0 (Some eqY);
  l ← Obs.of_ l0 (Some eqL);
  w ← Obs.subscribe [x] (Read y (fun vy => Write l vy Ret));
  mret (x, y, l, w).

(** [X = Obs.of(x0, eqX); U = Obs.fn(() => f(X()), eqU); L = Obs.of(l0, eqL);
    W = Obs.subscribe([X], () => { L(Obs.peek(U)); })] *)
Definition watched (f : jsval -> jsval) (eqX eqU eqL : jsval -> jsval -> bool)
    (x0 l0 : jsval) (fuel : nat) : M (nat * nat * nat * nat) :=
  x ← Obs.of_ x0 (Some eqX);
  u ← Obs.fn fuel (body1 f x) eqU;
  l ← Obs.of_ l0 (Some eqL);
  w ← Obs.subscribe [x] (Peek u (fun vu => Write l vu Ret));
  mret (x, u, l, w).

(** [S = Obs.of(true); A = Obs.of(a0, eqA); B = Obs.of(b0, eqB);
    U = Obs.fn(() => S() ? A() : B(), eqU)] *)
Definition branching (eqA eqB eqU : jsval -> jsval -> bool) (a0 b0 : jsval)
    (fuel : nat) : M (nat * nat * nat * nat) :=
  s ← Obs.of_ (VBool true) None;
  a ← Obs.of_ a0 (Some eqA);
  b ← Obs.of_ b0 (Some eqB);
  u ← Obs.fn fuel (Read s (fun vs => if truthy vs then Read a Ret else Read b Ret)) eqU;
  mret (s, a, b, u).

(** [X = Obs.of(x0, eqX); U = Obs.fn(failing_body, eqU)] *)
Definition failing_at_creation (f : jsval -> jsval) (fails : jsval -> bool) (e : jsval)
    (eqX eqU : jsval -> jsval -> bool) (x0 : jsval) (fuel : nat) : M (nat * nat) :=
  x ← Obs.of_ x0 (Some eqX);
  u ← Obs.fn fuel (failing_body f fails e x) eqU;
  mret (x, u).

(** ** A component whose body reads an observable *)

(** [T = Obs.of(t0, eqT);
    P = Od.component(null, () => Od.element("DIV", null, [T()]))] *)
Definition text_component (eqT : jsval -> jsval -> bool) (t0 : jsval) (fuel : nat)
  : M (nat * jsval) :=
  t ← Obs.of_ t0 (Some eqT);
  p ← Od.component fuel None (Read t (fun v => Element "DIV" None (Some [v]) Ret));
  mret (t, p).

(** [cmptInfo.dom] of a component. *)
Definition cmpt_dom (v : jsval) (s : state) : option nat :=
  match v with
  | VComponent cid => match components s !! cid with Some c => c_dom c | None => None end
  | _ => None
  end.

(** The (name, value) pairs of the children of a node. *)
Definition child_texts (dom : option nat) (s : state) : list (nat * string * string) :=
  match dom with
  | Some d =>
      match nodes s !! d with
      | Some n =>
          omap (fun c => (fun cn => (c, n_nodeName cn, n_nodeValue cn)) <$> nodes s !! c)
            (n_childNodes n)
      | None => []
      end
  | None => []
  end.

(** [cmptInfo.namedSubcomponents[name]] of a component. *)
Definition named_subcomponent (v : jsval) (name : nat) (s : state)
  : option (option nat) :=
  match v with
  | VComponent cid =>
      match components s !! cid with
      | Some c => obj_get (c_namedSubcomponents c) name
      | None => None
      end
  | _ => None
  end.

(** [A = Od.component(name, f); B = Od.component(name, f)], outside every
    component. *)
Definition declared_twice (name : option nat) (f : prog) (fuel : nat)
  : M (jsval * jsval) :=
  a ← Od.component fuel name f;
  b ← Od.component fuel name f;
  mret (a, b).

(** ** Od.flattenVdoms *)

(** What [Od.element] may be given as children: a vdom, or an array whose
    entries are vdoms or such arrays again. *)
#[warnings="-register-all"]
Inductive vdoms : Type :=
| VOne (v : jsval)
| VArray (xs : list vdoms).

Definition is_array (x : vdoms) : bool :=
  match x with VArray _ => true | VOne _ => false end.

(** [flattenNestedVdoms(xs, zs)], for one entry [x] of [xs] and for [xs]. *)
Fixpoint flattenNested1 (x : vdoms) (zs : list vdoms) : list vdoms :=
  match x with
  | VArray xs => fold_left (fun zs x => flattenNested1 x zs) xs zs
  | VOne _ => zs ++ [x]
  end.

Definition flattenNestedVdoms (xs : list vdoms) (zs : list vdoms) : list vdoms :=
  fold_left (fun zs x => flattenNested1 x zs) xs zs.

(** [Od.flattenVdoms(xs)]; [None] is [null]. *)
Definition flattenVdoms (xs : vdoms) : option (list vdoms) :=
  match xs with
  | VOne VNull | VOne VUndefined => None
  | VOne _ => Some [xs]
  | VArray ys =>
      if existsb is_array ys then Some (flattenNestedVdoms ys []) else Some ys
  end.

(** The vdoms of [x], from left to right. *)
Fixpoint leaves (x : vdoms) : list jsval :=
  match x with
  | VOne v => [v]
  | VArray xs => flat_map leaves xs
  end.

(** ** Od.ts: the [attrs] property *)

Section AttrProps.

(** The property names that every object inherits, for which [attr in obj]
    holds whatever the object. *)
Variable inherited : string -> bool.

(** [attr in obj] *)
Definition in_obj (obj : gmap string string) (attr : string) : bool :=
  bool_decide (is_Some (obj !! attr)) || inherited attr.

(** [patchAttrProps(elt, oldAttrProps, newAttrProps)], on the attributes of
    [elt]; [None] is a missing [attrs] property. *)
Definition patchAttrProps (elt : gmap string string)
    (oldAttrProps newAttrProps : option (gmap string string)) : gmap string string :=
  let elt :=
    match newAttrProps with
    | Some new => map_fold (fun attr value elt => <[attr := value]> elt) elt new
    | None => elt
    end in
  match oldAttrProps with
  | Some old =>
      map_fold (fun attr _ elt =>
        if match newAttrProps with Some new => in_obj new attr | None => false end
        then elt else delete attr elt) elt old
  | None => elt
  end.

End AttrProps.

(** ** Vocabulary of keyed reordering *)









(** ** Vocabulary of positional patching *)

(** The children of [p] are the text nodes [l], none of them the root of a
    component; node identifiers from [nextNode] on are unused. *)
Definition text_children (s : state) (p : nat) (l : list nat) : Prop :=
  (exists pn, nodes s !! p = Some pn /\ n_childNodes pn = l)
  /\ (p ∉ l)
  /\ NoDup l
  /\ (forall c, c ∈ l ->
        exists cn, nodes s !! c = Some cn /\ n_nodeName cn = "#text"
          /\ n_componentID cn = 0 /\ n_parentNode cn = Some p)
  /\ (forall i, nextNode s <= i -> nodes s !! i = None).

(** [dom.nodeValue] *)
Definition node_value (s : state) (c : nat) : option string :=
  n_nodeValue <$> (nodes s !! c).

(** A [P] with three texts, and the document after [Od.bind] of it. *)
Definition three_texts : jsval :=
  VElement 1 "P" None (Some [VStr "a"; VStr "b"; VStr "c"]).

Definition three_texts_dom : state :=
  final_state (Od.bind 10 three_texts None initial).

(** ** Jigsaw: the location-hash router *)

Module Jigsaw.

(** The character of a one-character string literal. *)
Definition chr (s : string) : Ascii.ascii :=
  match s with String c _ => c | EmptyString => Ascii.zero end.

(** [s.split(c)] for a separator of one character. *)
Fixpoint split_on (c : Ascii.ascii) (s : string) : list string :=
  match s with
  | EmptyString => [EmptyString]
  | String a s' =>
      if Ascii.eqb a c then EmptyString :: split_on c s'
      else match split_on c s' with
           | w :: ws => String a w :: ws
           | [] => [String a EmptyString]
           end
  end.

(** [ws.join(c)] *)
Fixpoint join (c : Ascii.ascii) (ws : list string) : string :=
  match ws with
  | [] => EmptyString
  | [w] => w
  | w :: ws' => w +:+ String c (join c ws')
  end.

(** [s.lastIndexOf(c)]; [None] is -1. *)
Fixpoint lastIndexOf (c : Ascii.ascii) (s : string) : option nat :=
  match s with
  | EmptyString => None
  | String a s' =>
      match lastIndexOf c s' with
      | Some i => Some (S i)
      | None => if Ascii.eqb a c then Some 0 else None
      end
  end.

(** [s.substr(i)] and [s.substr(0, i)] *)
Fixpoint substr_from (i : nat) (s : string) : string :=
  match i, s with
  | O, _ => s
  | S i', String _ s' => substr_from i' s'
  | S _, EmptyString => EmptyString
  end.

Fixpoint substr_to (i : nat) (s : string) : string :=
  match i, s with
  | O, _ => EmptyString
  | S i', String a s' => String a (substr_to i' s')
  | S _, EmptyString => EmptyString
  end.

(** The value of an argument: a part of the hash, [undefined] for an
    optional parameter that is missing, the remaining parts for a [*]
    parameter. *)
Inductive arg : Type :=
| AStr (s : string)
| AUndefined
| AParts (l : list string).

(** The dictionary handed to the handler. *)
Definition args := gmap string arg.

(** A matcher is given the parts, an index and the arguments so far; [None]
    is the [false] or [null] of a failed match. *)
Definition matcher := list string -> nat -> args -> option args.

Definition matchEnd : matcher := fun parts i args =>
  match parts !! i with
  | None => Some args
  | Some _ => None
  end.

Definition matchExact (word : string) (cont : matcher) : matcher := fun parts i args =>
  match parts !! i with
  | Some p => if String.eqb p word then cont parts (i + 1) args else None
  | None => None
  end.

Definition matchParam (param : string) (cont : matcher) : matcher := fun parts i args =>
  match parts !! i with
  | None => None
  | Some a => cont parts (i + 1) (<[param := AStr a]> args)
  end.

Definition matchOptParam (param : string) (cont : matcher) : matcher := fun parts i args =>
  let a := match parts !! i with Some a => AStr a | None => AUndefined end in
  cont parts (i + 1) (<[param := a]> args).

Definition matchRest (param : string) (cont : matcher) : matcher := fun parts i args =>
  cont parts (length parts) (<[param := AParts (drop i parts)]> args).

(** The [switch (param[0])] of [routeMatcher]. *)
Definition matchPart (param : string) (cont : matcher) : matcher :=
  match param with
  | String c _ =>
      if Ascii.eqb c (chr ":") then matchParam param cont
      else if Ascii.eqb c (chr "?") then matchOptParam param cont
      else if Ascii.eqb c (chr "*") then matchRest param cont
      else matchExact param cont
  | EmptyString => matchExact param cont
  end.

Definition routeMatcher (route : string) : matcher :=
  if String.eqb route "" then matchEnd
  else foldr matchPart matchEnd (split_on (chr "/") route).

Record compiledRoute := mkRoute { route : string; handler : nat }.

Record router := mkRouter {
  compiledRoutes : list compiledRoute;
  defaultRouteHandler : option nat
}.

Definition addRoute (r : string) (h : nat) (j : router) : router :=
  mkRouter (compiledRoutes j ++ [mkRoute r h]) (defaultRouteHandler j).

Definition removeRoute (r : string) (j : router) : router :=
  mkRouter (filter (fun x => String.eqb (route x) r = true) (compiledRoutes j))
    (defaultRouteHandler j).

Definition clearRoutes (j : router) : router :=
  mkRouter [] (defaultRouteHandler j).

(** What [takeRoute] calls. *)
Inductive taken : Type :=
| Handled (h : nat) (a : args)        (* compiledRoute.handler(args) *)
| Defaulted (h : nat) (hash : string) (* Jigsaw.defaultRouteHandler(hash) *)
| NotTaken.

Section TakeRoute.

(** [decodeURIComponent]; [None] is the [URIError] it throws on a malformed
    escape sequence. *)
Variable decodeURIComponent : string -> option string.

(** The [for] loop over [compiledRoutes]; [None] when no route matches. *)
Fixpoint takeRoute_loop (hash query : string) (parts : list string)
    (rs : list compiledRoute) : option taken :=
  match rs with
  | [] => None
  | r :: rs' =>
      match routeMatcher (route r) parts 0 ∅ with
      | Some a => Some (Handled (handler r) (<["?" := AStr query]> (<["#" := AStr hash]> a)))
      | None => takeRoute_loop hash query parts rs'
      end
  end.

(** [Jigsaw.takeRoute(hash)]; [None] is the [URIError] of
    [decodeURIComponent]. *)
Definition takeRoute (hash : string) (j : router) : option taken :=
  let '(hash, query) :=
    match lastIndexOf (chr "?") hash with
    | Some queryIdx => (substr_to queryIdx hash, substr_from (queryIdx + 1) hash)
    | None => (hash, EmptyString)
    end in
  parts ← (if String.eqb hash "" then Some []
           else mapM decodeURIComponent (split_on (chr "/") hash));
  match takeRoute_loop hash query parts (compiledRoutes j) with
  | Some t => Some t
  | None =>
      match defaultRouteHandler j with
      | Some h => Some (Defaulted h hash)
      | None => Some NotTaken
      end
  end.

End TakeRoute.

(** [s.indexOf(c)]; [None] is -1. *)
Fixpoint indexOf (c : Ascii.ascii) (s : string) : option nat :=
  match s with
  | EmptyString => None
  | String a s' =>
      if Ascii.eqb a c then Some 0
      else match indexOf c s' with Some i => Some (S i) | None => None end
  end.

(** [s.replace(/\+/g, " ")] *)
Fixpoint replace_plus (s : string) : string :=
  match s with
  | EmptyString => EmptyString
  | String a s' =>
      String (if Ascii.eqb a (chr "+") then chr " " else a) (replace_plus s')
  end.

(** [s.split(/[&;]/)] *)
Fixpoint split_pairs (s : string) : list string :=
  match s with
  | EmptyString => [EmptyString]
  | String a s' =>
      if Ascii.eqb a (chr "&") || Ascii.eqb a (chr ";")
      then EmptyString :: split_pairs s'
      else match split_pairs s' with
           | w :: ws => String a w :: ws
           | [] => [String a EmptyString]
           end
  end.

Section ParseQuery.

(** [decodeURIComponent]; [None] is the [URIError] it throws. *)
Variable decodeURIComponent : string -> option string.

(** The body of [pairs.forEach], on the own properties of [args].  The
    value is a string, and assigning a string to [args["__proto__"]] leaves
    the object as it is. *)
Definition parsePair (a : gmap string string) (pair : string)
  : option (gmap string string) :=
  let i := match indexOf (chr "=") pair with
           | Some i => i
           | None => String.length pair
           end in
  let key := substr_to i pair in
  value ← decodeURIComponent (substr_from (i + 1) pair);
  Some (if String.eqb key "__proto__" then a else <[key := value]> a).

(** [pairs.forEach(...)] *)
Fixpoint forEach_pair (pairs : list string) (a : gmap string string)
  : option (gmap string string) :=
  match pairs with
  | [] => Some a
  | p :: pairs' => a' ← parsePair a p; forEach_pair pairs' a'
  end.

(** [Jigsaw.parseQuery(query)]; [None] is the [URIError] of
    [decodeURIComponent]. *)
Definition parseQuery (query : string) : option (gmap string string) :=
  forEach_pair (split_pairs (replace_plus query)) ∅.

End ParseQuery.

End Jigsaw.

(** ** Vocabulary for routes *)

(** A character occurs in a string. *)
Fixpoint occurs (c : Ascii.ascii) (s : string) : bool :=
  match s with
  | EmptyString => false
  | String a s' => Ascii.eqb a c || occurs c s'
  end.

(** A part of a route that is matched literally: it does not start with
    [:], [?] or [*]. *)
Definition literal (w : string) : bool :=
  match w with
  | String c _ =>
      negb (Ascii.eqb c (Jigsaw.chr ":")) && negb (Ascii.eqb c (Jigsaw.chr "?"))
      && negb (Ascii.eqb c (Jigsaw.chr "*"))
  | EmptyString => true
  end.

(** The parts of a hash, as [takeRoute] matches them. *)
Definition hash_parts (decodeURIComponent : string -> option string) (hash : string)
  : option (list string) :=
  if String.eqb hash "" then Some []
  else mapM decodeURIComponent (Jigsaw.split_on (Jigsaw.chr "/") hash).

(** The string starts with the character. *)
Definition starts (c : Ascii.ascii) (w : string) : bool :=
  match w with
  | String a _ => Ascii.eqb a c
  | EmptyString => false
  end.

(** A part of a route that needs a part of the hash: a literal or a [:]
    parameter. *)
Definition required (w : string) : bool :=
  negb (starts (Jigsaw.chr "?") w) && negb (starts (Jigsaw.chr "*") w).

(* ================================================================== *)
(** * Properties *)
(* ================================================================== *)

(** ** The update queue is a min-heap *)

Section UpdateQueueFacts.

Variable level : nat -> option Z.

Local Abbreviation le_lv x y := (js_le (level x) (level y) = true).














(** *** [enqueueUpdate]: the hole moves up *)



(** *** [dequeueUpdate]: the hole moves down *)





End UpdateQueueFacts.


(** *** The queue inside the state *)

Section QueueState.







Lemma dequeueUpdate_empty (s : state) :
  updateQ s = [] -> dequeueUpdate s = Ok None s.
Proof.
  intros E. unfold dequeueUpdate, get, mbind, M_bind. by rewrite E.
Qed.

Lemma ascending_ext (s s' : state) (l : list nat) :
  (forall x, level_of s' x = level_of s x) -> ascending s l -> ascending s' l.
Proof. intros E H i j x y Hij Hx Hy. rewrite !E. by eapply H. Qed.


End QueueState.





(** ** Stepping through the library's code *)

Lemma bind_Ok {A B} (m : M A) (k : A -> M B) (s s' : state) a :
  m s = Ok a s' -> (m ≫= k) s = k a s'.
Proof. intros E. unfold mbind, M_bind. by rewrite E. Qed.

Lemma bind_Exn {A B} (m : M A) (k : A -> M B) (s s' : state) e :
  m s = Exn e s' -> (m ≫= k) s = Exn e s'.
Proof. intros E. unfold mbind, M_bind. by rewrite E. Qed.

Lemma getObs_Some (s : state) id o :
  observables s !! id = Some o -> getObs id s = Ok o s.
Proof. intros E. unfold getObs. by rewrite E. Qed.

Lemma updObs_Some (s : state) id o f :
  observables s !! id = Some o ->
  updObs id f s = Ok tt (set_observables (<[id:=f o]> (observables s)) s).
Proof. intros E. unfold updObs. by rewrite (bind_Ok _ _ _ _ _ (getObs_Some _ _ _ E)). Qed.

Lemma exec_S fuel c : exec (S fuel) c = step (exec fuel) c.
Proof. reflexivity. Qed.

(** Projections of updated records. *)
Ltac proj_simpl :=
  cbn [observables nextID updateQ updateDepth currentDependencies reported traced
       components nextComponentID parentComponentInfo deferComponentUpdates
       componentInfosPendingUpdate deferredComponentUpdatesID nextElement
       nodes nextNode nodesPendingStripping stripNodesID
       set_observables set_nextID set_updateQ set_updateDepth
       set_currentDependencies set_reported set_traced set_components
       set_nextComponentID set_parentComponentInfo set_deferComponentUpdates
       set_componentInfosPendingUpdate set_deferredComponentUpdatesID
       set_nextElement set_nodes set_nextNode set_nodesPendingStripping
       set_stripNodesID
       o_value o_eq o_fn o_dependencies o_dependents o_level o_isInUpdateQueue
       o_subscriptions set_o_value set_o_eq set_o_fn set_o_dependencies
       set_o_dependents set_o_level set_o_isInUpdateQueue set_o_subscriptions
       c_dom c_obs c_subs c_anonymousSubcomponents c_namedSubcomponents
       c_updateIsPending c_key c_dispose set_c_dom set_c_obs set_c_subs
       set_c_anonymousSubcomponents set_c_namedSubcomponents
       set_c_updateIsPending set_c_key set_c_dispose
       n_nodeName n_nodeValue n_key n_keyed n_odProps n_componentID
       n_parentNode n_childNodes set_n_nodeName set_n_nodeValue set_n_key
       set_n_keyed set_n_odProps set_n_componentID set_n_parentNode
       set_n_childNodes] in *.


(** The turn of [processUpdateQueue] on an empty queue. *)
Lemma processUpdateQueue_empty fuel (s : state) :
  updateQ s = [] -> exec (S fuel) CProcessUpdateQueue s = Ok VUndefined s.
Proof.
  intros E. rewrite exec_S. unfold step, processUpdateQueue.
  unfold mbind, M_bind. by rewrite (dequeueUpdate_empty s E).
Qed.





(** ** Writing *)

(** C3.  Invoking a computed observable as a setter throws, whatever the
    argument, and leaves the whole state (so its value and its links too) as
    it was. *)
Theorem write_computed_throws (self : call -> M jsval) (s : state) obs o f newX :
  observables s !! obs = Some o ->
  o_fn o = Some (FnComputed f) ->
  readOrWriteObs self obs (Some newX) s = Exn cannotAssign s.
Proof.
  intros Ho Hf. unfold readOrWriteObs, getObs, mbind, M_bind.
  by rewrite Ho, Hf.
Qed.

Lemma write_computed_throws_witness :
  exists o f, observables diamond_state !! 2 = Some o
    /\ o_fn o = Some (FnComputed f)
    /\ readOrWriteObs (exec 10) 2 (Some (VNum 7)) diamond_state
       = Exn cannotAssign diamond_state.
Proof.
  eexists _, _.
  assert (Ho : observables diamond_state !! 2
               = Some (mkObs (VNum 2) defaultEq
                         (Some (FnComputed (BProg (body1 (num1 Z.succ) 1))))
                         (Some [(1, Some 1)]) (Some [(3, Some 3)]) (Some 1%Z) false None))
    by (vm_compute; reflexivity).
  split; [exact Ho|]. split; [reflexivity|].
  apply (write_computed_throws (exec 10) diamond_state 2 _
           (BProg (body1 (num1 Z.succ) 1)) (VNum 7) Ho).
  reflexivity.
Defined.

(** C4 fails: on a cell holding [0] under [Obs.valueOfEq], writing [null],
    which that predicate holds equal to [0], replaces the stored value. *)
Lemma equal_write_is_noop_fails : ~ equal_write_is_noop.
Proof.
  intros H.
  destruct (H 1 zero_cell 1 (mkObs (VNum 0) valueOfEq None None None None false None) VNull)
    as (r & s' & Hw & _ & Hv); [done|done|done|].
  vm_compute in Hw. injection Hw as <- <-. vm_compute in Hv. discriminate.
Qed.

(** C4, amended.  A write of a value the equality predicate holds equal to
    the current one returns that value and only stores it: nothing is
    scheduled or evaluated, and no other part of the state changes. *)
Theorem equal_write_only_stores (self : call -> M jsval) (s : state) x o newX :
  observables s !! x = Some o -> is_mutable o ->
  o_eq o (o_value o) newX = true ->
  readOrWriteObs self x (Some newX) s
  = Ok newX (set_observables (<[x:=set_o_value newX o]> (observables s)) s).
Proof.
  intros Ho (Hf & _ & _) Heq.
  unfold readOrWriteObs, updObs, setObs, getObs, modify, mbind, M_bind, mret, M_ret.
  rewrite Ho, Hf. cbn. rewrite Ho. cbn. rewrite Heq. cbn.
  by rewrite lookup_insert_eq.
Qed.

Lemma equal_write_only_stores_witness :
  value_of 1 diamond_state = Some (VNum 1) /\
  exists s', readOrWriteObs (exec 10) 1 (Some (VNum 1)) diamond_state = Ok (VNum 1) s'
    /\ traced s' = traced diamond_state /\ updateQ s' = updateQ diamond_state.
Proof.
  split; [vm_compute; reflexivity|].
  assert (Ho : observables diamond_state !! 1
               = Some (mkObs (VNum 1) defaultEq None None
                         (Some [(2, Some 2); (3, Some 3)]) None false None))
    by (vm_compute; reflexivity).
  eexists. split.
  - apply (equal_write_only_stores (exec 10) diamond_state 1 _ (VNum 1) Ho).
    + split; [reflexivity|]. split; reflexivity.
    + reflexivity.
  - split; reflexivity.
Defined.

(** ** Disposal of a mutable observable *)




Lemma if_collapse {A} (b : bool) (F G : M A) (s : state) :
  F s = G s -> (if b then F else G) s = G s.
Proof. by destruct b. Qed.

Lemma updateDependents_undefined (self : call -> M jsval) (s : state) obs o :
  observables s !! obs = Some o -> o_dependents o = None ->
  Obs_updateDependents self obs s = Ok tt s.
Proof.
  intros Ho Hd. unfold Obs_updateDependents.
  rewrite (bind_Ok _ _ _ _ _ (getObs_Some _ _ _ Ho)). by rewrite Hd.
Qed.

(** ** Running the library on a given graph

    The tactics below run a computation one library call at a time: calls
    that involve no test on an unknown value are evaluated, the others are
    unfolded, and a test on an unknown value splits the proof. *)

Ltac mnorm :=
  cbv beta iota delta [returns mbind M_bind mret M_ret try_catch forM_ foldM].

Ltac innermost T k :=
  lazymatch T with
  | match ?Y with _ => _ end => innermost Y k
  | (match ?Y with _ => _ end) _ => innermost Y k
  | _ => k T
  end.

(** [if b then Obs.updateDependents(obs)] where [obs.dependents] is
    undefined: nothing happens either way. *)
Ltac collapse_test :=
  match goal with
  | |- context [(if ?b then Obs_updateDependents ?self ?obs else ?G) ?s] =>
      rewrite (if_collapse b (Obs_updateDependents self obs) G s)
        by (eapply updateDependents_undefined; [vm_compute; reflexivity|reflexivity])
  end.

Ltac unfold_head Y :=
  lazymatch Y with
  | exec (S _) _ _ => rewrite exec_S
  | exec (_ + _) _ _ => progress cbn [Nat.add]
  | step _ _ _ => unfold step at 1
  | run _ _ _ => unfold run at 1
  | readOrWriteObs _ _ _ _ => unfold readOrWriteObs at 1
  | Obs_updateDependents _ _ _ => unfold Obs_updateDependents at 1
  | Obs_endUpdate _ _ => unfold Obs_endUpdate at 1
  | processUpdateQueue _ _ => unfold processUpdateQueue at 1
  | reevaluateComputedObs _ _ _ => unfold reevaluateComputedObs at 1
  | tryReevaluateObsFn _ _ _ => unfold tryReevaluateObsFn at 1
  | call_fn _ _ _ => unfold call_fn at 1
  | updateComputedObs _ _ _ _ => unfold updateComputedObs at 1
  | subsAction _ _ _ => unfold subsAction at 1
  | call_action _ _ _ => unfold call_action at 1
  | call_body _ _ _ => unfold call_body at 1
  | Obs_fn _ _ _ _ => unfold Obs_fn at 1
  | Obs.fn _ _ _ _ => unfold Obs.fn at 1
  | Obs.write _ _ _ _ => unfold Obs.write at 1
  | Obs.endUpdate _ _ => unfold Obs.endUpdate at 1
  | Obs.updateDependents _ _ _ => unfold Obs.updateDependents at 1
  | Od_component _ _ _ _ => unfold Od_component at 1
  | Od.component _ _ _ _ => unfold Od.component at 1
  | existingNamedComponent _ _ => unfold existingNamedComponent at 1
  | obj_get _ _ => let v := eval cbv in Y in change Y with v
  | from_option ?f ?d ?x =>
      change (from_option f d x) with (match x with Some a => f a | None => d end)
  end.

Ltac eval_scrut Y :=
  lazymatch Y with
  | exec _ _ _ => fail 1000 "more fuel is needed"
  | repeatM _ _ _ => fail
  | _ => idtac
  end;
  lazymatch type of Y with
  | Prop => fail
  | _ => idtac
  end;
  let v := eval vm_compute in Y in
  lazymatch v with
  | Ok _ _ => idtac | Exn _ _ => idtac | OutOfFuel => idtac
  | true => idtac | false => idtac | Some _ => idtac | None => idtac
  end;
  let E := fresh "E" in
  assert (E : Y = v) by (vm_compute; reflexivity);
  rewrite E; clear E.

Ltac split_bool Y :=
  lazymatch Y with
  | negb ?b => split_bool b
  | _ =>
      lazymatch type of Y with
      | bool =>
          let v := eval cbv in Y in
          change Y with v;
          first [ match goal with H : v = _ |- _ => rewrite H end
                | destruct v eqn:? ]
      end
  end.

Ltac mstep :=
  lazymatch goal with
  | |- ?G =>
      innermost G ltac:(fun Y =>
        first [ unfold_head Y | eval_scrut Y | collapse_test | split_bool Y ])
  end;
  mnorm.

Ltac mrun := mnorm; repeat mstep.



(** *** Update regions *)

Lemma set_updateDepth_twice (s : state) d1 d2 :
  set_updateDepth d2 (set_updateDepth d1 s) = set_updateDepth d2 s.
Proof. by destruct s. Qed.

Lemma repeatM_startUpdate k : forall s : state,
  repeatM k Obs_startUpdate s = Ok tt (set_updateDepth (k + updateDepth s) s).
Proof.
  induction k as [|k IH]; intros s.
  - by destruct s.
  - cbn [repeatM]. unfold mbind, M_bind. unfold Obs_startUpdate at 1, modify.
    rewrite IH. proj_simpl.
    rewrite set_updateDepth_twice. do 2 f_equal. lia.
Qed.

Lemma repeatM_startUpdate_0 k (s : state) :
  updateDepth s = 0 -> repeatM k Obs_startUpdate s = Ok tt (set_updateDepth k s).
Proof. intros E. rewrite repeatM_startUpdate, E. by rewrite Nat.add_0_r. Qed.

(** Closing an inner update region only decrements the depth. *)
Lemma endUpdate_inner (self : call -> M jsval) (s : state) j :
  updateDepth s = S (S j) -> Obs_endUpdate self s = Ok tt (set_updateDepth (S j) s).
Proof.
  intros Hd. unfold Obs_endUpdate, modify, gets, mbind, M_bind, mret, M_ret.
  proj_simpl. by rewrite Hd.
Qed.

Lemma repeatM_endUpdate (self : call -> M jsval) k : forall (s : state) j,
  updateDepth s = k + S j ->
  repeatM k (Obs_endUpdate self) s = Ok tt (set_updateDepth (S j) s).
Proof.
  induction k as [|k IH]; intros s j Hd.
  - cbn [repeatM]. unfold mret, M_ret. destruct s. proj_simpl. by subst.
  - cbn [repeatM].
    rewrite (bind_Ok _ _ _ _ _ (endUpdate_inner self s (k + j) ltac:(lia))).
    rewrite (IH _ j) by (proj_simpl; lia).
    by rewrite set_updateDepth_twice.
Qed.

(** C5.  Two writes, to [X] and to [Y], inside an update region nested to
    any depth: the body of [U], which reads both, does not run before the
    outermost region is closed, and runs once when it is. *)
Theorem batching_coalesces (g2 : jsval -> jsval -> jsval)
    (eqX eqY eqU : jsval -> jsval -> bool) (x0 y0 a b : jsval) (d n : nat) :
  eqX x0 a = false -> eqY y0 b = false ->
  returns (two_sources g2 eqX eqY eqU x0 y0 (10 + n)) initial (fun '(x, y, u) s0 =>
    returns (repeatM (S d) Obs.startUpdate) s0 (fun _ s1 =>
      returns (Obs.write (10 + n) x a ;; Obs.write (10 + n) y b) s1 (fun _ s2 =>
        evals_of u s2 = evals_of u s0 /\
        value_of u s2 = Some (g2 x0 y0) /\
        returns (repeatM d (Obs.endUpdate (10 + n))) s2 (fun _ s3 =>
          evals_of u s3 = evals_of u s0 /\
          updateDepth s3 = 1 /\
          returns (Obs.endUpdate (10 + n)) s3 (fun _ s4 =>
            evals_of u s4 = evals_of u s0 + 1 /\
            value_of u s4 = Some (g2 a b) /\
            updateDepth s4 = 0))))).
Proof.
  intros HX HY. unfold two_sources. mrun.
  all: unfold Obs.startUpdate; rewrite repeatM_startUpdate_0 by reflexivity.
  all: mrun.
  all: (split; [vm_compute; reflexivity|]); (split; [vm_compute; reflexivity|]).
  all: unfold Obs.endUpdate at 1; rewrite (repeatM_endUpdate _ d _ 0);
    [|cbn [updateDepth]; lia].
  all: (split; [vm_compute; reflexivity|]); (split; [reflexivity|]).
  all: mrun.
  all: vm_compute; auto.
Qed.

Lemma batching_coalesces_witness :
  defaultEq (VNum 1) (VNum 3) = false /\ defaultEq (VNum 2) (VNum 4) = false /\
  returns (two_sources (num2 Z.add) defaultEq defaultEq defaultEq (VNum 1) (VNum 2) 10)
    initial (fun '(x, y, u) s0 =>
      returns (repeatM 2 Obs.startUpdate) s0 (fun _ s1 =>
        returns (Obs.write 10 x (VNum 3) ;; Obs.write 10 y (VNum 4)) s1 (fun _ s2 =>
          evals_of u s2 = evals_of u s0 /\
          value_of u s2 = Some (VNum 3) /\
          returns (repeatM 1 (Obs.endUpdate 10)) s2 (fun _ s3 =>
            evals_of u s3 = evals_of u s0 /\
            updateDepth s3 = 1 /\
            returns (Obs.endUpdate 10) s3 (fun _ s4 =>
              evals_of u s4 = evals_of u s0 + 1 /\
              value_of u s4 = Some (VNum 7) /\
              updateDepth s4 = 0))))).
Proof.
  split; [reflexivity|]. split; [reflexivity|].
  apply (batching_coalesces (num2 Z.add) defaultEq defaultEq defaultEq
           (VNum 1) (VNum 2) (VNum 3) (VNum 4) 1 0); reflexivity.
Defined.


(** ** Disposal of a computed observable *)




(** ** A body that throws *)

(** In the graph [U = failing_body(X)], [W = h(U)], [V = g(X)]: a write to
    [X] of a value on which the body of [U] throws returns normally; the
    exception goes to [Obs.exceptionReporter]; [U] keeps its last value and
    its dependent [W] is not re-evaluated; and [V], queued behind [U], is
    re-evaluated. *)
Lemma failing_body_scenario (f g h : jsval -> jsval) (fails : jsval -> bool)
    (e : jsval) (eqX eqU eqV eqW : jsval -> jsval -> bool) (x0 x1 : jsval) (n : nat) :
  eqX x0 x1 = false -> fails x0 = false -> fails x1 = true ->
  returns (failing_graph f g h fails e eqX eqU eqV eqW x0 (10 + n)) initial
    (fun '(x, u, w, v) s0 =>
      returns (Obs.write (10 + n) x x1) s0 (fun r s1 =>
        r = x1 /\
        reported s1 = reported s0 ++ [e] /\
        value_of u s1 = Some (f x0) /\
        evals_of u s1 = evals_of u s0 + 1 /\
        evals_of w s1 = evals_of w s0 /\
        evals_of v s1 = evals_of v s0 + 1 /\
        value_of v s1 = Some (g x1) /\
        updateQ s1 = [])).
Proof.
  intros HX H0 H1. unfold failing_graph. mrun.
  all: vm_compute; auto 10.
Qed.

(** ** Keyed child reconciliation *)
























Lemma getNode_Some (s : state) nid n :
  nodes s !! nid = Some n -> getNode nid s = Ok n s.
Proof. intros E. unfold getNode. by rewrite E. Qed.

Lemma updNode_Some (s : state) nid n f :
  nodes s !! nid = Some n ->
  updNode nid f s = Ok tt (set_nodes (<[nid:=f n]> (nodes s)) s).
Proof. intros E. unfold updNode. by rewrite (bind_Ok _ _ _ _ _ (getNode_Some _ _ _ E)). Qed.











Lemma obj_get_set {A} (o : jsobj A) k v k' :
  obj_get (obj_set o k v) k' = if Nat.eqb k' k then Some v else obj_get o k'.
Proof.
  induction o as [|[k0 v0] o IH]; simpl.
  - done.
  - destruct (Nat.eqb_spec k k0) as [->|Hne]; simpl.
    + by destruct (Nat.eqb_spec k' k0).
    + destruct (Nat.ltb k k0); simpl.
      * by destruct (Nat.eqb_spec k' k).
      * rewrite IH. destruct (Nat.eqb_spec k' k0) as [->|]; [|done].
        destruct (Nat.eqb_spec k0 k); [congruence|done].
Qed.





Lemma fresh_nodes_dec (s : state) :
  bool_decide (map_Forall (fun i (_ : node) => i < nextNode s) (nodes s)) = true ->
  forall i, nextNode s <= i -> nodes s !! i = None.
Proof.
  intros H%bool_decide_eq_true i Hi.
  destruct (nodes s !! i) as [n|] eqn:E; [|done].
  apply H in E. lia.
Qed.



(** ** Re-evaluation of a body that throws *)

Lemma same_values_refl (s : state) : same_values s s.
Proof. by repeat split. Qed.

Lemma same_values_trans (s1 s2 s3 : state) :
  same_values s1 s2 -> same_values s2 s3 -> same_values s1 s3.
Proof.
  intros (H1 & H2 & H3 & H4) (G1 & G2 & G3 & G4).
  repeat split; try congruence.
Qed.

Lemma same_values_is_Some (s s' : state) id :
  same_values s s' -> is_Some (observables s !! id) -> is_Some (observables s' !! id).
Proof.
  intros (_ & _ & _ & H) [o Ho]. specialize (H id). unfold value_of in H.
  rewrite Ho in H. destruct (observables s' !! id); [eauto|done].
Qed.

Lemma updObs_same_values (s : state) id o g :
  observables s !! id = Some o -> o_value (g o) = o_value o ->
  exists s', updObs id g s = Ok tt s' /\ same_values s s'
             /\ observables s' !! id = Some (g o).
Proof.
  intros Ho Hg. eexists. split; [by apply updObs_Some|]. split.
  - repeat split. intros id'. unfold value_of. cbn.
    destruct (decide (id' = id)) as [->|Hne].
    + rewrite lookup_insert_eq, Ho. cbn. by rewrite Hg.
    + by rewrite lookup_insert_ne.
  - cbn. by rewrite lookup_insert_eq.
Qed.

Lemma establish_loop_spec (obs : nat) :
  forall (l : jsobj (option nat)) (b : Z) (s : state),
  (forall id d, (id, Some d) ∈ l -> is_Some (observables s !! d)) ->
  exists b' s',
    foldM (fun (obsLevel : Z) '((id, obsDepcy) : nat * option nat) =>
      match obsDepcy with
      | None => mret obsLevel
      | Some obsDepcy =>
          updObs obsDepcy (fun d =>
            set_o_dependents
              (Some (obj_set (default [] (o_dependents d)) obs (Some obs))) d);;
          d ← getObs obsDepcy;
          let obsDepcyLevel := to_int32 (default 0%Z (o_level d)) in
          mret (if (obsLevel <=? obsDepcyLevel)%Z then (1 + obsDepcyLevel)%Z
                else obsLevel)
      end) b l s = Ok b' s' /\ same_values s s'.
Proof.
  induction l as [|[id [d|]] l IH]; intros b s Hl.
  - exists b, s. split; [done|apply same_values_refl].
  - destruct (Hl id d) as [od Hod]; [left|].
    destruct (updObs_same_values s d od
                (fun d => set_o_dependents
                   (Some (obj_set (default [] (o_dependents d)) obs (Some obs))) d)
                Hod) as (s1 & H1 & Hs1 & Hd1); [by destruct od|].
    cbn [foldM].
    erewrite bind_Ok;
      [|rewrite (bind_Ok _ _ _ _ _ H1), (bind_Ok _ _ _ _ _ (getObs_Some _ _ _ Hd1));
        reflexivity].
    match goal with |- context [foldM _ ?b1 l s1] =>
      destruct (IH b1 s1) as (b' & s' & H & Hs') end.
    { intros id' d' Hin. eapply same_values_is_Some; [done|].
      eapply Hl. by right. }
    exists b', s'. split; [exact H|]. by eapply same_values_trans.
  - cbn [foldM]. unfold mbind at 1, M_bind at 1, mret at 1, M_ret at 1.
    apply IH. intros id' d' Hin. eapply Hl. by right.
Qed.

(** [establishDependencies] completes and only touches [dependents] and
    [level]. *)
Lemma establishDependencies_spec (obs : nat) (s : state) :
  dependencies_exist obs s ->
  exists s', establishDependencies obs s = Ok tt s' /\ same_values s s'.
Proof.
  intros (o & Ho & Hl). unfold establishDependencies.
  rewrite (bind_Ok _ _ _ _ _ (getObs_Some _ _ _ Ho)).
  destruct (establish_loop_spec obs _ 0%Z s Hl) as (b' & s1 & H1 & Hs1).
  rewrite (bind_Ok _ _ _ _ _ H1).
  destruct (same_values_is_Some s s1 obs Hs1) as [o1 Ho1]; [eauto|].
  destruct (updObs_same_values s1 obs o1 (set_o_level (Some b')) Ho1)
    as (s2 & H2 & Hs2 & _); [by destruct o1|].
  exists s2. split; [done|]. by eapply same_values_trans.
Qed.

(** A body that throws: the exception is caught and reported. *)
Lemma tryReevaluateObsFn_catches (self : call -> M jsval) obs o f e (s s2 : state) :
  observables s !! obs = Some o -> o_fn o = Some (FnComputed f) ->
  call_body self f s = Exn e s2 ->
  tryReevaluateObsFn self obs s = Ok false (set_reported (reported s2 ++ [e]) s2).
Proof.
  intros Ho Hf Hb. unfold tryReevaluateObsFn, try_catch, call_fn.
  rewrite (bind_Ok _ _ _ _ _ (getObs_Some _ _ _ Ho)), Hf.
  unfold updateComputedObs.
  rewrite (bind_Ok _ _ _ _ _ (getObs_Some _ _ _ Ho)).
  by rewrite (bind_Exn _ _ _ _ _ Hb).
Qed.

Lemma reevaluateComputedObs_before (self : call -> M jsval) obs (s s1 : state) :
  before_body obs s = Ok tt s1 ->
  reevaluateComputedObs self obs s =
  (hasChanged ← tryReevaluateObsFn self obs;
   establishDependencies obs;;
   modify (set_currentDependencies (currentDependencies s));;
   if hasChanged : bool then Obs_updateDependents self obs else mret tt) s1.
Proof.
  unfold before_body, reevaluateComputedObs, trace, modify, gets, mbind, M_bind.
  destruct (getObs obs _) as [o s0|e s0|]; [|done|done].
  intros ->. by destruct s.
Qed.

(** What [dependencies_exist] needs in the witness. *)
Lemma dependencies_exist_dec (obs : nat) (s : state) o :
  observables s !! obs = Some o ->
  forallb (fun '(_, d) => match d with
                          | Some d => bool_decide (is_Some (observables s !! d))
                          | None => true
                          end) (default [] (o_dependencies o)) = true ->
  dependencies_exist obs s.
Proof.
  intros Ho H. exists o. split; [done|]. intros id d Hin.
  rewrite forallb_forall in H. apply list_elem_of_In in Hin.
  specialize (H _ Hin). by apply bool_decide_eq_true in H.
Qed.

Lemma updObs_values (s : state) id g :
  (forall o, o_value (g o) = o_value o) ->
  match updObs id g s with
  | Ok _ s' | Exn _ s' => forall id', value_of id' s' = value_of id' s
  | OutOfFuel => True
  end.
Proof.
  intros Hg. destruct (observables s !! id) as [o|] eqn:Ho.
  - destruct (updObs_same_values s id o g Ho (Hg o)) as (s' & -> & (_ & _ & _ & H) & _).
    exact H.
  - unfold updObs, getObs, mbind, M_bind. by rewrite Ho.
Qed.

Lemma break_loop_values (obs : nat) :
  forall (l : jsobj (option nat)) (s : state),
  match forM_ l (fun '((id, obsDepcy) : nat * option nat) =>
        match obsDepcy with
        | None => mret tt
        | Some obsDepcy =>
            updObs obs (fun o =>
              set_o_dependencies
                (Some (obj_set (default [] (o_dependencies o)) id None)) o);;
            d ← getObs obsDepcy;
            match o_dependents d with
            | None => throw typeError
            | Some dependents =>
                setObs obsDepcy (set_o_dependents (Some (obj_set dependents obs None)) d)
            end
        end) s with
  | Ok _ s' | Exn _ s' => forall id', value_of id' s' = value_of id' s
  | OutOfFuel => True
  end.
Proof.
  induction l as [|[id [d|]] l IH]; intros s; cbn [forM_].
  - done.
  - unfold mbind at 1, M_bind at 1.
    pose proof (updObs_values s obs (fun o =>
      set_o_dependencies (Some (obj_set (default [] (o_dependencies o)) id None)) o)) as H1.
    unfold mbind at 1, M_bind at 1.
    destruct (updObs obs _ s) as [[] s1|e s1|]; try (apply H1; by intros []).
    assert (V1 : forall id', value_of id' s1 = value_of id' s) by (apply H1; by intros []).
    unfold mbind at 1, M_bind at 1, getObs at 1.
    destruct (observables s1 !! d) as [od|] eqn:Hd; [|done].
    destruct (o_dependents od) as [dependents|] eqn:Hdep; [|done].
    unfold setObs at 1, modify at 1.
    match goal with |- match forM_ _ _ ?s2 with _ => _ end =>
      assert (V2 : forall id', value_of id' s2 = value_of id' s1) end.
    { intros id'. unfold value_of. cbn.
      destruct (decide (id' = d)) as [->|Hne].
      - rewrite lookup_insert_eq, Hd. by destruct od.
      - by rewrite lookup_insert_ne. }
    match goal with |- match forM_ _ _ ?s2 with _ => _ end =>
      specialize (IH s2); destruct (forM_ _ _ s2) end;
      try done; intros id'; by rewrite IH, V2.
  - unfold mbind at 1, M_bind at 1, mret at 1, M_ret at 1. apply IH.
Qed.

Lemma breakDependencies_values (obs : nat) (s : state) :
  match breakDependencies obs s with
  | Ok _ s' | Exn _ s' => forall id', value_of id' s' = value_of id' s
  | OutOfFuel => True
  end.
Proof.
  unfold breakDependencies, mbind, M_bind, getObs.
  destruct (observables s !! obs) as [o|]; [|done].
  destruct (o_dependencies o) as [l|]; [|done].
  apply break_loop_values.
Qed.

Lemma before_body_values (obs : nat) (s s1 : state) :
  before_body obs s = Ok tt s1 -> forall id, value_of id s1 = value_of id s.
Proof.
  unfold before_body, trace, modify, mbind, M_bind.
  destruct (getObs obs _) as [o s'|e s'|] eqn:Eg; [|done|done].
  unfold getObs in Eg. destruct (observables _ !! obs); [|done].
  injection Eg as <- <-.
  match goal with |- breakDependencies obs ?s2 = _ -> _ =>
    pose proof (breakDependencies_values obs s2) as H end.
  intros E. rewrite E in H. intros id. rewrite H. by destruct s.
Qed.

Lemma dequeueUpdate_values (s0 s : state) r :
  dequeueUpdate s0 = Ok r s -> forall id, value_of id s = value_of id s0.
Proof.
  unfold dequeueUpdate, get, mbind, M_bind.
  destruct (heap_dequeue _ _) as [[obs q]|]; [|by intros [= <- <-]].
  pose proof (updObs_values s0 obs (set_o_isInUpdateQueue false)) as H.
  destruct (updObs obs _ s0) as [[] s'|e s'|]; [|done|done].
  unfold trace, modify, mret, M_ret. intros [= <- <-] id.
  rewrite <- H by (by intros []). by destruct s'.
Qed.

(** Claim C6 (a body that throws during re-evaluation).  Let the flush take
    the computed observable [obs] from the update queue and let its body
    throw [e].  Then [reevaluateComputedObs] returns normally: the exception
    is caught and handed to [Obs.exceptionReporter]; between the moment the
    body threw and the return, the value of [obs] stays as it is (and it was
    not touched before the body ran), nothing is added to the update queue
    and nothing is evaluated; and [processUpdateQueue] goes on with its next
    turn on what is left in the queue. *)
Theorem failing_body_is_contained (self : call -> M jsval) obs o f e
    (s0 s s1 s2 : state) :
  dequeueUpdate s0 = Ok (Some obs) s ->
  before_body obs s = Ok tt s1 ->
  observables s1 !! obs = Some o -> o_fn o = Some (FnComputed f) ->
  call_body self f s1 = Exn e s2 ->
  dependencies_exist obs s2 ->
  value_of obs s1 = value_of obs s0
  /\ exists s3,
       reevaluateComputedObs self obs s = Ok tt s3
       /\ reported s3 = reported s2 ++ [e]
       /\ value_of obs s3 = value_of obs s2
       /\ updateQ s3 = updateQ s2
       /\ traced s3 = traced s2
       /\ processUpdateQueue self s0
          = (self CProcessUpdateQueue ≫= fun _ => mret tt) s3.
Proof.
  intros Hdeq Hbefore Ho Hf Hbody Hdeps. split.
  { rewrite (before_body_values _ _ _ Hbefore). by apply (dequeueUpdate_values s0 s (Some obs)). }
  pose proof (tryReevaluateObsFn_catches self obs o f e s1 s2 Ho Hf Hbody) as Htry.
  destruct (establishDependencies_spec obs (set_reported (reported s2 ++ [e]) s2))
    as (s3 & Hest & Hq & Hr & Ht & Hv).
  { destruct Hdeps as (o2 & Ho2 & Hl). exists o2. by destruct s2. }
  assert (Hre : reevaluateComputedObs self obs s
                = Ok tt (set_currentDependencies (currentDependencies s) s3)).
  { rewrite (reevaluateComputedObs_before self obs s s1 Hbefore).
    rewrite (bind_Ok _ _ _ _ _ Htry), (bind_Ok _ _ _ _ _ Hest). reflexivity. }
  eexists. split; [exact Hre|].
  repeat split.
  - destruct s3. cbn in *. rewrite Hr. by destruct s2.
  - unfold value_of in *. specialize (Hv obs). destruct s3. cbn in *. rewrite Hv. by destruct s2.
  - destruct s3. cbn in *. rewrite Hq. by destruct s2.
  - destruct s3. cbn in *. rewrite Ht. by destruct s2.
  - unfold processUpdateQueue. rewrite (bind_Ok _ _ _ _ _ Hdeq).
    by rewrite (bind_Ok _ _ _ _ _ Hre).
Qed.

Lemma failing_body_is_contained_witness :
  exists s3,
    processUpdateQueue (exec 10) failing_state
    = (exec 10 CProcessUpdateQueue ≫= fun _ => mret tt) s3
    /\ reported s3 = [VStr "boom"]
    /\ value_of 2 s3 = Some (VNum 2)
    /\ updateQ s3 = [4].
Proof.
  pose proof (failing_body_is_contained (exec 10) 2) as H.
  edestruct (fun o f e => H o f e failing_state)
    as (_ & s3 & _ & Hr & Hv & Hq & _ & Hp).
  - vm_compute. reflexivity.
  - vm_compute. reflexivity.
  - vm_compute. reflexivity.
  - reflexivity.
  - vm_compute. reflexivity.
  - eapply dependencies_exist_dec; vm_compute; reflexivity.
  - exists s3. rewrite Hr, Hv, Hq. split; [exact Hp|]. vm_compute. auto.
Defined.

(** ** Components *)


Lemma getCmpt_Some (s : state) cid c :
  components s !! cid = Some c -> getCmpt cid s = Ok c s.
Proof. intros E. unfold getCmpt. by rewrite E. Qed.

(** [Od.component(name, fn)] in the scope of a parent that has a component
    under [name]: that component is returned and nothing else happens. *)
Lemma Od_component_existing (self : call -> M jsval) name fn (s : state) p info c :
  parentComponentInfo s = Some p -> components s !! p = Some info ->
  obj_get (c_namedSubcomponents info) name = Some (Some c) ->
  Od_component self (Some name) fn s = Ok (VComponent c) s.
Proof.
  intros Hp Hinfo Hname. unfold Od_component.
  assert (H : existingNamedComponent (Some name) s = Ok (Some c) s).
  { unfold existingNamedComponent, gets. unfold mbind at 1, M_bind at 1. rewrite Hp.
    rewrite (bind_Ok _ _ _ _ _ (getCmpt_Some _ _ _ Hinfo)). by rewrite Hname. }
  by rewrite (bind_Ok _ _ _ _ _ H).
Qed.

(** [existingNamedComponent(null)] is [null]: [Od.component(null, fn)] always
    constructs a component. *)
Lemma existingNamedComponent_null (s : state) :
  existingNamedComponent None s = Ok None s.
Proof. unfold existingNamedComponent, gets, mbind, M_bind. by destruct (parentComponentInfo s). Qed.

(* ================================================================== *)
(** * Properties of the rest of the code *)
(* ================================================================== *)

(** ** Stepping through bodies that branch on what they read, and through
    the patching functions *)

Ltac head_of t :=
  lazymatch t with
  | ?f _ => head_of f
  | _ => t
  end.

(** Evaluates a scrutinee that is data. *)
Ltac eval_data Y :=
  lazymatch Y with
  | exec _ _ _ => fail
  | repeatM _ _ _ => fail
  | _ => idtac
  end;
  lazymatch type of Y with
  | Prop => fail
  | _ => idtac
  end;
  let v := eval vm_compute in Y in
  let h := head_of v in
  is_constructor h;
  let E := fresh "E" in
  assert (E : Y = v) by (vm_compute; reflexivity);
  rewrite E; clear E.

Ltac unfold_patch Y :=
  lazymatch Y with
  | updateComponent _ _ _ => unfold updateComponent at 1
  | updateDeferredComponents _ _ => unfold updateDeferredComponents at 1
  | deferComponentUpdate _ _ => unfold deferComponentUpdate at 1
  | patchFromVdom _ _ _ _ _ => unfold patchFromVdom at 1
  | patchFromVdom_rec _ _ _ _ _ => unfold patchFromVdom_rec at 1
  | element_vdom _ _ _ _ _ _ _ => unfold element_vdom at 1
  | component_vdom _ _ _ _ => unfold component_vdom at 1
  | patchChildren _ _ _ _ => unfold patchChildren at 1
  | patchChildren_positional _ _ _ _ => unfold patchChildren_positional at 1
  | patchChildren_loop _ _ _ _ _ => progress cbn [patchChildren_loop default from_option id]
  | patchText _ _ _ _ => unfold patchText at 1
  | Od_dispose _ _ _ => unfold Od_dispose at 1
  | disposeComponent _ _ _ => unfold disposeComponent at 1
  | disposeAnonymousSubcomponents _ _ _ => unfold disposeAnonymousSubcomponents at 1
  | disposeNamedSubcomponents _ _ _ => unfold disposeNamedSubcomponents at 1
  | Od.dispose _ _ _ => unfold Od.dispose at 1
  | Od.bind _ _ _ _ => unfold Od.bind at 1
  end.

Ltac xstep :=
  lazymatch goal with
  | |- ?G =>
      innermost G ltac:(fun Y =>
        first [ unfold_head Y | eval_scrut Y | collapse_test | split_bool Y
              | eval_data Y | unfold_patch Y | progress cbn [rev app] ])
  end;
  mnorm.

Ltac xrun := mnorm; repeat xstep.

(** The same, with the fact [H] about a test that the state holds on to. *)
Ltac xrun_with H := mnorm; repeat (xstep; try rewrite !H).

(** Closes a conjunct that is an equation between values. *)
Ltac solve_value :=
  lazymatch goal with
  | |- _ = _ => idtac
  | |- cmpt_disposed _ _ => idtac
  end;
  vm_compute; reflexivity.

Ltac solve_value_with H :=
  lazymatch goal with
  | |- _ = _ => idtac
  | |- cmpt_disposed _ _ => idtac
  end;
  vm_compute; rewrite ?H; reflexivity.

(** ** Peeking, subscriptions and changing dependencies *)

(** X1. [Obs.peek] reads without recording a dependency: a computed observable
    whose body only peeks at [X] holds [f x0] after its creation, is not linked
    to [X], and a later write to [X] of an unequal value returns that value and
    neither re-evaluates the computed observable nor changes its value. *)
Theorem peek_makes_no_dependency (f : jsval -> jsval)
    (eqX eqU : jsval -> jsval -> bool) (x0 x1 : jsval) (n : nat) :
  eqX x0 x1 = false ->
  returns (peeking f eqX eqU x0 (10 + n)) initial (fun '(x, u) s0 =>
    value_of u s0 = Some (f x0) /\
    dependency_live u x s0 = false /\
    returns (Obs.write (10 + n) x x1) s0 (fun r s1 =>
      r = x1 /\
      evals_of u s1 = evals_of u s0 /\
      value_of u s1 = Some (f x0))).
Proof.
  intros HX. unfold peeking. mrun.
  repeat (split; [vm_compute; reflexivity|]).
  mrun. all: vm_compute; auto.
Qed.

Lemma peek_makes_no_dependency_witness :
  defaultEq (VNum 0) (VNum 1) = false /\
  returns (peeking (num1 Z.succ) defaultEq defaultEq (VNum 0) (10 + 0)) initial (fun '(x, u) s0 =>
    value_of u s0 = Some ((num1 Z.succ) (VNum 0)) /\
    dependency_live u x s0 = false /\
    returns (Obs.write (10 + 0) x (VNum 1)) s0 (fun r s1 =>
      r = (VNum 1) /\
      evals_of u s1 = evals_of u s0 /\
      value_of u s1 = Some ((num1 Z.succ) (VNum 0)))).
Proof.
  split; [reflexivity|].
  apply (peek_makes_no_dependency (num1 Z.succ) defaultEq defaultEq (VNum 0) (VNum 1) 0);
    reflexivity.
Defined.

(** X2. A subscription on [X] whose action copies [Y] into [L] does not run
    when it is created, runs once when [X] is written with an unequal value,
    does not run when [X] is written with an equal value, and reading [Y] in
    the action makes no dependency: a write to [Y] does not run it. *)
Theorem subscription_runs_on_change (eqX eqY eqL : jsval -> jsval -> bool)
    (x0 x1 x2 y0 y1 l0 : jsval) (n : nat) :
  eqX x0 x1 = false -> eqX x1 x2 = true -> eqY y0 y1 = false ->
  returns (subscribed eqX eqY eqL x0 y0 l0) initial (fun '(x, y, l, w) s0 =>
    evals_of w s0 = 0 /\
    returns (Obs.write (10 + n) x x1) s0 (fun _ s1 =>
      evals_of w s1 = 1 /\
      value_of l s1 = Some y0 /\
      returns (Obs.write (10 + n) x x2) s1 (fun _ s2 =>
        evals_of w s2 = 1 /\
        returns (Obs.write (10 + n) y y1) s2 (fun _ s3 =>
          evals_of w s3 = 1 /\
          value_of l s3 = Some y0)))).
Proof.
  intros HX HX' HY. unfold subscribed. mrun.
  split; [vm_compute; reflexivity|].
  mrun.
  all: repeat (split; [vm_compute; reflexivity|]).
  all: mrun.
  all: repeat (split; [vm_compute; reflexivity|]).
  all: mrun.
  all: vm_compute; auto.
Qed.

Lemma subscription_runs_on_change_witness :
  defaultEq (VNum 0) (VNum 1) = false /\ defaultEq (VNum 1) (VNum 1) = true /\ defaultEq (VNum 5) (VNum 6) = false /\
  returns (subscribed defaultEq defaultEq defaultEq (VNum 0) (VNum 5) (VNum 9)) initial (fun '(x, y, l, w) s0 =>
    evals_of w s0 = 0 /\
    returns (Obs.write (10 + 0) x (VNum 1)) s0 (fun _ s1 =>
      evals_of w s1 = 1 /\
      value_of l s1 = Some (VNum 5) /\
      returns (Obs.write (10 + 0) x (VNum 1)) s1 (fun _ s2 =>
        evals_of w s2 = 1 /\
        returns (Obs.write (10 + 0) y (VNum 6)) s2 (fun _ s3 =>
          evals_of w s3 = 1 /\
          value_of l s3 = Some (VNum 5))))).
Proof.
  split; [reflexivity|]. split; [reflexivity|]. split; [reflexivity|].
  apply (subscription_runs_on_change defaultEq defaultEq defaultEq (VNum 0) (VNum 1) (VNum 1) (VNum 5) (VNum 6) (VNum 9) 0);
    reflexivity.
Defined.

(** X3. A subscription is created at level 999999999, and its first run sets
    its level to 0, since it has no dependencies of its own.  With a computed
    observable [U = f(X)] at level 1 and a subscription on [X] that copies
    [U] into [L]: on the first change of [X] the subscription runs after [U]
    and copies the new value, on the second change it runs before [U] and
    copies the value [U] had before that change. *)
Theorem subscription_level_is_reset (f : jsval -> jsval)
    (eqX eqU eqL : jsval -> jsval -> bool) (x0 x1 x2 l0 : jsval) (n : nat) :
  eqX x0 x1 = false -> eqX x1 x2 = false ->
  eqU (f x0) (f x1) = false -> eqU (f x1) (f x2) = false ->
  returns (watched f eqX eqU eqL x0 l0 (10 + n)) initial (fun '(x, u, l, w) s0 =>
    level_of s0 w = Some 999999999%Z /\
    returns (Obs.write (10 + n) x x1) s0 (fun _ s1 =>
      value_of l s1 = Some (f x1) /\
      level_of s1 w = Some 0%Z /\
      level_of s1 u = Some 1%Z /\
      returns (Obs.write (10 + n) x x2) s1 (fun _ s2 =>
        value_of u s2 = Some (f x2) /\
        value_of l s2 = Some (f x1) /\
        evals_of w s2 = 2))).
Proof.
  intros HX HX' HU HU'. unfold watched. mrun.
  split; [vm_compute; reflexivity|].
  mrun.
  all: repeat (split; [vm_compute; reflexivity|]).
  all: mrun.
  all: vm_compute; auto.
Qed.

Lemma subscription_level_is_reset_witness :
  defaultEq (VNum 0) (VNum 1) = false /\ defaultEq (VNum 1) (VNum 2) = false /\ defaultEq ((num1 Z.succ) (VNum 0)) ((num1 Z.succ) (VNum 1)) = false /\ defaultEq ((num1 Z.succ) (VNum 1)) ((num1 Z.succ) (VNum 2)) = false /\
  returns (watched (num1 Z.succ) defaultEq defaultEq defaultEq (VNum 0) (VNum 9) (10 + 0)) initial (fun '(x, u, l, w) s0 =>
    level_of s0 w = Some 999999999%Z /\
    returns (Obs.write (10 + 0) x (VNum 1)) s0 (fun _ s1 =>
      value_of l s1 = Some ((num1 Z.succ) (VNum 1)) /\
      level_of s1 w = Some 0%Z /\
      level_of s1 u = Some 1%Z /\
      returns (Obs.write (10 + 0) x (VNum 2)) s1 (fun _ s2 =>
        value_of u s2 = Some ((num1 Z.succ) (VNum 2)) /\
        value_of l s2 = Some ((num1 Z.succ) (VNum 1)) /\
        evals_of w s2 = 2))).
Proof.
  split; [reflexivity|]. split; [reflexivity|]. split; [reflexivity|]. split; [reflexivity|].
  apply (subscription_level_is_reset (num1 Z.succ) defaultEq defaultEq defaultEq (VNum 0) (VNum 1) (VNum 2) (VNum 9) 0);
    reflexivity.
Defined.

(** X4. [Obs.dispose] of a subscription removes it from the dependents of
    the observables it watches: a later write to [X] returns the written value,
    does not run the action, leaves [L] as it was and the update queue empty. *)
Theorem disposed_subscription_is_silent (eqX eqY eqL : jsval -> jsval -> bool)
    (x0 x1 y0 l0 : jsval) (n : nat) :
  eqX x0 x1 = false ->
  returns (subscribed eqX eqY eqL x0 y0 l0) initial (fun '(x, y, l, w) s0 =>
    dependent_live x w s0 = true /\
    returns (Obs.dispose w) s0 (fun _ s1 =>
      dependent_live x w s1 = false /\
      returns (Obs.write (10 + n) x x1) s1 (fun r s2 =>
        r = x1 /\
        evals_of w s2 = 0 /\
        value_of l s2 = Some l0 /\
        updateQ s2 = []))).
Proof.
  intros HX. unfold subscribed. mrun.
  split; [vm_compute; reflexivity|].
  mrun.
  split; [vm_compute; reflexivity|].
  mrun.
  all: vm_compute; auto.
Qed.

Lemma disposed_subscription_is_silent_witness :
  defaultEq (VNum 0) (VNum 1) = false /\
  returns (subscribed defaultEq defaultEq defaultEq (VNum 0) (VNum 5) (VNum 9)) initial (fun '(x, y, l, w) s0 =>
    dependent_live x w s0 = true /\
    returns (Obs.dispose w) s0 (fun _ s1 =>
      dependent_live x w s1 = false /\
      returns (Obs.write (10 + 0) x (VNum 1)) s1 (fun r s2 =>
        r = (VNum 1) /\
        evals_of w s2 = 0 /\
        value_of l s2 = Some (VNum 9) /\
        updateQ s2 = []))).
Proof.
  split; [reflexivity|].
  apply (disposed_subscription_is_silent defaultEq defaultEq defaultEq (VNum 0) (VNum 1) (VNum 5) (VNum 9) 0);
    reflexivity.
Defined.

(** X5. The dependencies of a computed observable are those of its last
    evaluation.  With [U = S() ? A() : B()] and [S] true, [U] depends on [A]
    and not on [B], and a write to [B] does not re-evaluate it; after
    [S(false)] it is re-evaluated once, holds the value of [B], depends on [B]
    and no longer on [A] (in both directions), a write to [A] does not
    re-evaluate it and a write to [B] does. *)
Theorem dependencies_follow_the_branch (eqA eqB eqU : jsval -> jsval -> bool)
    (a0 a1 b0 b1 b2 : jsval) (n : nat) :
  eqB b0 b1 = false -> eqA a0 a1 = false -> eqB b1 b2 = false ->
  returns (branching eqA eqB eqU a0 b0 (10 + n)) initial (fun '(s, a, b, u) s0 =>
    value_of u s0 = Some a0 /\
    dependency_live u a s0 = true /\ dependency_live u b s0 = false /\
    returns (Obs.write (10 + n) b b1) s0 (fun _ s1 =>
      evals_of u s1 = evals_of u s0 /\
      returns (Obs.write (10 + n) s (VBool false)) s1 (fun _ s2 =>
        evals_of u s2 = evals_of u s1 + 1 /\
        value_of u s2 = Some b1 /\
        dependency_live u a s2 = false /\ dependency_live u b s2 = true /\
        dependent_live a u s2 = false /\ dependent_live b u s2 = true /\
        returns (Obs.write (10 + n) a a1) s2 (fun _ s3 =>
          evals_of u s3 = evals_of u s2 /\
          returns (Obs.write (10 + n) b b2) s3 (fun _ s4 =>
            evals_of u s4 = evals_of u s3 + 1 /\
            value_of u s4 = Some b2))))).
Proof.
  intros HB HA HB'. unfold branching. xrun.
  repeat (split; [vm_compute; reflexivity|]).
  xrun.
  all: repeat (split; [vm_compute; reflexivity|]).
  all: xrun.
  all: repeat (split; [vm_compute; reflexivity|]).
  all: xrun.
  all: repeat (split; [vm_compute; reflexivity|]).
  all: xrun.
  all: vm_compute; auto.
Qed.

Lemma dependencies_follow_the_branch_witness :
  defaultEq (VNum 20) (VNum 21) = false /\ defaultEq (VNum 10) (VNum 11) = false /\ defaultEq (VNum 21) (VNum 22) = false /\
  returns (branching defaultEq defaultEq defaultEq (VNum 10) (VNum 20) (10 + 0)) initial (fun '(s, a, b, u) s0 =>
    value_of u s0 = Some (VNum 10) /\
    dependency_live u a s0 = true /\ dependency_live u b s0 = false /\
    returns (Obs.write (10 + 0) b (VNum 21)) s0 (fun _ s1 =>
      evals_of u s1 = evals_of u s0 /\
      returns (Obs.write (10 + 0) s (VBool false)) s1 (fun _ s2 =>
        evals_of u s2 = evals_of u s1 + 1 /\
        value_of u s2 = Some (VNum 21) /\
        dependency_live u a s2 = false /\ dependency_live u b s2 = true /\
        dependent_live a u s2 = false /\ dependent_live b u s2 = true /\
        returns (Obs.write (10 + 0) a (VNum 11)) s2 (fun _ s3 =>
          evals_of u s3 = evals_of u s2 /\
          returns (Obs.write (10 + 0) b (VNum 22)) s3 (fun _ s4 =>
            evals_of u s4 = evals_of u s3 + 1 /\
            value_of u s4 = Some (VNum 22)))))).
Proof.
  split; [reflexivity|]. split; [reflexivity|]. split; [reflexivity|].
  apply (dependencies_follow_the_branch defaultEq defaultEq defaultEq (VNum 10) (VNum 11) (VNum 20) (VNum 21) (VNum 22) 0);
    reflexivity.
Defined.

(** X6. [Obs.updateDependents(X)] re-evaluates the dependents of [X] although
    [X] has not changed: in the chain [X -> U -> V], [U] is evaluated once
    more; its value being equal to the old one, [V] is not, and the queue is
    empty afterwards. *)
Theorem updateDependents_forces_reevaluation (f g : jsval -> jsval)
    (eqX eqU eqV : jsval -> jsval -> bool) (x0 : jsval) (n : nat) :
  eqU (f x0) (f x0) = true ->
  returns (chain f g g eqX eqU eqV eqV x0 (10 + n)) initial (fun '(x, u, v, w) s0 =>
    returns (Obs.updateDependents (10 + n) x) s0 (fun _ s1 =>
      value_of x s1 = Some x0 /\
      evals_of u s1 = evals_of u s0 + 1 /\
      value_of u s1 = Some (f x0) /\
      evals_of v s1 = evals_of v s0 /\
      updateQ s1 = [])).
Proof.
  intros HU. unfold chain. mrun.
  all: vm_compute; auto.
Qed.

Lemma updateDependents_forces_reevaluation_witness :
  defaultEq ((num1 Z.succ) (VNum 0)) ((num1 Z.succ) (VNum 0)) = true /\
  returns (chain (num1 Z.succ) (num1 Z.succ) (num1 Z.succ) defaultEq defaultEq defaultEq defaultEq (VNum 0) (10 + 0)) initial (fun '(x, u, v, w) s0 =>
    returns (Obs.updateDependents (10 + 0) x) s0 (fun _ s1 =>
      value_of x s1 = Some (VNum 0) /\
      evals_of u s1 = evals_of u s0 + 1 /\
      value_of u s1 = Some ((num1 Z.succ) (VNum 0)) /\
      evals_of v s1 = evals_of v s0 /\
      updateQ s1 = [])).
Proof.
  split; [reflexivity|].
  apply (updateDependents_forces_reevaluation (num1 Z.succ) (num1 Z.succ) defaultEq defaultEq defaultEq (VNum 0) 0);
    reflexivity.
Defined.

(** X7. A computed observable whose body throws at its creation is created
    all the same: the exception is reported, the value is [undefined], the
    dependency on the observable read before the throw is recorded, and a
    later write on which the body does not throw gives it its value. *)
Theorem failing_creation_recovers (f : jsval -> jsval) (fails : jsval -> bool)
    (e : jsval) (eqX eqU : jsval -> jsval -> bool) (x0 x1 : jsval) (n : nat) :
  fails x0 = true -> fails x1 = false -> eqX x0 x1 = false ->
  returns (failing_at_creation f fails e eqX eqU x0 (10 + n)) initial (fun '(x, u) s0 =>
    reported s0 = [e] /\
    value_of u s0 = Some VUndefined /\
    dependency_live u x s0 = true /\
    returns (Obs.write (10 + n) x x1) s0 (fun _ s1 =>
      reported s1 = [e] /\
      value_of u s1 = Some (f x1))).
Proof.
  intros H0 H1 HX. unfold failing_at_creation. mrun.
  repeat (split; [vm_compute; reflexivity|]).
  mrun.
  all: vm_compute; auto.
Qed.

Lemma failing_creation_recovers_witness :
  throws_on_5 (VNum 5) = true /\ throws_on_5 (VNum 1) = false /\ defaultEq (VNum 5) (VNum 1) = false /\
  returns (failing_at_creation (num1 Z.succ) throws_on_5 (VStr "boom") defaultEq defaultEq (VNum 5) (10 + 0)) initial (fun '(x, u) s0 =>
    reported s0 = [(VStr "boom")] /\
    value_of u s0 = Some VUndefined /\
    dependency_live u x s0 = true /\
    returns (Obs.write (10 + 0) x (VNum 1)) s0 (fun _ s1 =>
      reported s1 = [(VStr "boom")] /\
      value_of u s1 = Some ((num1 Z.succ) (VNum 1)))).
Proof.
  split; [reflexivity|]. split; [reflexivity|]. split; [reflexivity|].
  apply (failing_creation_recovers (num1 Z.succ) throws_on_5 (VStr "boom") defaultEq defaultEq (VNum 5) (VNum 1) 0);
    reflexivity.
Defined.

(** ** The queue, the batch depth and the levels *)

(** X8. [enqueueUpdate] is idempotent: an observable that is in the update
    queue is not added a second time. *)
Theorem enqueueUpdate_twice (obs : nat) (s : state) :
  (enqueueUpdate obs;; enqueueUpdate obs) s = enqueueUpdate obs s.
Proof.
  unfold enqueueUpdate, trace, modify, updObs, setObs, modify, getObs,
    mbind, M_bind, mret, M_ret.
  destruct (observables s !! obs) as [o|] eqn:Ho; [|done].
  destruct (o_isInUpdateQueue o) eqn:Hf.
  - by rewrite Ho, Hf.
  - destruct s; cbn in *. rewrite Ho. cbn. by rewrite lookup_insert_eq.
Qed.

(** X9. [Obs.endUpdate] outside a batch does not make the depth negative:
    at depth zero and with an empty queue it changes nothing, and
    [Obs.startUpdate(); Obs.endUpdate()] restores the state. *)
Theorem endUpdate_at_depth_zero (fuel : nat) (s : state) :
  updateDepth s = 0 -> updateQ s = [] ->
  Obs.endUpdate (S fuel) s = Ok tt s
  /\ (Obs.startUpdate;; Obs.endUpdate (S fuel)) s = Ok tt s.
Proof.
  intros Hd Hq.
  assert (H : Obs.endUpdate (S fuel) s = Ok tt s).
  { unfold Obs.endUpdate, Obs_endUpdate, modify, gets, mbind, M_bind.
    assert (E : set_updateDepth (Nat.pred (updateDepth s)) s = s)
      by (rewrite Hd; destruct s; cbn in *; by subst).
    rewrite E, Hd. cbn [Nat.eqb].
    by rewrite (processUpdateQueue_empty fuel s Hq). }
  split; [exact H|].
  unfold Obs.startUpdate, Obs_startUpdate, modify. unfold mbind at 1, M_bind at 1.
  unfold Obs.endUpdate, Obs_endUpdate, modify, gets, mbind, M_bind.
  assert (E : set_updateDepth (Nat.pred (updateDepth (set_updateDepth (S (updateDepth s)) s)))
                (set_updateDepth (S (updateDepth s)) s) = s)
    by (destruct s; cbn in *; by subst).
  rewrite E, Hd. cbn [Nat.eqb].
  by rewrite (processUpdateQueue_empty fuel s Hq).
Qed.

Lemma endUpdate_at_depth_zero_witness :
  Obs.endUpdate 1 initial = Ok tt initial
  /\ (Obs.startUpdate;; Obs.endUpdate 1) initial = Ok tt initial.
Proof.
  apply (endUpdate_at_depth_zero 0 initial); reflexivity.
Defined.

Lemma obj_live_set (d : jsobj (option nat)) (obs : nat) :
  obj_live (Some (obj_set d obs (Some obs))) obs = true.
Proof. unfold obj_live. by rewrite obj_get_set, Nat.eqb_refl. Qed.

(** The loop of [establishDependencies]. *)
Lemma establish_loop_levels (obs : nat) (s0 : state) :
  forall (l : jsobj (option nat)) (b : Z) (s : state),
  (forall x, level_of s x = level_of s0 x) ->
  (forall id d, (id, Some d) ∈ l -> is_Some (observables s !! d)) ->
  exists b' s',
    foldM (fun (obsLevel : Z) '((id, obsDepcy) : nat * option nat) =>
      match obsDepcy with
      | None => mret obsLevel
      | Some obsDepcy =>
          updObs obsDepcy (fun d =>
            set_o_dependents
              (Some (obj_set (default [] (o_dependents d)) obs (Some obs))) d);;
          d ← getObs obsDepcy;
          let obsDepcyLevel := to_int32 (default 0%Z (o_level d)) in
          mret (if (obsLevel <=? obsDepcyLevel)%Z then (1 + obsDepcyLevel)%Z
                else obsLevel)
      end) b l s = Ok b' s'
    /\ (forall x, level_of s' x = level_of s0 x)
    /\ (forall x, is_Some (observables s !! x) -> is_Some (observables s' !! x))
    /\ (forall x, dependent_live x obs s = true -> dependent_live x obs s' = true)
    /\ (b <= b')%Z
    /\ (forall id d, (id, Some d) ∈ l ->
          (to_int32 (default 0%Z (level_of s0 d)) < b')%Z
          /\ dependent_live d obs s' = true)
    /\ (b' = b \/ exists id d, (id, Some d) ∈ l
                   /\ b' = (1 + to_int32 (default 0%Z (level_of s0 d)))%Z).
Proof.
  induction l as [|[id [d|]] l IH]; intros b s Hlv Hl.
  - exists b, s. split; [done|].
    split_and!; try done; try lia; try (by left).
    all: intros ? ? Hin; by apply elem_of_nil in Hin.
  - destruct (Hl id d) as [od Hod]; [left|].
    set (g := fun d => set_o_dependents
                (Some (obj_set (default [] (o_dependents d)) obs (Some obs))) d).
    pose proof (updObs_Some s d od g Hod) as H1.
    set (s1 := set_observables (<[d:=g od]> (observables s)) s) in H1.
    assert (Hd1 : observables s1 !! d = Some (g od))
      by (subst s1; cbn; apply lookup_insert_eq).
    assert (Hlv1 : forall x, level_of s1 x = level_of s0 x).
    { intros x. rewrite <- Hlv. unfold level_of. subst s1. cbn.
      destruct (decide (x = d)) as [->|Hne].
      - rewrite lookup_insert_eq, Hod. by destruct od.
      - by rewrite lookup_insert_ne. }
    assert (Hex1 : forall x, is_Some (observables s !! x) -> is_Some (observables s1 !! x)).
    { intros x Hx. subst s1. cbn. destruct (decide (x = d)) as [->|Hne].
      - rewrite lookup_insert_eq. eauto.
      - by rewrite lookup_insert_ne. }
    assert (Hdep1 : forall x, dependent_live x obs s = true -> dependent_live x obs s1 = true).
    { intros x. unfold dependent_live. subst s1. cbn.
      destruct (decide (x = d)) as [->|Hne].
      - rewrite lookup_insert_eq. intros _. apply obj_live_set.
      - by rewrite lookup_insert_ne. }
    assert (Hdd : dependent_live d obs s1 = true).
    { unfold dependent_live. rewrite Hd1. apply obj_live_set. }
    cbn [foldM].
    erewrite bind_Ok;
      [|rewrite (bind_Ok _ _ _ _ _ H1), (bind_Ok _ _ _ _ _ (getObs_Some _ _ _ Hd1));
        reflexivity].
    assert (Elv : default 0%Z (o_level (g od)) = default 0%Z (level_of s0 d)).
    { rewrite <- Hlv. unfold level_of. rewrite Hod. by destruct od. }
    rewrite Elv.
    set (lvd := to_int32 (default 0%Z (level_of s0 d))).
    set (b1 := if (b <=? lvd)%Z then (1 + lvd)%Z else b).
    destruct (IH b1 s1 Hlv1) as (b' & s' & H & Hlv' & Hex' & Hdep' & Hle & Hall & Hor).
    { intros id' d' Hin. apply Hex1. eapply Hl. by right. }
    assert (Hb1 : (b <= b1 /\ lvd < b1)%Z).
    { subst b1. destruct (Z.leb_spec b lvd); lia. }
    exists b', s'. split; [exact H|]. split_and!.
    + exact Hlv'.
    + intros x Hx. by apply Hex', Hex1.
    + intros x Hx. by apply Hdep', Hdep1.
    + lia.
    + intros id0 d0 Hin0.
      apply elem_of_cons in Hin0 as [[= -> ->]|Hin].
      * split; [fold lvd; lia|by apply Hdep'].
      * by apply (Hall id0 d0).
    + destruct Hor as [->|(id' & d' & Hin & ->)].
      * subst b1. destruct (Z.leb_spec b lvd); [|by left].
        right. exists id, d. split; [left|done].
      * right. exists id', d'. split; [by right|done].
  - cbn [foldM]. unfold mbind at 1, M_bind at 1, mret at 1, M_ret at 1.
    destruct (IH b s Hlv) as (b' & s' & H & Hlv' & Hex' & Hdep' & Hle & Hall & Hor).
    { intros id' d' Hin. eapply Hl. by right. }
    exists b', s'. split; [exact H|]. split_and!; try done.
    + intros id0 d0 Hin0.
      apply elem_of_cons in Hin0 as [[=]|Hin]. by apply (Hall id0 d0).
    + destruct Hor as [->|(id' & d' & Hin & ->)]; [by left|].
      right. exists id', d'. split; [by right|done].
Qed.

(** X10. [establishDependencies] gives an observable a level strictly above
    that of each of its live dependencies, and registers it as a dependent of
    each; the level is 0 without live dependencies and otherwise one more than
    the level of one of them; no other level changes. *)
Theorem level_is_above_dependencies (obs : nat) (s : state) o :
  observables s !! obs = Some o ->
  dependencies_exist obs s ->
  exists s' lv,
    establishDependencies obs s = Ok tt s'
    /\ level_of s' obs = Some lv
    /\ (forall id d, (id, Some d) ∈ default [] (o_dependencies o) ->
          (to_int32 (default 0%Z (level_of s d)) < lv)%Z
          /\ dependent_live d obs s' = true)
    /\ (lv = 0%Z \/ exists id d, (id, Some d) ∈ default [] (o_dependencies o)
                     /\ lv = (1 + to_int32 (default 0%Z (level_of s d)))%Z)
    /\ (forall x, x <> obs -> level_of s' x = level_of s x).
Proof.
  intros Ho (o' & Ho' & Hl). simplify_eq.
  unfold establishDependencies.
  rewrite (bind_Ok _ _ _ _ _ (getObs_Some _ _ _ Ho)).
  destruct (establish_loop_levels obs s _ 0%Z s (fun _ => eq_refl) Hl)
    as (lv & s1 & H1 & Hlv & Hex & _ & _ & Hall & Hor).
  rewrite (bind_Ok _ _ _ _ _ H1).
  destruct (Hex obs) as [o1 Ho1]; [eauto|].
  rewrite (updObs_Some _ _ _ _ Ho1).
  eexists _, lv. split; [reflexivity|]. split_and!.
  - unfold level_of. cbn. by rewrite lookup_insert_eq.
  - intros id d Hin. destruct (Hall id d Hin) as [Hlt Hdep]. split; [exact Hlt|].
    unfold dependent_live in *. cbn.
    destruct (decide (d = obs)) as [->|Hne].
    + rewrite lookup_insert_eq. rewrite Ho1 in Hdep. by destruct o1.
    + by rewrite lookup_insert_ne.
  - exact Hor.
  - intros x Hx. rewrite <- Hlv. unfold level_of. cbn. by rewrite lookup_insert_ne.
Qed.

Lemma level_is_above_dependencies_witness :
  exists s' lv,
    establishDependencies 3 diamond_state = Ok tt s'
    /\ level_of s' 3 = Some lv
    /\ (to_int32 (default 0%Z (level_of diamond_state 2)) < lv)%Z.
Proof.
  edestruct (fun o => level_is_above_dependencies 3 diamond_state o)
    as (s' & lv & H & Hlv & Hall & _).
  - vm_compute. reflexivity.
  - eapply dependencies_exist_dec; vm_compute; reflexivity.
  - exists s', lv. split; [exact H|]. split; [exact Hlv|].
    apply (Hall 2 2). vm_compute. right. left.
Defined.

(** ** Text nodes *)

Lemma isComponentDom_Some (s : state) dom n :
  nodes s !! dom = Some n ->
  isComponentDom dom s = Ok (negb (Nat.eqb (n_componentID n) 0)) s.
Proof.
  intros E. unfold isComponentDom. by rewrite (bind_Ok _ _ _ _ _ (getNode_Some _ _ _ E)).
Qed.

(** [patchText] on a text node that is not the root of a component. *)
Lemma patchText_reuse_eq (content : jsval) (txt : string)
    (dom : nat) (n : node) (parent : option nat) (s : state) :
  toString content s = Ok txt s ->
  nodes s !! dom = Some n -> n_nodeName n = "#text" -> n_componentID n = 0 ->
  patchText content (Some dom) parent s
  = Ok (Some dom) (set_nodes (<[dom := set_n_nodeValue txt n]> (nodes s)) s).
Proof.
  intros Htxt Hn Hname Hid. unfold patchText.
  rewrite (bind_Ok _ _ _ _ _ Htxt).
  erewrite bind_Ok.
  2:{ rewrite (bind_Ok _ _ _ _ _ (getNode_Some _ _ _ Hn)), Hname. cbn.
      rewrite (bind_Ok _ _ _ _ _ (isComponentDom_Some _ _ _ Hn)).
      rewrite Hid. reflexivity. }
  cbn. rewrite (bind_Ok _ _ _ _ _ (updNode_Some _ _ _ _ Hn)).
  assert (E : (if negb (String.eqb (n_nodeValue n) txt) then set_n_nodeValue txt n else n)
              = set_n_nodeValue txt n).
  { destruct (String.eqb_spec (n_nodeValue n) txt) as [<-|]; [by destruct n|done]. }
  by rewrite E.
Qed.

(** X11. [patchText] on a text node that is not the root of a component keeps
    the node and sets its value: the same node is returned, no node is created
    and none is queued for stripping; when the text is the same, nothing
    changes. *)
Theorem patchText_reuses_text_node (content : jsval) (txt : string)
    (dom : nat) (n : node) (parent : option nat) (s : state) :
  toString content s = Ok txt s ->
  nodes s !! dom = Some n -> n_nodeName n = "#text" -> n_componentID n = 0 ->
  exists s',
    patchText content (Some dom) parent s = Ok (Some dom) s'
    /\ nodes s' !! dom = Some (set_n_nodeValue txt n)
    /\ (forall x, x <> dom -> nodes s' !! x = nodes s !! x)
    /\ nextNode s' = nextNode s
    /\ nodesPendingStripping s' = nodesPendingStripping s
    /\ (n_nodeValue n = txt -> nodes s' = nodes s).
Proof.
  intros Htxt Hn Hname Hid.
  rewrite (patchText_reuse_eq content txt dom n parent s Htxt Hn Hname Hid).
  eexists. split; [reflexivity|]. proj_simpl. split_and!; try done.
  - by rewrite lookup_insert_eq.
  - intros x Hx. by rewrite lookup_insert_ne.
  - intros <-. apply insert_id. rewrite Hn. by destruct n.
Qed.

Lemma patchText_reuses_text_node_witness :
  exists s',
    patchText (VStr "new") (Some 1) None (final_state (createTextNode "old" initial))
    = Ok (Some 1) s'
    /\ nodes s' !! 1 = Some (mkNode "#text" "new" None false None 0 None []).
Proof.
  edestruct (patchText_reuses_text_node (VStr "new") "new" 1
               (mkNode "#text" "old" None false None 0 None []) None
               (final_state (createTextNode "old" initial)))
    as (s' & H & Hn & _); [reflexivity..|].
  exists s'. split; [exact H|exact Hn].
Defined.

Lemma createTextNode_eq (s : state) txt :
  createTextNode txt s
  = Ok (nextNode s)
      (set_nodes (<[nextNode s:=mkNode "#text" txt None false None 0 None []]> (nodes s))
         (set_nextNode (S (nextNode s)) s)).
Proof. by destruct s. Qed.

(** X12. [patchText] without a node, on a node that is not a text node, or
    on the root of a component (and with no parent) creates a fresh text node
    and returns it; the old node is queued for stripping unless it is the root
    of a component. *)
Theorem patchText_replaces_other_nodes (content : jsval) (txt : string)
    (dom : option nat) (s : state) :
  toString content s = Ok txt s ->
  nodes s !! nextNode s = None ->
  match dom with
  | None => True
  | Some d => exists n, nodes s !! d = Some n
                /\ (n_nodeName n <> "#text" \/ n_componentID n <> 0)
  end ->
  exists s',
    patchText content dom None s = Ok (Some (nextNode s)) s'
    /\ nodes s' = <[nextNode s := mkNode "#text" txt None false None 0 None []]> (nodes s)
    /\ nextNode s' = S (nextNode s)
    /\ nodesPendingStripping s'
       = nodesPendingStripping s
         ++ match dom with
            | Some d => match nodes s !! d with
                        | Some n => if Nat.eqb (n_componentID n) 0 then [d] else []
                        | None => []
                        end
            | None => []
            end.
Proof.
  intros Htxt Hfresh Hdom. unfold patchText.
  rewrite (bind_Ok _ _ _ _ _ Htxt).
  assert (Hreuse : match dom with
                   | None => mret false
                   | Some dom =>
                       n ← getNode dom;
                       if negb (String.eqb (n_nodeName n) "#text") then mret false
                       else isCmpt ← isComponentDom dom; mret (negb isCmpt)
                   end s = Ok false s).
  { destruct dom as [d|]; [|done]. destruct Hdom as (n & Hn & Hor).
    rewrite (bind_Ok _ _ _ _ _ (getNode_Some _ _ _ Hn)).
    destruct (String.eqb_spec (n_nodeName n) "#text") as [E|]; [|done]. cbn.
    rewrite (bind_Ok _ _ _ _ _ (isComponentDom_Some _ _ _ Hn)).
    destruct Hor as [|Hid]; [done|].
    destruct (Nat.eqb_spec (n_componentID n) 0); done. }
  rewrite (bind_Ok _ _ _ _ _ Hreuse). cbn.
  rewrite (bind_Ok _ _ _ _ _ (createTextNode_eq s txt)).
  set (s1 := set_nodes _ _).
  assert (Hn1 : nodes s1 = <[nextNode s := mkNode "#text" txt None false None 0 None []]> (nodes s))
    by (subst s1; by destruct s).
  assert (Hnext1 : nextNode s1 = S (nextNode s)) by (subst s1; by destruct s).
  assert (Hstrip1 : nodesPendingStripping s1 = nodesPendingStripping s)
    by (subst s1; by destruct s).
  unfold patchNode.
  destruct dom as [d|].
  - destruct Hdom as (n & Hn & _).
    assert (Hne : d <> nextNode s) by (intros ->; congruence).
    rewrite bool_decide_eq_false_2 by congruence.
    assert (Hn' : nodes s1 !! d = Some n) by (rewrite Hn1; by rewrite lookup_insert_ne).
    unfold enqueueNodeForStripping.
    unfold mbind at 1 2, M_bind at 1 2.
    rewrite (bind_Ok _ _ _ _ _ (isComponentDom_Some _ _ _ Hn')).
    rewrite Hn.
    destruct (Nat.eqb (n_componentID n) 0); cbn.
    + unfold modify, mbind, M_bind, mret, M_ret. eexists. split; [reflexivity|].
      clear Hn1 Hnext1 Hstrip1 Hn'. subst s1. destruct s; cbn in *.
      match goal with |- context [Nat.eqb ?x 0] => destruct (Nat.eqb x 0) end; done.
    + unfold mbind, M_bind, mret, M_ret. eexists. split; [reflexivity|].
      rewrite app_nil_r. done.
  - rewrite bool_decide_eq_false_2 by done. cbn.
    unfold mbind, M_bind, mret, M_ret. eexists. split; [reflexivity|].
    rewrite app_nil_r. done.
Qed.

Lemma patchText_replaces_other_nodes_witness :
  exists s',
    patchText (VStr "new") (Some 1) None (final_state (createElement "DIV" initial))
    = Ok (Some 2) s'
    /\ nodesPendingStripping s' = [1].
Proof.
  edestruct (patchText_replaces_other_nodes (VStr "new") "new" (Some 1)
               (final_state (createElement "DIV" initial)))
    as (s' & H & _ & _ & Hs); [reflexivity|reflexivity| |].
  - eexists. split; [reflexivity|]. left. discriminate.
  - exists s'. split; [exact H|exact Hs].
Defined.

(** ** Keyed children *)

(** *** Lists of children *)

Lemma remove_node_notin r (l : list nat) : r ∉ l -> remove_node r l = l.
Proof.
  unfold remove_node. induction l as [|y l IH]; [done|]. intros H.
  apply not_elem_of_cons in H as [H1 H2].
  rewrite filter_cons_True by congruence. by rewrite IH.
Qed.


Lemma remove_node_cons_eq r (l : list nat) :
  remove_node r (r :: l) = remove_node r l.
Proof. unfold remove_node. rewrite filter_cons_False; [done|]. by intros H. Qed.

Lemma remove_node_app r (l1 l2 : list nat) :
  remove_node r (l1 ++ l2) = remove_node r l1 ++ remove_node r l2.
Proof. apply filter_app. Qed.


Lemma next_in_app c (P X : list nat) :
  c ∉ P -> next_in c (P ++ c :: X) = head X.
Proof.
  induction P as [|y P IH]; cbn [app next_in]; intros H.
  - by rewrite Nat.eqb_refl.
  - apply not_elem_of_cons in H as [H1 H2].
    destruct (Nat.eqb_spec c y); [done|]. by apply IH.
Qed.





(** *** [keyToChild] *)






(** *** The document after a move *)

Lemma detach_child (s : state) p pn new nn :
  nodes s !! p = Some pn -> nodes s !! new = Some nn -> new ≠ p ->
  n_parentNode nn = Some p ->
  detach new s
  = Ok tt (set_nodes
             (<[new := set_n_parentNode None nn]>
                (<[p := set_n_childNodes (remove_node new (n_childNodes pn)) pn]>
                   (nodes s))) s).
Proof.
  intros Hp Hn Hne Hpar. unfold detach.
  rewrite (bind_Ok _ _ _ _ _ (getNode_Some _ _ _ Hn)), Hpar.
  rewrite (bind_Ok _ _ _ _ _ (updNode_Some _ _ _ _ Hp)).
  erewrite updNode_Some; [reflexivity|].
  proj_simpl. rewrite lookup_insert_ne by done. exact Hn.
Qed.

Lemma detach_orphan (s : state) new nn :
  nodes s !! new = Some nn -> n_parentNode nn = None -> detach new s = Ok tt s.
Proof.
  intros Hn Hpar. unfold detach.
  by rewrite (bind_Ok _ _ _ _ _ (getNode_Some _ _ _ Hn)), Hpar.
Qed.

(** [detach new] followed by an update of the children of [p] and of the
    parent of [new]. *)
Lemma move_exact (s : state) p pn new nn (place : list nat -> list nat) :
  nodes s !! p = Some pn -> nodes s !! new = Some nn -> new ≠ p ->
  n_parentNode nn = Some p \/ (n_parentNode nn = None /\ new ∉ n_childNodes pn) ->
  exists s',
    (detach new;;
     updNode p (fun pn => set_n_childNodes (place (n_childNodes pn)) pn);;
     updNode new (set_n_parentNode (Some p))) s = Ok tt s'
    /\ nodes s'
       = <[new := set_n_parentNode (Some p) nn]>
           (<[p := set_n_childNodes (place (remove_node new (n_childNodes pn))) pn]>
              (nodes s))
    /\ nextNode s' = nextNode s /\ components s' = components s
    /\ nodesPendingStripping s' = nodesPendingStripping s.
Proof.
  intros Hp Hn Hne [Hpar|[Hpar Hnot]].
  - rewrite (bind_Ok _ _ _ _ _ (detach_child s p pn new nn Hp Hn Hne Hpar)).
    erewrite bind_Ok; cycle 1.
    { apply updNode_Some. proj_simpl.
      rewrite lookup_insert_ne by done. apply lookup_insert_eq. }
    erewrite updNode_Some; cycle 1.
    { proj_simpl. rewrite lookup_insert_ne by done. apply lookup_insert_eq. }
    eexists. split; [reflexivity|]. proj_simpl. split_and!; try done.
    apply map_eq. intros i.
    destruct (decide (i = new)) as [->|Hi]; [by rewrite !lookup_insert_eq|].
    rewrite !(lookup_insert_ne _ new) by done.
    destruct (decide (i = p)) as [->|Hi']; [by rewrite !lookup_insert_eq|].
    rewrite !(lookup_insert_ne _ p) by done. by rewrite !lookup_insert_ne.
  - rewrite (bind_Ok _ _ _ _ _ (detach_orphan s new nn Hn Hpar)).
    rewrite (bind_Ok _ _ _ _ _ (updNode_Some _ _ _ _ Hp)).
    erewrite updNode_Some; cycle 1.
    { proj_simpl. rewrite lookup_insert_ne by done. exact Hn. }
    eexists. split; [reflexivity|]. proj_simpl. split_and!; try done.
    by rewrite remove_node_notin.
Qed.


Lemma appendChild_exact (s : state) p pn new nn :
  nodes s !! p = Some pn -> nodes s !! new = Some nn -> new ≠ p ->
  n_parentNode nn = Some p \/ (n_parentNode nn = None /\ new ∉ n_childNodes pn) ->
  exists s', appendChild p new s = Ok tt s'
    /\ nodes s'
       = <[new := set_n_parentNode (Some p) nn]>
           (<[p := set_n_childNodes (remove_node new (n_childNodes pn) ++ [new]) pn]>
              (nodes s))
    /\ nextNode s' = nextNode s /\ components s' = components s
    /\ nodesPendingStripping s' = nodesPendingStripping s.
Proof.
  intros Hp Hn Hne Hpar. unfold appendChild.
  rewrite (bind_Ok _ _ _ _ _ (getNode_Some _ _ _ Hp)).
  exact (move_exact s p pn new nn (fun l => l ++ [new]) Hp Hn Hne Hpar).
Qed.

(** *** The second loop *)

















(** *** Positional patching of texts *)

Lemma siblings_from_app c (P X : list nat) :
  c ∉ P -> siblings_from c (P ++ c :: X) = c :: X.
Proof.
  induction P as [|y P IH]; cbn [app siblings_from]; intros H.
  - by rewrite Nat.eqb_refl.
  - apply not_elem_of_cons in H as [H1 H2].
    destruct (Nat.eqb_spec c y); [done|]. by apply IH.
Qed.

Lemma elem_of_drop_in {A} (x : A) n (l : list A) : x ∈ drop n l -> x ∈ l.
Proof. intros H. rewrite <- (take_drop n l). apply elem_of_app. by right. Qed.

Lemma next_in_last c (P : list nat) : c ∉ P -> next_in c (P ++ [c]) = None.
Proof. intros H. by rewrite next_in_app. Qed.

Lemma patchFromVdom_rec_text (fuel : nat) (t : string) (dom : option nat) (p : nat)
    (s s' : state) (r : option nat) :
  patchText (VStr t) dom (Some p) s = Ok r s' ->
  patchFromVdom_rec (exec (S fuel)) (VStr t) dom (Some p) s = Ok r s'.
Proof.
  intros H. unfold patchFromVdom_rec. rewrite exec_S. unfold step.
  assert (E : as_node (of_node dom) = dom) by (by destruct dom).
  rewrite E. cbn [as_node of_node patchFromVdom].
  unfold mbind, M_bind. rewrite H. cbn. by destruct r.
Qed.

Lemma text_children_below (s : state) p l c :
  text_children s p l -> c ∈ l -> c < nextNode s /\ c ≠ p.
Proof.
  intros (_ & Hnot & _ & Hch & Hfresh) Hc. split.
  - destruct (Hch c Hc) as (cn & Hcn & _).
    destruct (decide (c < nextNode s)) as [|Hge]; [done|].
    rewrite Hfresh in Hcn by lia. done.
  - by intros ->.
Qed.

(** A text is patched into the live text node [c]. *)
Lemma patchText_in_place (s : state) p P c R t :
  text_children s p (P ++ c :: R) ->
  exists s',
    patchText (VStr t) (Some c) (Some p) s = Ok (Some c) s'
    /\ text_children s' p (P ++ c :: R)
    /\ node_value s' c = Some t
    /\ (forall x, x ≠ c -> nodes s' !! x = nodes s !! x)
    /\ nextNode s' = nextNode s
    /\ nodesPendingStripping s' = nodesPendingStripping s.
Proof.
  intros Htc. pose proof Htc as ((pn & Hp & Hl) & Hnot & Hnd & Hch & Hfresh).
  assert (Hc : c ∈ P ++ c :: R) by (apply elem_of_app; right; left).
  destruct (Hch c Hc) as (cn & Hcn & Hname & Hid & Hpar).
  rewrite (patchText_reuse_eq (VStr t) t c cn (Some p) s eq_refl Hcn Hname Hid).
  set (s' := set_nodes _ s).
  assert (Hn' : nodes s' !! c = Some (set_n_nodeValue t cn))
    by (subst s'; proj_simpl; by rewrite lookup_insert_eq).
  assert (Ho' : forall x, x ≠ c -> nodes s' !! x = nodes s !! x)
    by (intros x Hx; subst s'; proj_simpl; by rewrite lookup_insert_ne).
  assert (Hnext : nextNode s' = nextNode s) by done.
  exists s'. split; [done|]. split_and!; try done.
  - assert (Hcp : c ≠ p) by (by intros ->).
    split_and!; try done.
    + exists pn. by rewrite Ho'.
    + intros x Hx. destruct (decide (x = c)) as [->|Hxc].
      * eexists. split; [exact Hn'|]. by destruct cn.
      * rewrite Ho' by done. by apply Hch.
    + intros i Hi. rewrite Hnext in Hi.
      rewrite Ho'; [by apply Hfresh|]. intros ->.
      rewrite Hfresh in Hcn by done. done.
  - unfold node_value. by rewrite Hn'.
Qed.

(** A text is patched where no live child is left: a text node is added. *)
Lemma patchText_append (s : state) p P t :
  text_children s p P ->
  exists s',
    patchText (VStr t) None (Some p) s = Ok (Some (nextNode s)) s'
    /\ text_children s' p (P ++ [nextNode s])
    /\ node_value s' (nextNode s) = Some t
    /\ (forall x, x ≠ p -> x ≠ nextNode s -> nodes s' !! x = nodes s !! x)
    /\ nextNode s' = S (nextNode s)
    /\ nodesPendingStripping s' = nodesPendingStripping s.
Proof.
  intros Htc. pose proof Htc as ((pn & Hp & Hl) & Hnot & Hnd & Hch & Hfresh).
  set (d := nextNode s).
  assert (Hdp : d ≠ p).
  { intros E. rewrite <- E, Hfresh in Hp by (unfold d; lia). done. }
  assert (HdP : d ∉ P).
  { intros Hd. destruct (text_children_below s p P d Htc Hd) as [Hlt _].
    unfold d in Hlt. lia. }
  unfold patchText. cbn [toString]. unfold mbind at 1, M_bind at 1, mret at 1, M_ret at 1.
  unfold mbind at 1, M_bind at 1, mret at 1, M_ret at 1.
  rewrite (bind_Ok _ _ _ _ _ (createTextNode_eq s t)). fold d.
  set (s1 := set_nodes _ _).
  assert (Hp1 : nodes s1 !! p = Some pn).
  { subst s1. proj_simpl. by rewrite lookup_insert_ne. }
  assert (Hd1 : nodes s1 !! d = Some (mkNode "#text" t None false None 0 None [])).
  { subst s1. proj_simpl. by rewrite lookup_insert_eq. }
  destruct (appendChild_exact s1 p pn d _ Hp1 Hd1 Hdp)
    as (s2 & H2 & Hn2 & Hx2 & Hc2 & Hs2).
  { right. split; [done|]. by rewrite Hl. }
  assert (Hpn : patchNode (Some d) None (Some p) s1 = Ok tt s2).
  { unfold patchNode. rewrite bool_decide_eq_false_2 by done.
    cbn [enqueueNodeForStripping].
    unfold mbind at 1, M_bind at 1, mret at 1, M_ret at 1. exact H2. }
  rewrite (bind_Ok _ _ _ _ _ Hpn).
  rewrite Hl, remove_node_notin in Hn2 by done.
  exists s2. split; [done|].
  assert (Hnext2 : nextNode s2 = S d) by (rewrite Hx2; subst s1; by destruct s).
  assert (Ho2 : forall x, x ≠ p -> x ≠ d -> nodes s2 !! x = nodes s !! x).
  { intros x Hx1 Hx3. rewrite Hn2, !lookup_insert_ne by done.
    subst s1. proj_simpl. by rewrite lookup_insert_ne. }
  split_and!; try done.
  - split_and!.
    + eexists. split; [by rewrite Hn2, lookup_insert_ne, lookup_insert_eq|]. done.
    + intros Hin. apply elem_of_app in Hin as [Hin|Hin]; [done|].
      apply list_elem_of_singleton in Hin. done.
    + apply NoDup_app. split_and!; [done| |apply NoDup_singleton].
      intros x Hx Hx'. apply list_elem_of_singleton in Hx' as ->. done.
    + intros x Hx. apply elem_of_app in Hx as [Hx|Hx].
      * destruct (text_children_below s p P x Htc Hx) as [Hlt Hxp].
        rewrite Ho2; [by apply Hch|done|unfold d; lia].
      * apply list_elem_of_singleton in Hx as ->.
        eexists. split; [by rewrite Hn2, lookup_insert_eq|]. done.
    + intros i Hi. rewrite Hnext2 in Hi. rewrite Ho2; [apply Hfresh; unfold d in *; lia| |lia].
      intros ->. rewrite Hfresh in Hp by (unfold d in *; lia). done.
  - unfold node_value. by rewrite Hn2, lookup_insert_eq.
Qed.

Lemma nextSibling_child (s : state) p pn c cn (P R : list nat) :
  nodes s !! p = Some pn -> n_childNodes pn = P ++ c :: R -> c ∉ P ->
  nodes s !! c = Some cn -> n_parentNode cn = Some p ->
  nextSibling c s = Ok (head R) s.
Proof.
  intros Hp Hl HcP Hcn Hpar. unfold nextSibling.
  rewrite (bind_Ok _ _ _ _ _ (getNode_Some _ _ _ Hcn)), Hpar.
  rewrite (bind_Ok _ _ _ _ _ (getNode_Some _ _ _ Hp)), Hl.
  by rewrite next_in_app.
Qed.

(** The loop of [patchChildren] over texts, [P] being the children it has
    passed and [R] those still ahead. *)
Lemma patchChildren_loop_texts (fuel : nat) (p : nat) : forall texts P R (s : state),
  text_children s p (P ++ R) ->
  exists s',
    patchChildren_loop (exec (S fuel)) p (VStr <$> texts) (head R) s
    = Ok (head (drop (length texts) R)) s'
    /\ text_children s' p
         (P ++ (take (length texts) R ++ seq (nextNode s) (length texts - length R))
            ++ drop (length texts) R)
    /\ Forall2 (fun c t => node_value s' c = Some t)
         (take (length texts) R ++ seq (nextNode s) (length texts - length R)) texts
    /\ (forall x, x ∈ P \/ x ∈ drop (length texts) R -> nodes s' !! x = nodes s !! x)
    /\ nextNode s' = nextNode s + (length texts - length R)
    /\ nodesPendingStripping s' = nodesPendingStripping s.
Proof.
  induction texts as [|t ts IH]; intros P R s Htc.
  - exists s. cbn. rewrite Nat.add_0_r. split_and!; done.
  - cbn [fmap list_fmap patchChildren_loop length].
    pose proof Htc as ((pn & Hp & Hl) & Hnot & Hnd & Hch & Hfresh).
    destruct R as [|c R]; cbn [head].
    + (* no live child is left *)
      rewrite app_nil_r in Htc, Hl.
      destruct (patchText_append s p P t Htc)
        as (s1 & H1 & Htc1 & Hv1 & Ho1 & Hn1 & Hs1).
      rewrite (bind_Ok _ _ _ _ _ (patchFromVdom_rec_text fuel t None p s s1 _ H1)).
      set (d := nextNode s) in *.
      pose proof Htc1 as ((pn1 & Hp1 & Hl1) & Hnot1 & Hnd1 & Hch1 & Hfresh1).
      assert (HdP : d ∉ P).
      { apply NoDup_app in Hnd1 as (_ & Hdis & _). intros Hd.
        apply (Hdis d Hd). left. }
      destruct (Hch1 d) as (dn & Hdn & _ & _ & Hdpar); [apply elem_of_app; right; left|].
      assert (Hns : nextSibling d s1 = Ok (head []) s1).
      { by apply (nextSibling_child s1 p pn1 d dn P []). }
      rewrite (bind_Ok _ _ _ _ _ Hns).
      assert (Htc1' : text_children s1 p ((P ++ [d]) ++ [])) by (by rewrite app_nil_r).
      destruct (IH (P ++ [d]) [] s1 Htc1')
        as (s' & Hs' & Htc' & Hv' & Ho' & Hn' & Hstrip').
      rewrite drop_nil in Hs'. rewrite take_nil, drop_nil in Htc'.
      rewrite take_nil in Hv'. rewrite drop_nil in Ho'.
      cbn [length] in Htc', Hv', Hn'. rewrite Nat.sub_0_r, Hn1 in Htc', Hv', Hn'.
      cbn [app] in Htc', Hv'. rewrite app_nil_r, <- app_assoc in Htc'.
      cbn [length take drop Nat.sub seq app head]. rewrite app_nil_r.
      exists s'. split; [exact Hs'|].
      split_and!.
      * exact Htc'.
      * constructor; [|exact Hv'].
        unfold node_value in *. rewrite Ho'; [done|]. left. apply elem_of_app. right. left.
      * intros x [Hx|Hx]; [|by apply elem_of_nil in Hx].
        rewrite Ho' by (left; apply elem_of_app; by left).
        destruct (text_children_below s p P x Htc Hx) as [Hlt Hxp].
        apply Ho1; [done|]. unfold d. lia.
      * lia.
      * congruence.
    + (* the live child [c] *)
      assert (HcP : c ∉ P).
      { apply NoDup_app in Hnd as (_ & Hdis & _). intros Hc.
        apply (Hdis c Hc). left. }
      assert (HcR : c ∉ R).
      { apply NoDup_app in Hnd as (_ & _ & Hnd'). by apply NoDup_cons in Hnd' as [? _]. }
      destruct (patchText_in_place s p P c R t Htc)
        as (s1 & H1 & Htc1 & Hv1 & Ho1 & Hn1 & Hs1).
      rewrite (bind_Ok _ _ _ _ _ (patchFromVdom_rec_text fuel t (Some c) p s s1 _ H1)).
      pose proof Htc1 as ((pn1 & Hp1 & Hl1) & Hnot1 & Hnd1 & Hch1 & Hfresh1).
      destruct (Hch1 c) as (cn & Hcn & _ & _ & Hcpar); [apply elem_of_app; right; left|].
      rewrite (bind_Ok _ _ _ _ _ (nextSibling_child s1 p pn1 c cn P R Hp1 Hl1 HcP Hcn Hcpar)).
      assert (Htc1' : text_children s1 p ((P ++ [c]) ++ R)).
      { rewrite <- app_assoc. exact Htc1. }
      destruct (IH (P ++ [c]) R s1 Htc1')
        as (s' & Hs' & Htc' & Hv' & Ho' & Hn' & Hstrip').
      exists s'. split; [exact Hs'|].
      cbn [take drop length Nat.sub app]. rewrite Hn1 in *.
      split_and!.
      * rewrite <- !app_assoc in Htc'. rewrite <- !app_assoc. exact Htc'.
      * constructor; [|exact Hv'].
        unfold node_value in *. rewrite Ho'; [done|]. left. apply elem_of_app. right. left.
      * intros x Hx. rewrite Ho'.
        -- apply Ho1. destruct Hx as [Hx|Hx]; [by intros ->|].
           intros ->. apply HcR. by eapply elem_of_drop_in.
        -- destruct Hx as [Hx|Hx]; [left; apply elem_of_app; by left|by right].
      * exact Hn'.
      * congruence.
Qed.

(** The second loop of [patchChildren]: the children [rest] are removed. *)
Lemma remove_extraneous (p : nat) : forall rest P (s : state),
  text_children s p (P ++ rest) ->
  exists s',
    forM_ rest (fun echild => patchNode None (Some echild) (Some p)) s = Ok tt s'
    /\ text_children s' p P
    /\ nodesPendingStripping s' = nodesPendingStripping s ++ rest
    /\ (forall c, c ∈ rest -> exists cn, nodes s' !! c = Some cn /\ n_parentNode cn = None)
    /\ (forall x, x ≠ p -> x ∉ rest -> nodes s' !! x = nodes s !! x)
    /\ nextNode s' = nextNode s.
Proof.
  induction rest as [|x rest IH]; intros P s Htc.
  - exists s. rewrite !app_nil_r in *. split_and!; try done.
    intros c Hc. by apply elem_of_nil in Hc.
  - pose proof Htc as ((pn & Hp & Hl) & Hnot & Hnd & Hch & Hfresh).
    assert (Hx : x ∈ P ++ x :: rest) by (apply elem_of_app; right; left).
    destruct (Hch x Hx) as (xn & Hxn & Hname & Hid & Hpar).
    assert (Hxp : x ≠ p) by (by intros ->).
    assert (HxP : x ∉ P).
    { apply NoDup_app in Hnd as (_ & Hdis & _). intros Hc. apply (Hdis x Hc). left. }
    assert (HxR : x ∉ rest).
    { apply NoDup_app in Hnd as (_ & _ & Hnd'). by apply NoDup_cons in Hnd' as [? _]. }
    (* one turn of the loop *)
    set (s1 := set_nodes
                 (<[x := set_n_parentNode None xn]>
                    (<[p := set_n_childNodes (P ++ rest) pn]> (nodes s)))
                 (set_stripNodesID (if Nat.eqb (stripNodesID s) 0 then 1 else stripNodesID s)
                    (set_nodesPendingStripping (nodesPendingStripping s ++ [x]) s))).
    set (s0 := set_stripNodesID (if Nat.eqb (stripNodesID s) 0 then 1 else stripNodesID s)
                 (set_nodesPendingStripping (nodesPendingStripping s ++ [x]) s)).
    assert (Henq : enqueueNodeForStripping (Some x) s = Ok tt s0).
    { unfold enqueueNodeForStripping.
      rewrite (bind_Ok _ _ _ _ _ (isComponentDom_Some _ _ _ Hxn)), Hid. cbn [Nat.eqb negb].
      unfold modify, mbind, M_bind. subst s0. f_equal. destruct s; cbn.
      by destruct (Nat.eqb _ 0). }
    assert (Hn0 : nodes s0 = nodes s) by done.
    assert (H1 : patchNode None (Some x) (Some p) s = Ok tt s1).
    { unfold patchNode. rewrite bool_decide_eq_false_2 by done.
      rewrite (bind_Ok _ _ _ _ _ Henq).
      unfold removeChild.
      rewrite (bind_Ok _ _ _ _ _ (getNode_Some s0 p pn Hp)).
      rewrite bool_decide_eq_true_2 by (by rewrite Hl).
      rewrite (bind_Ok _ _ _ _ _ (updNode_Some s0 p pn _ Hp)).
      erewrite updNode_Some; cycle 1.
      { proj_simpl. rewrite lookup_insert_ne by done. exact Hxn. }
      rewrite Hl, remove_node_app, (remove_node_notin x P), remove_node_cons_eq,
        (remove_node_notin x rest) by done.
      reflexivity. }
    assert (Hn1 : nodes s1 = <[x := set_n_parentNode None xn]>
                               (<[p := set_n_childNodes (P ++ rest) pn]> (nodes s)))
      by done.
    assert (Htc1 : text_children s1 p (P ++ rest)).
    { split_and!.
      - eexists. split; [by rewrite Hn1, lookup_insert_ne, lookup_insert_eq|]. done.
      - intros Hin. apply Hnot. apply elem_of_app in Hin as [?|?]; apply elem_of_app;
          [by left|right; by right].
      - apply NoDup_app in Hnd as (H1' & Hdis & Hnd').
        apply NoDup_cons in Hnd' as [_ Hnd'].
        apply NoDup_app. split_and!; [done| |done].
        intros y Hy Hy'. apply (Hdis y Hy). by right.
      - intros c Hc.
        assert (Hc' : c ∈ P ++ x :: rest).
        { apply elem_of_app in Hc as [?|?]; apply elem_of_app; [by left|right; by right]. }
        assert (c ≠ x).
        { intros ->. apply elem_of_app in Hc as [?|?]; done. }
        rewrite Hn1, !lookup_insert_ne; [by apply Hch|by intros ->|done].
      - intros i Hi. assert (nextNode s1 = nextNode s) as E by done. rewrite E in Hi.
        rewrite Hn1, !lookup_insert_ne; [by apply Hfresh| |].
        + intros ->. rewrite Hfresh in Hp by done. done.
        + intros ->. rewrite Hfresh in Hxn by done. done. }
    cbn [forM_]. rewrite (bind_Ok _ _ _ _ _ H1).
    destruct (IH P s1 Htc1) as (s' & Hs' & Htc' & Hstrip' & Hgone' & Ho' & Hn').
    exists s'. split; [exact Hs'|]. split_and!.
    + exact Htc'.
    + rewrite Hstrip'. subst s1. proj_simpl. by rewrite <- app_assoc.
    + intros c Hc. apply elem_of_cons in Hc as [->|Hc]; [|by apply Hgone'].
      rewrite Ho' by done. rewrite Hn1, lookup_insert_eq. by eexists.
    + intros y Hy1 Hy2. apply not_elem_of_cons in Hy2 as [Hy2 Hy3].
      rewrite Ho' by done. by rewrite Hn1, !lookup_insert_ne.
    + rewrite Hn'. done.
Qed.

(** X14. [patchChildren], past the keyed reordering, on text children and
    vdoms that are texts: the first children are kept and given the texts in
    order, a text node is added for each text beyond the children there were,
    the children beyond the texts are removed from the parent and queued for
    stripping in their order. *)
Theorem texts_are_patched_by_position (fuel : nat) (s : state) (p : nat)
    (texts : list string) :
  text_children s p (children_of s p) ->
  exists s',
    patchChildren_positional (exec (S fuel)) p (VStr <$> texts) s = Ok tt s'
    /\ children_of s' p
       = take (length texts) (children_of s p)
         ++ seq (nextNode s) (length texts - length (children_of s p))
    /\ Forall2 (fun c t => exists cn, nodes s' !! c = Some cn /\ n_nodeName cn = "#text"
                             /\ n_nodeValue cn = t /\ n_parentNode cn = Some p)
         (children_of s' p) texts
    /\ nodesPendingStripping s'
       = nodesPendingStripping s ++ drop (length texts) (children_of s p)
    /\ (forall c, c ∈ drop (length texts) (children_of s p) ->
          exists cn, nodes s' !! c = Some cn /\ n_parentNode cn = None).
Proof.
  intros Htc. pose proof Htc as ((pn & Hp & Hl) & Hnot & Hnd & Hch & Hfresh).
  assert (EL : children_of s p = n_childNodes pn) by (unfold children_of; by rewrite Hp).
  rewrite EL in *. clear EL. set (L := n_childNodes pn) in *.
  assert (Hfc : firstChild p s = Ok (head L) s).
  { unfold firstChild. by rewrite (bind_Ok _ _ _ _ _ (getNode_Some _ _ _ Hp)). }
  unfold patchChildren_positional. rewrite (bind_Ok _ _ _ _ _ Hfc).
  destruct (patchChildren_loop_texts fuel p texts [] L s Htc)
    as (s1 & H1 & Htc1 & Hv1 & Ho1 & Hn1 & Hs1).
  rewrite (bind_Ok _ _ _ _ _ H1). cbn [app] in Htc1.
  set (Pf := take (length texts) L ++ seq (nextNode s) (length texts - length L)) in *.
  assert (Hvals : forall (s' : state), text_children s' p Pf ->
    (forall x, x ∈ Pf -> nodes s' !! x = nodes s1 !! x) ->
    Forall2 (fun c t => exists cn, nodes s' !! c = Some cn /\ n_nodeName cn = "#text"
                          /\ n_nodeValue cn = t /\ n_parentNode cn = Some p) Pf texts).
  { intros s' (_ & _ & _ & Hch' & _) Hsame.
    apply Forall2_same_length_lookup in Hv1 as [Hlen Hlk].
    apply Forall2_same_length_lookup. split; [done|]. intros i c t Hci Hti.
    pose proof (Hlk i c t Hci Hti) as Hv. cbn in Hv.
    assert (Hc : c ∈ Pf) by (by eapply list_elem_of_lookup_2).
    destruct (Hch' c Hc) as (cn & Hcn & Hname & _ & Hpar).
    exists cn. split_and!; try done.
    unfold node_value in Hv. rewrite <- Hsame, Hcn in Hv by done. by injection Hv. }
  destruct (drop (length texts) L) as [|c rest] eqn:Ed; cbn [head].
  - exists s1. rewrite app_nil_r in *. split; [done|].
    assert (E1 : children_of s1 p = Pf).
    { destruct Htc1 as ((pn1 & Hp1 & Hl1) & _). unfold children_of. by rewrite Hp1. }
    rewrite E1. split_and!; try done.
    + by apply Hvals.
    + intros x Hx. by apply elem_of_nil in Hx.
  - pose proof Htc1 as ((pn1 & Hp1 & Hl1) & Hnot1 & Hnd1 & Hch1 & Hfresh1).
    rewrite (bind_Ok _ _ _ _ _ (getNode_Some _ _ _ Hp1)), Hl1.
    assert (HcP : c ∉ Pf).
    { apply NoDup_app in Hnd1 as (_ & Hdis & _). intros Hc. apply (Hdis c Hc). left. }
    rewrite siblings_from_app by done.
    destruct (remove_extraneous p (c :: rest) Pf s1 Htc1)
      as (s2 & H2 & Htc2 & Hstrip2 & Hgone2 & Ho2 & Hn2).
    exists s2. split; [exact H2|].
    assert (E2 : children_of s2 p = Pf).
    { destruct Htc2 as ((pn2 & Hp2 & Hl2) & _). unfold children_of. by rewrite Hp2. }
    rewrite E2. split_and!; try done.
    + apply Hvals; [done|]. intros x Hx. apply Ho2.
      * destruct Htc2 as (_ & Hnot2 & _). by intros ->.
      * apply NoDup_app in Hnd1 as (_ & Hdis & _). by apply Hdis.
    + by rewrite Hstrip2, Hs1.
Qed.

Lemma three_texts_dom_texts : text_children three_texts_dom 1 [2; 3; 4].
Proof.
  split_and!.
  - eexists. split; vm_compute; reflexivity.
  - intros H. repeat (apply elem_of_cons in H as [H|H]; [discriminate|]).
    by apply elem_of_nil in H.
  - repeat (apply NoDup_cons; split;
            [intros H; repeat (apply elem_of_cons in H as [H|H]; [discriminate|]);
             by apply elem_of_nil in H|]).
    apply NoDup_nil. done.
  - intros c H.
    repeat (apply elem_of_cons in H as [->|H];
            [eexists; split_and!; vm_compute; reflexivity|]).
    by apply elem_of_nil in H.
  - apply fresh_nodes_dec. vm_compute. reflexivity.
Qed.

Lemma texts_are_patched_by_position_witness :
  exists s',
    patchChildren_positional (exec 1) 1 [VStr "x"; VStr "y"] three_texts_dom = Ok tt s'
    /\ children_of s' 1 = [2; 3]
    /\ nodesPendingStripping s' = [4].
Proof.
  destruct (texts_are_patched_by_position 0 three_texts_dom 1 ["x"; "y"])
    as (s' & Hs' & Hl & _ & Hstrip & _).
  - exact three_texts_dom_texts.
  - exists s'. split; [exact Hs'|]. split; [exact Hl|exact Hstrip].
Defined.

(** ** Components: patching and disposal *)

(** X15. [deferComponentUpdate] is idempotent: a component whose update is
    pending is not added a second time to the components pending update. *)
Theorem deferComponentUpdate_twice (cid : nat) (s : state) :
  (deferComponentUpdate cid;; deferComponentUpdate cid) s = deferComponentUpdate cid s.
Proof.
  unfold deferComponentUpdate, updCmpt, setCmpt, getCmpt, modify, mbind, M_bind, mret, M_ret.
  destruct (components s !! cid) as [c|] eqn:Hc; [|done].
  destruct (c_updateIsPending c) eqn:Hf.
  - by rewrite Hc, Hf.
  - destruct s; cbn in *. rewrite Hc. cbn.
    match goal with |- context [Nat.eqb ?x 0] => destruct (Nat.eqb x 0) end;
      cbn; by rewrite lookup_insert_eq.
Qed.

(** X16. With deferred updates switched off, a write to an observable that a
    component's body reads patches the DOM of the component in place: the root
    and the text node stay the same nodes, the text is the new one, no node is
    created and none is queued for stripping. *)
Theorem component_patches_in_place (t0 t1 : string) (n : nat) :
  String.eqb t0 t1 = false ->
  returns (modify (set_deferComponentUpdates false);;
           text_component defaultEq (VStr t0) (20 + n)) initial (fun '(t, p) s0 =>
    match child_texts (cmpt_dom p s0) s0 with
    | [(c, name, value)] =>
        name = "#text" /\ value = t0 /\
        returns (Obs.write (20 + n) t (VStr t1)) s0 (fun _ s1 =>
          cmpt_dom p s1 = cmpt_dom p s0 /\
          child_texts (cmpt_dom p s1) s1 = [(c, "#text", t1)] /\
          nextNode s1 = nextNode s0 /\
          nodesPendingStripping s1 = [] /\
          componentInfosPendingUpdate s1 = [])
    | _ => False
    end).
Proof.
  intros HT. cbv in HT. unfold text_component. xrun.
  repeat (split; [vm_compute; reflexivity|]).
  xrun_with HT.
  all: repeat (split; [vm_compute; reflexivity|]).
  all: try (vm_compute; reflexivity).
Qed.

Lemma component_patches_in_place_witness :
  String.eqb "abc" "abd" = false /\
  returns (modify (set_deferComponentUpdates false);;
           text_component defaultEq (VStr "abc") (20 + 0)) initial (fun '(t, p) s0 =>
    match child_texts (cmpt_dom p s0) s0 with
    | [(c, name, value)] =>
        name = "#text" /\ value = "abc" /\
        returns (Obs.write (20 + 0) t (VStr "abd")) s0 (fun _ s1 =>
          cmpt_dom p s1 = cmpt_dom p s0 /\
          child_texts (cmpt_dom p s1) s1 = [(c, "#text", "abd")] /\
          nextNode s1 = nextNode s0 /\
          nodesPendingStripping s1 = [] /\
          componentInfosPendingUpdate s1 = [])
    | _ => False
    end).
Proof.
  split; [reflexivity|].
  apply (component_patches_in_place "abc" "abd" 0);
    reflexivity.
Defined.

(** X17. With deferred updates (the default), writes to an observable that a
    component's body reads re-evaluate the body at once but leave the DOM
    untouched and schedule one update; [updateDeferredComponents] then patches
    the DOM once, with the latest value, without running the body again. *)
Theorem deferred_update_patches_once (t0 t1 t2 : string) (n : nat) :
  String.eqb t0 t1 = false -> String.eqb t1 t2 = false -> String.eqb t0 t2 = false ->
  returns (text_component defaultEq (VStr t0) (20 + n)) initial (fun '(t, p) s0 =>
    match child_texts (cmpt_dom p s0) s0 with
    | [(c, name, value)] =>
        value = t0 /\
        returns (Obs.write (20 + n) t (VStr t1);; Obs.write (20 + n) t (VStr t2)) s0
          (fun _ s1 =>
            child_texts (cmpt_dom p s1) s1 = [(c, "#text", t0)] /\
            map VComponent (componentInfosPendingUpdate s1) = [p] /\
            deferredComponentUpdatesID s1 = 1 /\
            cmpt_evals p s1 = 3 /\
            returns (updateDeferredComponents (exec (20 + n))) s1 (fun _ s2 =>
              child_texts (cmpt_dom p s2) s2 = [(c, "#text", t2)] /\
              componentInfosPendingUpdate s2 = [] /\
              deferredComponentUpdatesID s2 = 0 /\
              cmpt_evals p s2 = 3 /\
              nextNode s2 = nextNode s0))
    | _ => False
    end).
Proof.
  intros H01 H12 H02. cbv in H01, H12, H02. unfold text_component. xrun.
  split; [vm_compute; reflexivity|].
  mnorm. repeat (xstep; try rewrite !H01; try rewrite !H12).
  all: repeat (split; [vm_compute; reflexivity|]).
  all: mnorm; repeat (xstep; try rewrite !H02).
  all: repeat (split; [vm_compute; reflexivity|]).
  all: try (vm_compute; reflexivity).
Qed.

Lemma deferred_update_patches_once_witness :
  String.eqb "a" "b" = false /\ String.eqb "b" "c" = false /\ String.eqb "a" "c" = false /\
  returns (text_component defaultEq (VStr "a") (20 + 0)) initial (fun '(t, p) s0 =>
    match child_texts (cmpt_dom p s0) s0 with
    | [(c, name, value)] =>
        value = "a" /\
        returns (Obs.write (20 + 0) t (VStr "b");; Obs.write (20 + 0) t (VStr "c")) s0
          (fun _ s1 =>
            child_texts (cmpt_dom p s1) s1 = [(c, "#text", "a")] /\
            map VComponent (componentInfosPendingUpdate s1) = [p] /\
            deferredComponentUpdatesID s1 = 1 /\
            cmpt_evals p s1 = 3 /\
            returns (updateDeferredComponents (exec (20 + 0))) s1 (fun _ s2 =>
              child_texts (cmpt_dom p s2) s2 = [(c, "#text", "c")] /\
              componentInfosPendingUpdate s2 = [] /\
              deferredComponentUpdatesID s2 = 0 /\
              cmpt_evals p s2 = 3 /\
              nextNode s2 = nextNode s0))
    | _ => False
    end).
Proof.
  split; [reflexivity|]. split; [reflexivity|]. split; [reflexivity|].
  apply (deferred_update_patches_once "a" "b" "c" 0);
    reflexivity.
Defined.

(** X18. [Od.dispose] of a component disposes its named and its anonymous
    subcomponents too, clears the entry of the name, queues no node for
    stripping, and a later write to the observable the component read
    re-evaluates nothing. *)
Theorem disposing_a_component_disposes_its_subcomponents (name : nat)
    (eqX : jsval -> jsval -> bool) (x0 x1 : jsval) (n : nat) :
  eqX x0 x1 = false ->
  returns (component_graph name eqX x0 (20 + n)) initial (fun '(x, p) s0 =>
    match subcomponents p s0 with
    | [foo; anon] =>
        returns (Od.dispose (20 + n) p) s0 (fun _ s1 =>
          cmpt_disposed p s1 /\ cmpt_disposed foo s1 /\ cmpt_disposed anon s1 /\
          named_subcomponent p name s1 = Some None /\
          nodesPendingStripping s1 = [] /\
          returns (Obs.write (20 + n) x x1) s1 (fun r s2 =>
            r = x1 /\ traced s2 = traced s1 /\ reported s2 = []))
    | _ => False
    end).
Proof.
  intros HX. pose proof (Nat.eqb_refl name) as Hname. cbv in Hname.
  unfold component_graph. xrun_with Hname.
  repeat (split; [solve_value_with Hname|]).
  xrun.
  all: repeat (split; [solve_value|]).
  all: solve_value.
Qed.

Lemma disposing_a_component_disposes_its_subcomponents_witness :
  defaultEq (VNum 0) (VNum 1) = false /\
  returns (component_graph 7 defaultEq (VNum 0) (20 + 0)) initial (fun '(x, p) s0 =>
    match subcomponents p s0 with
    | [foo; anon] =>
        returns (Od.dispose (20 + 0) p) s0 (fun _ s1 =>
          cmpt_disposed p s1 /\ cmpt_disposed foo s1 /\ cmpt_disposed anon s1 /\
          named_subcomponent p 7 s1 = Some None /\
          nodesPendingStripping s1 = [] /\
          returns (Obs.write (20 + 0) x (VNum 1)) s1 (fun r s2 =>
            r = (VNum 1) /\ traced s2 = traced s1 /\ reported s2 = []))
    | _ => False
    end).
Proof.
  split; [reflexivity|].
  apply (disposing_a_component_disposes_its_subcomponents 7 defaultEq (VNum 0) (VNum 1) 0);
    reflexivity.
Defined.

(** X19. Outside any component a name is not remembered: two calls of
    [Od.component] with the same name (or with none) give two distinct
    components, each evaluated once. *)
Theorem names_are_scoped_to_a_parent (name : option nat) (v : string) (n : nat) :
  returns (declared_twice name (Ret (VStr v)) (20 + n)) initial (fun '(a, b) s =>
    a <> b /\ is_component a s = true /\ is_component b s = true /\
    cmpt_evals a s = 1 /\ cmpt_evals b s = 1 /\ nextComponentID s = 3).
Proof.
  unfold declared_twice. destruct name as [name|]; xrun.
  all: split; [discriminate|].
  all: repeat (split; [solve_value|]).
  all: solve_value.
Qed.

(** ** Children given as nested arrays *)

Lemma flattenNested_spec :
  forall x zs, flattenNested1 x zs = zs ++ map VOne (leaves x).
Proof.
  fix IH 1. intros [v|xs] zs; cbn [flattenNested1 leaves].
  - done.
  - revert zs. induction xs as [|x xs IHxs]; intros zs; cbn [fold_left flat_map].
    + by rewrite app_nil_r.
    + rewrite IHxs, IH, map_app, app_assoc. done.
Qed.

Lemma flattenNestedVdoms_spec xs zs :
  flattenNestedVdoms xs zs = zs ++ map VOne (flat_map leaves xs).
Proof.
  exact (flattenNested_spec (VArray xs) zs).
Qed.

Lemma no_array_leaves (ys : list vdoms) :
  existsb is_array ys = false -> map VOne (flat_map leaves ys) = ys.
Proof.
  induction ys as [|[v|xs] ys IH]; cbn; [done| |done].
  intros H. by rewrite IH.
Qed.

Lemma existsb_is_array_map (l : list jsval) : existsb is_array (map VOne l) = false.
Proof. by induction l. Qed.

(** X20. [Od.flattenVdoms] of an array gives its vdoms from left to right,
    whatever the nesting of arrays, and leaves an array without nested arrays
    as it is. *)
Theorem flattenVdoms_flattens (ys : list vdoms) (l : list jsval) :
  flattenVdoms (VArray ys) = Some (map VOne (flat_map leaves ys))
  /\ flattenVdoms (VArray (map VOne l)) = Some (map VOne l).
Proof.
  split.
  - cbn [flattenVdoms]. destruct (existsb is_array ys) eqn:E.
    + by rewrite flattenNestedVdoms_spec.
    + by rewrite no_array_leaves.
  - cbn [flattenVdoms]. by rewrite existsb_is_array_map.
Qed.

(** ** The attributes of an element *)

Lemma fold_setAttribute (new elt : gmap string string) :
  map_fold (fun attr value elt => <[attr := value]> elt) elt new = new ∪ elt.
Proof.
  induction new as [|k v new Hk IH] using map_ind.
  - by rewrite map_fold_empty, (left_id_L ∅ (∪)).
  - rewrite map_fold_insert_L; [|intros; by apply insert_insert_ne|done].
    by rewrite IH, insert_union_l.
Qed.

Lemma fold_removeAttribute (keep : string -> bool) (old elt : gmap string string) a :
  map_fold (fun attr (_ : string) elt => if keep attr then elt else delete attr elt) elt old !! a
  = if bool_decide (is_Some (old !! a)) && negb (keep a) then None else elt !! a.
Proof.
  induction old as [|k v old Hk IH] using map_ind.
  - by rewrite map_fold_empty, lookup_empty.
  - rewrite map_fold_insert_L; [| |done].
    + destruct (decide (a = k)) as [->|Hne].
      * rewrite lookup_insert_eq. cbn. destruct (keep k) eqn:E; cbn.
        -- by rewrite IH, Hk.
        -- by rewrite lookup_delete_eq.
      * rewrite lookup_insert_ne by done.
        destruct (keep k); [done|]. by rewrite lookup_delete_ne.
    + intros j1 j2 z1 z2 y Hj _ _. destruct (keep j1), (keep j2); try done.
      apply delete_delete.
Qed.

(** X21. After [patchAttrProps] an attribute named in the new properties has
    its new value; one named only in the old properties is removed, unless its
    name is one that every object inherits and there are new properties; any
    other attribute of the element is untouched. *)
Theorem patchAttrProps_sets_and_removes (inherited : string -> bool)
    (elt : gmap string string) (old new : option (gmap string string)) (a : string) :
  patchAttrProps inherited elt old new !! a
  = match new ≫= (fun new => new !! a) with
    | Some v => Some v
    | None =>
        match old ≫= (fun old => old !! a), new with
        | Some _, None => None
        | Some _, Some _ => if inherited a then elt !! a else None
        | None, _ => elt !! a
        end
    end.
Proof.
  unfold patchAttrProps. destruct new as [new|], old as [old|].
  - rewrite (fold_removeAttribute (in_obj inherited new)), fold_setAttribute.
    unfold in_obj. cbn. rewrite lookup_union.
    destruct (new !! a) as [v|] eqn:Hn; cbn.
    + rewrite andb_false_r. by destruct (elt !! a).
    + destruct (old !! a) as [w|]; cbn.
      * destruct (inherited a); cbn; [|done]. by destruct (elt !! a).
      * by destruct (elt !! a).
  - rewrite fold_setAttribute. cbn. rewrite lookup_union.
    destruct (new !! a); by destruct (elt !! a).
  - rewrite (fold_removeAttribute (fun _ => false)). cbn. rewrite andb_true_r.
    by destruct (old !! a).
  - done.
Qed.

(** ** The router *)

Lemma split_on_cons (c : Ascii.ascii) (s : string) :
  exists w ws, Jigsaw.split_on c s = w :: ws.
Proof.
  induction s as [|a s IH]; cbn -[Ascii.eqb]; [eauto|].
  destruct (Ascii.eqb a c); [eauto|]. destruct IH as (w & ws & ->). eauto.
Qed.

Lemma split_on_no_sep (c : Ascii.ascii) (w : string) :
  occurs c w = false -> Jigsaw.split_on c w = [w].
Proof.
  induction w as [|a w IH]; cbn -[Ascii.eqb]; [done|].
  destruct (Ascii.eqb a c); [done|]. cbn -[Ascii.eqb]. intros H. by rewrite IH.
Qed.

Lemma split_on_app (c : Ascii.ascii) (w s : string) :
  occurs c w = false ->
  Jigsaw.split_on c (w +:+ String c s) = w :: Jigsaw.split_on c s.
Proof.
  induction w as [|a w IH]; simpl.
  - by rewrite Ascii.eqb_refl.
  - destruct (Ascii.eqb a c); [done|]. simpl. intros H. by rewrite IH.
Qed.

Lemma split_on_join (c : Ascii.ascii) (ws : list string) :
  ws <> [] -> Forall (fun w => occurs c w = false) ws ->
  Jigsaw.split_on c (Jigsaw.join c ws) = ws.
Proof.
  induction ws as [|w ws IH]; [done|]. intros _ Hws.
  apply Forall_cons in Hws as [Hw Hws].
  destruct ws as [|w' ws].
  - cbn. by apply split_on_no_sep.
  - change (Jigsaw.join c (w :: w' :: ws)) with (w +:+ String c (Jigsaw.join c (w' :: ws))).
    rewrite split_on_app by done. by rewrite IH.
Qed.

Lemma matchPart_literal (w : string) (cont : Jigsaw.matcher) :
  literal w = true -> Jigsaw.matchPart w cont = Jigsaw.matchExact w cont.
Proof.
  destruct w as [|c w]; [done|]. unfold literal, Jigsaw.matchPart.
  destruct (Ascii.eqb c _); [done|]. destruct (Ascii.eqb c _); [done|].
  by destruct (Ascii.eqb c _).
Qed.

Lemma exact_chain (ws : list string) :
  Forall (fun w => literal w = true) ws ->
  forall parts i a,
    foldr Jigsaw.matchPart Jigsaw.matchEnd ws parts i a
    = if decide (drop i parts = ws) then Some a else None.
Proof.
  induction 1 as [|w ws Hw Hws IH]; intros parts i a; cbn [foldr].
  - unfold Jigsaw.matchEnd. destruct (parts !! i) as [p|] eqn:E.
    + rewrite decide_False; [done|]. intros Hd.
      apply (f_equal length) in Hd. rewrite length_drop in Hd. cbn in Hd.
      apply lookup_lt_Some in E. lia.
    + rewrite decide_True; [done|]. apply drop_ge. by apply lookup_ge_None.
  - rewrite matchPart_literal by done. unfold Jigsaw.matchExact.
    destruct (parts !! i) as [p|] eqn:E.
    + rewrite (drop_S _ _ _ E).
      destruct (String.eqb_spec p w) as [->|Hne].
      * rewrite IH. replace (i + 1) with (S i) by lia.
        destruct (decide (drop (S i) parts = ws)) as [->|Hd].
        -- by rewrite decide_True.
        -- rewrite decide_False; [done|]. congruence.
      * rewrite decide_False; [done|]. congruence.
    + rewrite decide_False; [done|]. intros Hd.
      rewrite drop_ge in Hd by (by apply lookup_ge_None). done.
Qed.

(** X22. A route made of literal parts matches the parts of a hash exactly
    when they are the parts of the route, and then with no arguments. *)
Theorem exact_route_matches_itself (ws parts : list string) :
  ws <> [] -> Jigsaw.join (Jigsaw.chr "/") ws <> "" ->
  Forall (fun w => literal w = true /\ occurs (Jigsaw.chr "/") w = false) ws ->
  Jigsaw.routeMatcher (Jigsaw.join (Jigsaw.chr "/") ws) parts 0 ∅
  = if decide (parts = ws) then Some ∅ else None.
Proof.
  intros Hne Hroute Hws. unfold Jigsaw.routeMatcher.
  destruct (String.eqb_spec (Jigsaw.join (Jigsaw.chr "/") ws) "") as [|_]; [done|].
  rewrite split_on_join; [|done|by eapply Forall_impl; [exact Hws|intros ? []]].
  rewrite exact_chain by (by eapply Forall_impl; [exact Hws|intros ? []]).
  by rewrite drop_0.
Qed.

Lemma exact_route_matches_itself_witness :
  Jigsaw.routeMatcher "users/list" ["users"; "list"] 0 ∅ = Some ∅
  /\ Jigsaw.routeMatcher "users/list" ["users"] 0 ∅ = None.
Proof.
  split.
  - apply (exact_route_matches_itself ["users"; "list"] ["users"; "list"]);
      [done|done|by repeat constructor].
  - apply (exact_route_matches_itself ["users"; "list"] ["users"]);
      [done|done|by repeat constructor].
Defined.

Lemma matchPart_required (w : string) (cont : Jigsaw.matcher) parts i a :
  required w = true -> parts !! i = None ->
  Jigsaw.matchPart w cont parts i a = None.
Proof.
  intros Hw Hi. destruct w as [|c w]; unfold Jigsaw.matchPart.
  - unfold Jigsaw.matchExact. by rewrite Hi.
  - unfold required, starts in Hw.
    destruct (Ascii.eqb c (Jigsaw.chr ":")).
    { unfold Jigsaw.matchParam. by rewrite Hi. }
    destruct (Ascii.eqb c (Jigsaw.chr "?")); [done|].
    destruct (Ascii.eqb c (Jigsaw.chr "*")); [done|].
    unfold Jigsaw.matchExact. by rewrite Hi.
Qed.

Lemma matchPart_none (w : string) (cont : Jigsaw.matcher) parts :
  (forall i a, cont parts i a = None) ->
  forall i a, Jigsaw.matchPart w cont parts i a = None.
Proof.
  intros Hc i a. destruct w as [|c w]; unfold Jigsaw.matchPart.
  - unfold Jigsaw.matchExact. destruct (parts !! i); [|done]. by destruct (String.eqb _ _).
  - destruct (Ascii.eqb c (Jigsaw.chr ":")).
    { unfold Jigsaw.matchParam. by destruct (parts !! i). }
    destruct (Ascii.eqb c (Jigsaw.chr "?")).
    { unfold Jigsaw.matchOptParam. apply Hc. }
    destruct (Ascii.eqb c (Jigsaw.chr "*")).
    { unfold Jigsaw.matchRest. apply Hc. }
    unfold Jigsaw.matchExact. destruct (parts !! i); [|done]. by destruct (String.eqb _ _).
Qed.

Lemma matchers_none (pre : list string) (m : Jigsaw.matcher) parts :
  (forall i a, m parts i a = None) ->
  forall i a, foldr Jigsaw.matchPart m pre parts i a = None.
Proof.
  intros Hm. induction pre as [|w pre IH]; [done|]. cbn [foldr].
  by apply matchPart_none.
Qed.

Lemma matchPart_rest (w : string) (cont : Jigsaw.matcher) :
  starts (Jigsaw.chr "*") w = true -> Jigsaw.matchPart w cont = Jigsaw.matchRest w cont.
Proof.
  destruct w as [|c w]; [done|]. unfold starts, Jigsaw.matchPart.
  destruct (Ascii.eqb_spec c (Jigsaw.chr "*")) as [->|]; [|done]. done.
Qed.

Lemma matchPart_opt (w : string) (cont : Jigsaw.matcher) :
  starts (Jigsaw.chr "?") w = true -> Jigsaw.matchPart w cont = Jigsaw.matchOptParam w cont.
Proof.
  destruct w as [|c w]; [done|]. unfold starts, Jigsaw.matchPart.
  destruct (Ascii.eqb_spec c (Jigsaw.chr "?")) as [->|]; [|done]. done.
Qed.

(** X23. A route in which a [*] parameter is followed by a literal part or a
    [:] parameter matches no hash. *)
Theorem rest_parameter_must_come_last (route : string)
    (pre : list string) (star nxt : string) (post : list string)
    (parts : list string) (a : Jigsaw.args) :
  Jigsaw.split_on (Jigsaw.chr "/") route = pre ++ star :: nxt :: post ->
  starts (Jigsaw.chr "*") star = true -> required nxt = true ->
  Jigsaw.routeMatcher route parts 0 a = None.
Proof.
  intros Hsplit Hstar Hnxt. unfold Jigsaw.routeMatcher.
  destruct (String.eqb_spec route "") as [->|_].
  { cbn in Hsplit. by destruct pre as [|? [|? ?]]. }
  rewrite Hsplit, foldr_app. apply matchers_none. intros i a'. cbn [foldr].
  rewrite matchPart_rest by done. unfold Jigsaw.matchRest.
  apply matchPart_required; [done|]. apply lookup_ge_None. lia.
Qed.

Lemma rest_parameter_must_come_last_witness :
  Jigsaw.routeMatcher "*rest/end" ["a"; "end"] 0 ∅ = None.
Proof.
  apply (rest_parameter_must_come_last "*rest/end" [] "*rest" "end" []); reflexivity.
Defined.

(** X24. An optional parameter that is followed by a literal part or a [:]
    parameter is not optional: the match fails when its part of the hash is
    missing. *)
Theorem optional_parameter_before_required_part (p nxt : string)
    (cont : Jigsaw.matcher) (parts : list string) (i : nat) (a : Jigsaw.args) :
  starts (Jigsaw.chr "?") p = true -> required nxt = true ->
  Jigsaw.matchPart p (Jigsaw.matchPart nxt cont) parts i a
  = match parts !! i with
    | Some x => Jigsaw.matchPart nxt cont parts (i + 1) (<[p := Jigsaw.AStr x]> a)
    | None => None
    end.
Proof.
  intros Hp Hnxt. rewrite matchPart_opt by done. unfold Jigsaw.matchOptParam.
  destruct (parts !! i) as [x|] eqn:E; [done|].
  apply matchPart_required; [done|]. apply lookup_ge_None.
  apply lookup_ge_None in E. lia.
Qed.

Lemma optional_parameter_before_required_part_witness :
  Jigsaw.matchPart "?id" (Jigsaw.matchPart "edit" Jigsaw.matchEnd) ["edit"] 0 ∅ = None.
Proof.
  rewrite (optional_parameter_before_required_part "?id" "edit"); reflexivity.
Defined.

Lemma replace_plus_app (a b : string) :
  Jigsaw.replace_plus (a +:+ b) = Jigsaw.replace_plus a +:+ Jigsaw.replace_plus b.
Proof. induction a as [|c a IH]; simpl; [done|]. by rewrite IH. Qed.

Lemma split_pairs_cons (s : string) : exists w ws, Jigsaw.split_pairs s = w :: ws.
Proof.
  induction s as [|a s IH]; simpl; [eauto|].
  destruct (_ || _); [eauto|]. destruct IH as (w & ws & ->). eauto.
Qed.

Lemma split_pairs_app (a b : string) (c : Ascii.ascii) :
  Ascii.eqb c (Jigsaw.chr "&") || Ascii.eqb c (Jigsaw.chr ";") = true ->
  Jigsaw.split_pairs (a +:+ String c b) = Jigsaw.split_pairs a ++ Jigsaw.split_pairs b.
Proof.
  intros Hc. induction a as [|x a IH]; simpl in *.
  - by rewrite Hc.
  - rewrite IH. destruct (Ascii.eqb x _ || Ascii.eqb x _); [done|].
    by destruct (split_pairs_cons a) as (w & ws & ->).
Qed.

Section Query.

Variable decodeURIComponent : string -> option string.

Lemma parsePair_union (p : string) (m : gmap string string) :
  Jigsaw.parsePair decodeURIComponent m p
  = (fun r => r ∪ m) <$> Jigsaw.parsePair decodeURIComponent ∅ p.
Proof.
  unfold Jigsaw.parsePair. destruct (decodeURIComponent _) as [v|]; [|done]. cbn.
  destruct (String.eqb _ _).
  - by rewrite (left_id_L ∅ (∪)).
  - by rewrite <- insert_union_l, (left_id_L ∅ (∪)).
Qed.

Lemma forEach_pair_union (l : list string) : forall (m : gmap string string),
  Jigsaw.forEach_pair decodeURIComponent l m
  = (fun r => r ∪ m) <$> Jigsaw.forEach_pair decodeURIComponent l ∅.
Proof.
  induction l as [|p l IH]; intros m; cbn [Jigsaw.forEach_pair].
  - cbn. by rewrite (left_id_L ∅ (∪)).
  - rewrite (parsePair_union p m).
    destruct (Jigsaw.parsePair decodeURIComponent ∅ p) as [m1|]; [|done]. cbn.
    rewrite (IH (m1 ∪ m)), (IH m1).
    destruct (Jigsaw.forEach_pair decodeURIComponent l ∅) as [m2|]; [|done]. cbn.
    by rewrite (assoc_L (∪)).
Qed.

Lemma forEach_pair_app (l1 l2 : list string) (m : gmap string string) :
  Jigsaw.forEach_pair decodeURIComponent (l1 ++ l2) m
  = Jigsaw.forEach_pair decodeURIComponent l1 m
      ≫= Jigsaw.forEach_pair decodeURIComponent l2.
Proof.
  revert m. induction l1 as [|p l1 IH]; intros m; cbn [Jigsaw.forEach_pair app]; [done|].
  destruct (Jigsaw.parsePair decodeURIComponent m p) as [m1|]; [|done]. cbn. apply IH.
Qed.

Lemma parseQuery_sep (c : Ascii.ascii) (q1 q2 : string) :
  Ascii.eqb c (Jigsaw.chr "&") || Ascii.eqb c (Jigsaw.chr ";") = true ->
  Jigsaw.parseQuery decodeURIComponent (q1 +:+ String c q2)
  = m1 ← Jigsaw.parseQuery decodeURIComponent q1;
    m2 ← Jigsaw.parseQuery decodeURIComponent q2;
    Some (m2 ∪ m1).
Proof.
  intros Hc. unfold Jigsaw.parseQuery. rewrite replace_plus_app.
  assert (E : Jigsaw.replace_plus (String c q2) = String c (Jigsaw.replace_plus q2)).
  { cbn [Jigsaw.replace_plus].
    destruct (Ascii.eqb_spec c (Jigsaw.chr "+")) as [->|]; [|done].
    vm_compute in Hc. discriminate. }
  rewrite E, split_pairs_app by done. rewrite forEach_pair_app.
  destruct (Jigsaw.forEach_pair decodeURIComponent _ ∅) as [m1|]; [|done]. cbn.
  rewrite forEach_pair_union.
  by destruct (Jigsaw.forEach_pair decodeURIComponent _ ∅).
Qed.

(** X25. [Jigsaw.parseQuery] of two queries joined by [&] is the union of the
    two dictionaries in which the keys of the second query win; [;] separates
    as [&] does; the empty query gives a dictionary with the empty key; an
    exception of [decodeURIComponent] in either part is the result. *)
Theorem parseQuery_later_pairs_win (q1 q2 : string) :
  Jigsaw.parseQuery decodeURIComponent (q1 +:+ "&" +:+ q2)
  = (m1 ← Jigsaw.parseQuery decodeURIComponent q1;
     m2 ← Jigsaw.parseQuery decodeURIComponent q2;
     Some (m2 ∪ m1))
  /\ Jigsaw.parseQuery decodeURIComponent (q1 +:+ ";" +:+ q2)
     = Jigsaw.parseQuery decodeURIComponent (q1 +:+ "&" +:+ q2)
  /\ Jigsaw.parseQuery decodeURIComponent ""
     = (v ← decodeURIComponent ""; Some {[ "" := v ]}).
Proof.
  split_and!.
  - by apply (parseQuery_sep (Jigsaw.chr "&")).
  - change (q1 +:+ ";" +:+ q2) with (q1 +:+ String (Jigsaw.chr ";") q2).
    change (q1 +:+ "&" +:+ q2) with (q1 +:+ String (Jigsaw.chr "&") q2).
    by rewrite !parseQuery_sep.
  - unfold Jigsaw.parseQuery. cbn. unfold Jigsaw.parsePair. cbn.
    by destruct (decodeURIComponent "").
Qed.

End Query.

Lemma split_pairs_single (s : string) :
  occurs (Jigsaw.chr "&") s = false -> occurs (Jigsaw.chr ";") s = false ->
  Jigsaw.split_pairs s = [s].
Proof.
  induction s as [|a s IH]; simpl; [done|].
  destruct (Ascii.eqb a _); [done|]. destruct (Ascii.eqb a _); [done|]. simpl.
  intros H1 H2. by rewrite IH.
Qed.

Lemma replace_plus_id (s : string) :
  occurs (Jigsaw.chr "+") s = false -> Jigsaw.replace_plus s = s.
Proof.
  induction s as [|a s IH]; simpl; [done|].
  destruct (Ascii.eqb a _); [done|]. simpl. intros H. by rewrite IH.
Qed.

Lemma occurs_app (c : Ascii.ascii) (a b : string) :
  occurs c (a +:+ b) = occurs c a || occurs c b.
Proof. induction a as [|x a IH]; simpl; [done|]. by rewrite IH, orb_assoc. Qed.

Lemma occurs_replace_plus (c : Ascii.ascii) (s : string) :
  Ascii.eqb (Jigsaw.chr " ") c = false ->
  occurs c s = false -> occurs c (Jigsaw.replace_plus s) = false.
Proof.
  intros Hc. induction s as [|a s IH]; simpl; [done|].
  intros H. apply orb_false_elim in H as [E H].
  rewrite IH by done. rewrite orb_false_r.
  match goal with |- Ascii.eqb (if ?b then _ else _) c = false => destruct b end;
    [exact Hc|exact E].
Qed.

Lemma indexOf_app (c : Ascii.ascii) (k v : string) :
  occurs c k = false ->
  Jigsaw.indexOf c (k +:+ String c v) = Some (String.length k).
Proof.
  induction k as [|a k IH]; simpl.
  - by rewrite Ascii.eqb_refl.
  - destruct (Ascii.eqb a c); [done|]. simpl. intros H. by rewrite IH.
Qed.

Lemma indexOf_none (c : Ascii.ascii) (k : string) :
  occurs c k = false -> Jigsaw.indexOf c k = None.
Proof.
  induction k as [|a k IH]; simpl; [done|].
  destruct (Ascii.eqb a c); [done|]. simpl. intros H. by rewrite IH.
Qed.

Lemma substr_to_app (k v : string) : Jigsaw.substr_to (String.length k) (k +:+ v) = k.
Proof. induction k as [|a k IH]; simpl; [by destruct v|]. by rewrite IH. Qed.

Lemma substr_from_app (k v : string) (c : Ascii.ascii) :
  Jigsaw.substr_from (String.length k + 1) (k +:+ String c v) = v.
Proof. induction k as [|a k IH]; simpl; [done|]. by rewrite IH. Qed.

Lemma substr_to_all (k : string) : Jigsaw.substr_to (String.length k) k = k.
Proof. induction k as [|a k IH]; simpl; [done|]. by rewrite IH. Qed.

Lemma substr_from_past (k : string) : Jigsaw.substr_from (String.length k + 1) k = "".
Proof. induction k as [|a k IH]; simpl; [done|]. by rewrite IH. Qed.

Section QueryPairs.

Variable decodeURIComponent : string -> option string.

(** X26. [Jigsaw.parseQuery] of [k=v] maps [k] to the decoded [v] with each
    [+] read as a space, and of [k] alone maps [k] to the decoded empty
    string; the key [__proto__] is dropped. *)
Theorem parseQuery_single_pair (k v v' : string) :
  occurs (Jigsaw.chr "&") k = false -> occurs (Jigsaw.chr ";") k = false ->
  occurs (Jigsaw.chr "=") k = false -> occurs (Jigsaw.chr "+") k = false ->
  occurs (Jigsaw.chr "&") v = false -> occurs (Jigsaw.chr ";") v = false ->
  decodeURIComponent (Jigsaw.replace_plus v) = Some v' ->
  Jigsaw.parseQuery decodeURIComponent (k +:+ "=" +:+ v)
  = Some (if String.eqb k "__proto__" then ∅ else {[ k := v' ]})
  /\ Jigsaw.parseQuery decodeURIComponent k
     = (e ← decodeURIComponent "";
        Some (if String.eqb k "__proto__" then ∅ else {[ k := e ]})).
Proof.
  intros Hk1 Hk2 Hk3 Hk4 Hv1 Hv2 Hv. unfold Jigsaw.parseQuery. split.
  - change (k +:+ "=" +:+ v) with (k +:+ String (Jigsaw.chr "=") v).
    rewrite replace_plus_app, (replace_plus_id k) by done.
    change (Jigsaw.replace_plus (String (Jigsaw.chr "=") v))
      with (String (Jigsaw.chr "=") (Jigsaw.replace_plus v)).
    rewrite split_pairs_single.
    + cbn [Jigsaw.forEach_pair]. unfold Jigsaw.parsePair.
      rewrite indexOf_app by done. rewrite substr_to_app, substr_from_app, Hv. cbn.
      by destruct (String.eqb k _).
    + rewrite occurs_app, Hk1. simpl. by apply occurs_replace_plus.
    + rewrite occurs_app, Hk2. simpl. by apply occurs_replace_plus.
  - rewrite replace_plus_id, split_pairs_single by done.
    cbn [Jigsaw.forEach_pair]. unfold Jigsaw.parsePair.
    rewrite indexOf_none by done. rewrite substr_to_all, substr_from_past.
    destruct (decodeURIComponent "") as [e|]; [|done]. cbn.
    by destruct (String.eqb k _).
Qed.

End QueryPairs.

Lemma parseQuery_single_pair_witness :
  Jigsaw.parseQuery Some "q=a+b" = Some {[ "q" := "a b" ]}.
Proof.
  apply (parseQuery_single_pair Some "q" "a+b" "a b"); reflexivity.
Defined.

Section Routing.

Variable decodeURIComponent : string -> option string.

Lemma takeRoute_loop_app hash query parts rs1 rs2 :
  Jigsaw.takeRoute_loop hash query parts (rs1 ++ rs2)
  = match Jigsaw.takeRoute_loop hash query parts rs1 with
    | Some t => Some t
    | None => Jigsaw.takeRoute_loop hash query parts rs2
    end.
Proof.
  induction rs1 as [|r rs1 IH]; [done|]. cbn.
  by destruct (Jigsaw.routeMatcher _ _ _ _).
Qed.

Lemma takeRoute_loop_handled hash query parts rs t :
  Jigsaw.takeRoute_loop hash query parts rs = Some t ->
  exists h a, t = Jigsaw.Handled h a.
Proof.
  induction rs as [|r rs IH]; [done|]. cbn.
  destruct (Jigsaw.routeMatcher _ _ _ _); [|done]. intros [= <-]. eauto.
Qed.

Lemma lastIndexOf_none (c : Ascii.ascii) (s : string) :
  occurs c s = false -> Jigsaw.lastIndexOf c s = None.
Proof.
  induction s as [|a s IH]; simpl; [done|].
  destruct (Ascii.eqb a c); [done|]. simpl. intros H. by rewrite IH.
Qed.

Lemma lastIndexOf_app (c : Ascii.ascii) (h q : string) :
  occurs c q = false ->
  Jigsaw.lastIndexOf c (h +:+ String c q) = Some (String.length h).
Proof.
  intros Hq. induction h as [|a h IH]; simpl.
  - by rewrite (lastIndexOf_none c q Hq), Ascii.eqb_refl.
  - by rewrite IH.
Qed.

(** X27. [Jigsaw.takeRoute] calls the handler of the first route that matches
    the parts before the last [?], with the arguments of the match, the hash
    under ["#"] and the query under ["?"]; routes added later do not change
    this. *)
Theorem first_matching_route_is_taken (j : Jigsaw.router) (r : string) (h : nat)
    (hash query : string) (parts : list string) (a : Jigsaw.args) :
  occurs (Jigsaw.chr "?") query = false ->
  hash_parts decodeURIComponent hash = Some parts ->
  Forall (fun x => Jigsaw.routeMatcher (Jigsaw.route x) parts 0 ∅ = None)
    (Jigsaw.compiledRoutes j) ->
  Jigsaw.routeMatcher r parts 0 ∅ = Some a ->
  let j' := Jigsaw.addRoute r h j in
  let taken := Jigsaw.Handled h (<["?" := Jigsaw.AStr query]> (<["#" := Jigsaw.AStr hash]> a)) in
  Jigsaw.takeRoute decodeURIComponent (hash +:+ "?" +:+ query) j' = Some taken
  /\ (forall r2 h2,
        Jigsaw.takeRoute decodeURIComponent (hash +:+ "?" +:+ query)
          (Jigsaw.addRoute r2 h2 j') = Some taken)
  /\ (occurs (Jigsaw.chr "?") hash = false -> query = "" ->
      Jigsaw.takeRoute decodeURIComponent hash j' = Some taken).
Proof.
  intros Hq Hparts Hnone Hr j' taken.
  assert (E : Jigsaw.takeRoute_loop hash query parts (Jigsaw.compiledRoutes j')
              = Some taken).
  { subst j'. unfold Jigsaw.addRoute. cbn [Jigsaw.compiledRoutes].
    rewrite takeRoute_loop_app.
    assert (E : Jigsaw.takeRoute_loop hash query parts (Jigsaw.compiledRoutes j) = None).
    { induction Hnone as [|x l Hx Hl IH]; [done|]. cbn. by rewrite Hx. }
    rewrite E. cbn. by rewrite Hr. }
  unfold hash_parts in Hparts.
  split_and!.
  - unfold Jigsaw.takeRoute.
    change (hash +:+ "?" +:+ query) with (hash +:+ String (Jigsaw.chr "?") query).
    rewrite lastIndexOf_app by done.
    rewrite substr_to_app, substr_from_app, Hparts. cbn [mbind option_bind].
    by rewrite E.
  - intros r2 h2. unfold Jigsaw.takeRoute.
    change (hash +:+ "?" +:+ query) with (hash +:+ String (Jigsaw.chr "?") query).
    rewrite lastIndexOf_app by done.
    rewrite substr_to_app, substr_from_app, Hparts. cbn [mbind option_bind].
    unfold Jigsaw.addRoute at 1. cbn [Jigsaw.compiledRoutes Jigsaw.defaultRouteHandler].
    by rewrite takeRoute_loop_app, E.
  - intros Hh ->. unfold Jigsaw.takeRoute. rewrite lastIndexOf_none by done.
    rewrite Hparts. cbn [mbind option_bind]. by rewrite E.
Qed.

End Routing.

Lemma first_matching_route_is_taken_witness :
  let j := Jigsaw.addRoute "users" 1 (Jigsaw.mkRouter [] None) in
  Jigsaw.takeRoute Some "?page=2" (Jigsaw.addRoute "" 2 j)
  = Some (Jigsaw.Handled 2
            (<["?" := Jigsaw.AStr "page=2"]> (<["#" := Jigsaw.AStr ""]> ∅))).
Proof.
  intros j.
  apply (first_matching_route_is_taken Some j "" 2 "" "page=2" [] ∅);
    [reflexivity|reflexivity| |reflexivity].
  repeat constructor.
Defined.

(** X28. [Jigsaw.removeRoute(r)] keeps the routes equal to [r] and removes
    all the others. *)
Theorem removeRoute_keeps_only_that_route (j : Jigsaw.router) (r : string) :
  (forall x, x ∈ Jigsaw.compiledRoutes (Jigsaw.removeRoute r j)
             <-> x ∈ Jigsaw.compiledRoutes j /\ Jigsaw.route x = r)
  /\ (forall h, Jigsaw.removeRoute r (Jigsaw.addRoute r h (Jigsaw.clearRoutes j))
                = Jigsaw.addRoute r h (Jigsaw.clearRoutes j))
  /\ (forall r' h, r' <> r ->
        Jigsaw.removeRoute r (Jigsaw.addRoute r' h (Jigsaw.clearRoutes j))
        = Jigsaw.clearRoutes j).
Proof.
  split_and!.
  - intros x. unfold Jigsaw.removeRoute. cbn. rewrite list_elem_of_filter.
    split; intros [H1 H2].
    + split; [done|by apply String.eqb_eq].
    + split; [by apply String.eqb_eq|done].
  - intros h. unfold Jigsaw.removeRoute, Jigsaw.addRoute, Jigsaw.clearRoutes.
    cbn [Jigsaw.compiledRoutes Jigsaw.defaultRouteHandler app].
    rewrite filter_cons_True; [done|]. cbn. by rewrite String.eqb_refl.
  - intros r' h Hne. unfold Jigsaw.removeRoute, Jigsaw.addRoute, Jigsaw.clearRoutes.
    cbn [Jigsaw.compiledRoutes Jigsaw.defaultRouteHandler app].
    rewrite filter_cons_False; [done|]. cbn.
    destruct (String.eqb_spec r' r); done.
Qed.

Lemma removeRoute_keeps_only_that_route_witness :
  Jigsaw.removeRoute "a" (Jigsaw.addRoute "b" 1 (Jigsaw.clearRoutes (Jigsaw.mkRouter [] None)))
  = Jigsaw.clearRoutes (Jigsaw.mkRouter [] None).
Proof.
  destruct (removeRoute_keeps_only_that_route (Jigsaw.mkRouter [] None) "a") as (_ & _ & H).
  apply (H "b" 1). discriminate.
Defined.

(* ================================================================== *)
(** * Named and anonymous components *)
(* ================================================================== *)



Example heap_enqueue_ex :
  heap_enqueue (fun x => Some (Z.of_nat x)) [1; 3; 5] 2 = [1; 2; 5; 3].
Proof. reflexivity. Qed.

Example heap_dequeue_ex :
  heap_dequeue (fun x => Some (Z.of_nat x)) [1; 2; 5; 3] = Some (1, [2; 3; 5]).
Proof. reflexivity. Qed.
